(** * SpartanHub: resource catalog, preview resolver, tag registry, admin form

    A shallow embedding of the client-side logic of the SpartanHub dashboard
    (src/App.tsx, src/components/AdminConsole.tsx and the resource viewer
    modal) together with the properties its specification states.

    Conventions.
    - A JavaScript string is a sequence of UTF-16 code units: [list N].
      [str] injects an ASCII literal.
    - Platform builtins that the repository calls but does not define
      ([String.prototype.toLowerCase], the [URL] constructor) are Section
      variables of the code that uses them; [toLowerCase_ascii] and [URL_std]
      are reference instances used at concrete inputs.
    - A JavaScript exception is a [Thrown] outcome of the [completion] monad.
    - The view and download counters are Numbers that hold integers, kept
      as [Z]; a sum is rounded to the nearest Number by [roundNumber].
    - A state update written as a function ([setX(prev => ...)]) takes the
      state as it is when it runs; a handler that reads a state constant of
      its render instead takes that value as an argument of its own.
*)

From Stdlib Require Import ZArith NArith List Lia Permutation Sorted.
From Stdlib Require Import Ascii String.
From stdpp Require Import base option gmap.
Import ListNotations.

Local Open Scope N_scope.
Local Open Scope list_scope.

(* ===================================================================== *)
(** ** JavaScript strings                                                 *)
(* ===================================================================== *)

Abbreviation jsstring := (list N).

Fixpoint str (s : string) : jsstring :=
  match s with
  | EmptyString => []
  | String a s' => N_of_ascii a :: str s'
  end.
Arguments str s%_string.

Definition jsstring_eqb (a b : jsstring) : bool := bool_decide (a = b).

Definition jsstring_eq_dec (a b : jsstring) : {a = b} + {a <> b} :=
  List.list_eq_dec N.eq_dec a b.

(** [s.startsWith(p)] *)
Fixpoint startsWith (s p : jsstring) : bool :=
  match p, s with
  | [], _ => true
  | _ :: _, [] => false
  | x :: p', y :: s' => (x =? y) && startsWith s' p'
  end.

(** [s.includes(sub)]: [sub] occurs in [s] as a contiguous run. *)
Fixpoint includes (s sub : jsstring) : bool :=
  startsWith s sub ||
  match s with
  | [] => false
  | _ :: s' => includes s' sub
  end.

(** [arr.includes(x)] on an array of strings. *)
Definition Array_includes (arr : list jsstring) (x : jsstring) : bool :=
  existsb (jsstring_eqb x) arr.

(** ECMAScript WhiteSpace and LineTerminator code units, as removed by
    [String.prototype.trim]. *)
Definition isWhiteSpace (c : N) : bool :=
  ((9 <=? c) && (c <=? 13)) || (c =? 32) || (c =? 160) || (c =? 5760)
  || ((8192 <=? c) && (c <=? 8202)) || (c =? 8232) || (c =? 8233)
  || (c =? 8239) || (c =? 8287) || (c =? 12288) || (c =? 65279).

Fixpoint trimStart (s : jsstring) : jsstring :=
  match s with
  | [] => []
  | c :: s' => if isWhiteSpace c then trimStart s' else s
  end.

Definition trimEnd (s : jsstring) : jsstring := rev (trimStart (rev s)).

Definition trim (s : jsstring) : jsstring := trimEnd (trimStart s).

(** [s.split(sep)] for a one-code-unit separator. *)
Fixpoint split (sep : N) (s : jsstring) : list jsstring :=
  match s with
  | [] => [[]]
  | c :: s' =>
      if c =? sep then [] :: split sep s'
      else match split sep s' with
           | [] => [[c]]
           | seg :: segs => (c :: seg) :: segs
           end
  end.

(** [s.split(sep)[0]] *)
Fixpoint split_head (sep : N) (s : jsstring) : jsstring :=
  match s with
  | [] => []
  | c :: s' => if c =? sep then [] else c :: split_head sep s'
  end.

(** [s.replace(c, "")] with a one-code-unit string pattern: the first
    occurrence only. *)
Fixpoint replace_first (c : N) (s : jsstring) : jsstring :=
  match s with
  | [] => []
  | x :: s' => if x =? c then s' else x :: replace_first c s'
  end.

(** Truthiness of a [string | null | undefined] value. *)
Definition truthy (o : option jsstring) : bool :=
  match o with
  | Some (_ :: _) => true
  | _ => false
  end.

(** [o || ""] *)
Definition or_empty (o : option jsstring) : jsstring :=
  match o with
  | Some s => s
  | None => []
  end.

(** *** Case-insensitive matching of ASCII regular-expression literals

    Without the [u] flag a pattern character matches an input code unit when
    both canonicalise to the same code unit; a code unit above 127 never
    canonicalises to an ASCII one, so against ASCII patterns the test is
    ASCII case folding. *)
Definition canonicalize (c : N) : N :=
  if (97 <=? c) && (c <=? 122) then c - 32 else c.

Definition ci_eqb (c p : N) : bool := canonicalize c =? canonicalize p.

Fixpoint ci_prefix (p s : jsstring) : bool :=
  match p, s with
  | [], _ => true
  | _ :: _, [] => false
  | x :: p', y :: s' => ci_eqb y x && ci_prefix p' s'
  end.

(** Regular expressions of the shapes the viewer uses, matched with
    backtracking as [RegExp.prototype.test] does (flag [i], no flag [u]). *)
Inductive regex :=
  | Lit (p : jsstring)
  | Seq (a b : regex)
  | Alt (a b : regex)
  | Opt (a : regex)
  | EndOfInput.

Fixpoint rmatch (r : regex) (s : jsstring) (k : jsstring -> bool) : bool :=
  match r with
  | Lit p => ci_prefix p s && k (skipn (length p) s)
  | Seq a b => rmatch a s (fun s' => rmatch b s' k)
  | Alt a b => rmatch a s k || rmatch b s k
  | Opt a => rmatch a s k || k s
  | EndOfInput => match s with [] => k s | _ :: _ => false end
  end.

(** [/^r/i.test(s)] *)
Definition test_anchored (r : regex) (s : jsstring) : bool :=
  rmatch r s (fun _ => true).

(** [/r/i.test(s)]: a match may start at any position. *)
Fixpoint test (r : regex) (s : jsstring) : bool :=
  rmatch r s (fun _ => true) ||
  match s with
  | [] => false
  | _ :: s' => test r s'
  end.

(** [p|q1|q2|...] *)
Fixpoint alts (p : string) (qs : list string) : regex :=
  match qs with
  | [] => Lit (str p)
  | q :: qs' => Alt (Lit (str p)) (alts q qs')
  end.

(** *** [encodeURIComponent] *)

Inductive JsError := TypeError | URIError.

Inductive completion (A : Type) :=
  | Returned (a : A)
  | Thrown (e : JsError).
Arguments Returned {A} a.
Arguments Thrown {A} e.

Definition cbind {A B} (c : completion A) (k : A -> completion B) : completion B :=
  match c with
  | Returned a => k a
  | Thrown e => Thrown e
  end.

Notation "'let!' x ':=' c 'in' k" := (cbind c (fun x => k))
  (at level 10, x name, c at level 100, k at level 200).

Definition uriUnreserved (c : N) : bool :=
  ((65 <=? c) && (c <=? 90)) || ((97 <=? c) && (c <=? 122))
  || ((48 <=? c) && (c <=? 57))
  || existsb (N.eqb c) (str "-_.!~*'()").

Definition hexDigit (n : N) : N := if n <? 10 then 48 + n else 55 + n.

Definition percentByte (b : N) : jsstring :=
  [37; hexDigit (b / 16); hexDigit (b mod 16)].

Definition utf8 (cp : N) : list N :=
  if cp <? 128 then [cp]
  else if cp <? 2048 then [192 + cp / 64; 128 + cp mod 64]
  else if cp <? 65536 then
    [224 + cp / 4096; 128 + (cp / 64) mod 64; 128 + cp mod 64]
  else
    [240 + cp / 262144; 128 + (cp / 4096) mod 64;
     128 + (cp / 64) mod 64; 128 + cp mod 64].

Definition isHighSurrogate (c : N) : bool := (55296 <=? c) && (c <=? 56319).
Definition isLowSurrogate (c : N) : bool := (56320 <=? c) && (c <=? 57343).

Definition percentEncode (cp : N) : jsstring :=
  flat_map percentByte (utf8 cp).

(** ECMAScript [Encode] with the [encodeURIComponent] unreserved set: a low
    surrogate, or a high surrogate not followed by a low one, is a
    [URIError]. *)
Fixpoint encodeURIComponent (s : jsstring) : completion jsstring :=
  match s with
  | [] => Returned []
  | c :: rest =>
      if uriUnreserved c then
        let! r := encodeURIComponent rest in Returned (c :: r)
      else if isLowSurrogate c then Thrown URIError
      else if isHighSurrogate c then
        match rest with
        | d :: rest' =>
            if isLowSurrogate d then
              let! r := encodeURIComponent rest' in
              Returned (percentEncode ((c - 55296) * 1024 + (d - 56320) + 65536) ++ r)
            else Thrown URIError
        | [] => Thrown URIError
        end
      else
        let! r := encodeURIComponent rest in Returned (percentEncode c ++ r)
  end.

(* ===================================================================== *)
(** ** Data model (types.ts)                                              *)
(* ===================================================================== *)

Inductive ResourceType :=
  | PDF | VIDEO | LINK | DOC | IMAGE | PRESENTATION | SPREADSHEET | CODE.

(** The string value of each enum member. *)
Definition ResourceType_value (t : ResourceType) : jsstring :=
  match t with
  | PDF => str "PDF"
  | VIDEO => str "VIDEO"
  | LINK => str "LINK"
  | DOC => str "DOC"
  | IMAGE => str "IMAGE"
  | PRESENTATION => str "PRESENTATION"
  | SPREADSHEET => str "SPREADSHEET"
  | CODE => str "CODE"
  end.

Inductive AcademicLevel := Undergraduate | Graduate | FacultyAdmin.

Definition AcademicLevel_value (l : AcademicLevel) : jsstring :=
  match l with
  | Undergraduate => str "Undergraduate"
  | Graduate => str "Graduate"
  | FacultyAdmin => str "Faculty/Admin"
  end.

Inductive Status := online | offline.

Record Resource := mkResource {
  id : jsstring;
  title : jsstring;
  description : jsstring;
  type : ResourceType;
  department : jsstring;
  subject : jsstring;
  level : AcademicLevel;
  dateAdded : jsstring;
  url : option jsstring;
  external_url : option jsstring;
  tags : list jsstring;
  status : Status;
  relatedResourceIds : option (list jsstring);
  views : Z;
  downloads : Z;
  original_filename : option jsstring
}.

(** [{ ...resource, tags: ts }] *)
Definition with_tags (r : Resource) (ts : list jsstring) : Resource :=
  {| id := id r; title := title r; description := description r;
     type := type r; department := department r; subject := subject r;
     level := level r; dateAdded := dateAdded r; url := url r;
     external_url := external_url r; tags := ts; status := status r;
     relatedResourceIds := relatedResourceIds r; views := views r;
     downloads := downloads r; original_filename := original_filename r |}.

Definition Status_eqb (a b : Status) : bool :=
  match a, b with
  | online, online | offline, offline => true
  | _, _ => false
  end.

Definition ResourceType_eqb (a b : ResourceType) : bool :=
  jsstring_eqb (ResourceType_value a) (ResourceType_value b).

(* ===================================================================== *)
(** ** The [URL] constructor                                              *)
(* ===================================================================== *)

(** The members of a parsed URL that the viewer reads. *)
Record URL := mkURL {
  hostname : jsstring;
  pathname : jsstring;
  searchParams_get : jsstring -> option jsstring
}.

Definition isAsciiAlpha (c : N) : bool :=
  ((65 <=? c) && (c <=? 90)) || ((97 <=? c) && (c <=? 122)).

Definition isSchemeChar (c : N) : bool :=
  isAsciiAlpha c || ((48 <=? c) && (c <=? 57))
  || (c =? 43) || (c =? 45) || (c =? 46).

(** Scheme state of the URL parser: consume scheme characters up to [:]. *)
Fixpoint scan_scheme (s : jsstring) : option (jsstring * jsstring) :=
  match s with
  | [] => None
  | c :: s' =>
      if c =? 58 then Some ([], s')
      else if isSchemeChar c then
        match scan_scheme s' with
        | Some (sch, rest) => Some (c :: sch, rest)
        | None => None
        end
      else None
  end.

Definition toLowerCase_ascii (s : jsstring) : jsstring :=
  map (fun c => if (65 <=? c) && (c <=? 90) then c + 32 else c) s.

Fixpoint skip_slashes (s : jsstring) : jsstring :=
  match s with
  | c :: s' => if (c =? 47) || (c =? 92) then skip_slashes s' else s
  | [] => []
  end.

(** Up to, and from, the first code unit satisfying [stop]. *)
Fixpoint span_until (stop : N -> bool) (s : jsstring) : jsstring * jsstring :=
  match s with
  | [] => ([], [])
  | c :: s' =>
      if stop c then ([], s)
      else let '(a, b) := span_until stop s' in (c :: a, b)
  end.

(** First value of [name] among the [&]-separated [k=v] pairs of a query. *)
Definition query_get (query name : jsstring) : option jsstring :=
  let pairs := List.filter (fun p => negb (jsstring_eqb p [])) (split 38 query) in
  let kv p := span_until (N.eqb 61) p in
  match List.find (fun p => jsstring_eqb (fst (kv p)) name) pairs with
  | Some p => Some (List.tl (snd (kv p)))
  | None => None
  end.

Definition isSpecialScheme (sch : jsstring) : bool :=
  existsb (jsstring_eqb (toLowerCase_ascii sch))
          (map str ["http"; "https"; "ftp"; "ws"; "wss"]%string).

Definition searchParams_of (after : jsstring) : jsstring -> option jsstring :=
  match after with
  | 63 :: q => query_get (fst (span_until (N.eqb 35) q))
  | _ => fun _ => None
  end.

(** Reference instance of [new URL(s)] ([None]: the constructor throws).
    Exact on the inputs used below: a string with no [scheme:] prefix is
    rejected, as the parser does without a base URL; an [http(s)] URL
    [scheme://host/path?query#fragment] whose host is a plain ASCII domain
    (no credentials, port, percent escapes, spaces or dot segments) is split
    into its parts with the host in lower case. A scheme outside the
    special ones is given an empty host and the rest as its path. *)
Definition URL_std (s : jsstring) : option URL :=
  match s with
  | [] => None
  | c :: _ =>
      if isAsciiAlpha c then
        match scan_scheme s with
        | None => None
        | Some (sch, rest) =>
            if isSpecialScheme sch then
              let '(host, after) :=
                span_until (fun c => (c =? 47) || (c =? 92) || (c =? 63) || (c =? 35))
                           (skip_slashes rest) in
              let '(path, after') :=
                span_until (fun c => (c =? 63) || (c =? 35)) after in
              match host with
              | [] => None
              | _ =>
                  Some {| hostname := toLowerCase_ascii host;
                          pathname := match path with [] => [47] | _ => path end;
                          searchParams_get := searchParams_of after' |}
              end
            else
              let '(path, after') :=
                span_until (fun c => (c =? 63) || (c =? 35)) rest in
              Some {| hostname := []; pathname := path;
                      searchParams_get := searchParams_of after' |}
        end
      else None
  end.

(* ===================================================================== *)
(** ** Preview Resolver (resource viewer modal)                           *)
(* ===================================================================== *)

Inductive PreviewKind := Knone | Kiframe | Kimage | Kvideo | Kpdf | Klink.

Record Preview := mkPreview { kind : PreviewKind; preview_url : jsstring }.

(** [/\.(e1|e2|...)$/i] *)
Definition extension_regex (e : string) (es : list string) : regex :=
  Seq (Lit (str ".")) (Seq (alts e es) EndOfInput).

Definition isProbablyOfficeDoc (u : jsstring) : bool :=
  test (extension_regex "doc" ["docx"; "ppt"; "pptx"; "xls"; "xlsx"]%string)
       (split_head 63 u).

Definition isPdf (u : jsstring) : bool :=
  test (extension_regex "pdf" []) (split_head 63 u).

Definition isImage (u : jsstring) : bool :=
  test (extension_regex "png" ["jpg"; "jpeg"; "gif"; "webp"; "svg"]%string)
       (split_head 63 u).

Definition isVideoFile (u : jsstring) : bool :=
  test (extension_regex "mp4" ["webm"; "ogg"; "mov"; "m4v"]%string)
       (split_head 63 u).

(** [^(https?:\/\/)?(www\.)?] *)
Definition scheme_www : regex :=
  Seq (Opt (Seq (Lit (str "http")) (Seq (Opt (Lit (str "s"))) (Lit (str "://")))))
      (Opt (Lit (str "www."))).

Definition isYouTubeUrl (u : jsstring) : bool :=
  test_anchored
    (Seq scheme_www
         (Seq (Alt (Lit (str "youtube.com")) (Lit (str "youtu.be")))
              (Lit (str "/")))) u.

Definition isVimeoUrl (u : jsstring) : bool :=
  test_anchored (Seq scheme_www (Seq (Lit (str "vimeo.com")) (Lit (str "/")))) u.

(** [parts[parts.findIndex(p => p === "d") + 1]], [None] when there is no
    such index or no element behind it. *)
Fixpoint part_after_d (parts : list jsstring) : option jsstring :=
  match parts with
  | [] => None
  | p :: rest =>
      if jsstring_eqb p (str "d") then List.head rest else part_after_d rest
  end.

Definition nonEmpty (s : jsstring) : bool :=
  match s with [] => false | _ :: _ => true end.

Section Viewer.

(** [new URL(s)]; [None] stands for the [TypeError] it throws, which every
    caller below catches. *)
Variable URL_new : jsstring -> option URL.

Definition getYouTubeEmbedUrl (u0 : jsstring) : option jsstring :=
  match URL_new u0 with
  | None => None
  | Some u =>
      if includes (hostname u) (str "youtu.be") then
        let i := replace_first 47 (pathname u) in
        if nonEmpty i then Some (str "https://www.youtube.com/embed/" ++ i)
        else None
      else
        match searchParams_get u (str "v") with
        | Some (c :: i) => Some (str "https://www.youtube.com/embed/" ++ c :: i)
        | _ =>
            if includes (pathname u) (str "/embed/") then Some u0 else None
        end
  end.

Definition getVimeoEmbedUrl (u0 : jsstring) : option jsstring :=
  match URL_new u0 with
  | None => None
  | Some u =>
      match List.filter nonEmpty (split 47 (pathname u)) with
      | i :: _ => Some (str "https://player.vimeo.com/video/" ++ i)
      | [] => None
      end
  end.

Definition getOfficeViewerUrl (fileUrl : jsstring) : completion jsstring :=
  let! e := encodeURIComponent fileUrl in
  Returned (str "https://view.officeapps.live.com/op/embed.aspx?src=" ++ e).

Definition getGoogleDrivePreviewUrl (u0 : jsstring) : option jsstring :=
  match URL_new u0 with
  | None => None
  | Some u =>
      let p := pathname u in
      if includes (hostname u) (str "drive.google.com")
         && includes p (str "/file/d/") then
        match part_after_d (split 47 p) with
        | Some (c :: i) =>
            Some (str "https://drive.google.com/file/d/" ++ (c :: i) ++ str "/preview")
        | _ => None
        end
      else if includes (hostname u) (str "docs.google.com")
              && (includes p (str "/document/d/")
                  || includes p (str "/presentation/d/")
                  || includes p (str "/spreadsheets/d/")) then
        match part_after_d (split 47 p) with
        | Some (c :: i) =>
            let i := c :: i in
            if includes p (str "/document/d/") then
              Some (str "https://docs.google.com/document/d/" ++ i ++ str "/preview")
            else if includes p (str "/presentation/d/") then
              Some (str "https://docs.google.com/presentation/d/" ++ i ++ str "/preview")
            else if includes p (str "/spreadsheets/d/") then
              Some (str "https://docs.google.com/spreadsheets/d/" ++ i ++ str "/preview")
            else None
        | _ => None
        end
      else None
  end.

(** The branches of [getBestPreviewUrl] that look only at the extension. *)
Definition previewByExtension (candidate : jsstring) : completion Preview :=
  if isProbablyOfficeDoc candidate then
    let! v := getOfficeViewerUrl candidate in
    Returned {| kind := Kiframe; preview_url := v |}
  else if isPdf candidate then
    Returned {| kind := Kpdf; preview_url := candidate |}
  else if isImage candidate then
    Returned {| kind := Kimage; preview_url := candidate |}
  else if isVideoFile candidate then
    Returned {| kind := Kvideo; preview_url := candidate |}
  else
    Returned {| kind := Klink; preview_url := candidate |}.

Definition previewCandidate (r : Resource) : jsstring :=
  let primary := trim (or_empty (url r)) in
  let external := trim (or_empty (external_url r)) in
  if nonEmpty primary then primary else external.

Definition getBestPreviewUrl (r : Resource) : completion Preview :=
  let candidate := previewCandidate r in
  if negb (nonEmpty candidate) then
    Returned {| kind := Knone; preview_url := [] |}
  else
    match (if isYouTubeUrl candidate then getYouTubeEmbedUrl candidate
           else None) with
    | Some (c :: e) => Returned {| kind := Kiframe; preview_url := c :: e |}
    | _ =>
        match (if isVimeoUrl candidate then getVimeoEmbedUrl candidate
               else None) with
        | Some (c :: e) => Returned {| kind := Kiframe; preview_url := c :: e |}
        | _ =>
            match getGoogleDrivePreviewUrl candidate with
            | Some (c :: g) =>
                Returned {| kind := Kiframe; preview_url := c :: g |}
            | _ => previewByExtension candidate
            end
        end
    end.

End Viewer.

(* ===================================================================== *)
(** ** [Array.prototype.sort], [Set], [Map]                               *)
(* ===================================================================== *)

(** [arr.sort(cmp)] is stable: an element moves behind another only when
    the comparator says it is greater. *)
Fixpoint sort_insert {A} (cmp : A -> A -> Z) (x : A) (l : list A) : list A :=
  match l with
  | [] => [x]
  | y :: l' => if (0 <? cmp x y)%Z then y :: sort_insert cmp x l' else x :: l
  end.

Definition Array_sort {A} (cmp : A -> A -> Z) (l : list A) : list A :=
  fold_right (sort_insert cmp) [] l.

(** The default comparator on strings: code-unit lexicographic order. *)
Fixpoint String_compare (a b : jsstring) : Z :=
  match a, b with
  | [], [] => 0
  | [], _ :: _ => -1
  | _ :: _, [] => 1
  | x :: a', y :: b' =>
      if x <? y then -1 else if y <? x then 1 else String_compare a' b'
  end.

(** [Array.from(new Set(l))]: the first occurrence of each element, in
    insertion order. *)
Fixpoint Set_from (seen l : list jsstring) : list jsstring :=
  match l with
  | [] => []
  | x :: l' =>
      if Array_includes seen x then Set_from seen l'
      else x :: Set_from (x :: seen) l'
  end.

(** [new Map(rs.map(r => [r.id, r]))]: a later entry replaces an earlier
    one with the same key. *)
Definition Map_by_id (rs : list Resource) : gmap jsstring Resource :=
  fold_left (fun m r => <[id r := r]> m) rs ∅.

(* ===================================================================== *)
(** ** Filter Engine and popular ranking (App.tsx)                        *)
(* ===================================================================== *)

Record FilterState := mkFilterState {
  searchTerm : jsstring;
  activeFilter : jsstring;
  selectedSubjects : list jsstring;
  selectedLevel : jsstring
}.

Definition All : jsstring := str "All".

Section FilterEngine.

(** [String.prototype.toLowerCase] *)
Variable toLowerCase : jsstring -> jsstring.

Definition matchesFilter (f : FilterState) (res : Resource) : bool :=
  if negb (Status_eqb (status res) online) then false
  else
    let matchesSearch :=
      includes (toLowerCase (title res)) (toLowerCase (searchTerm f))
      || includes (toLowerCase (description res)) (toLowerCase (searchTerm f))
      || existsb (fun t => includes (toLowerCase t) (toLowerCase (searchTerm f)))
                 (tags res) in
    let matchesType :=
      jsstring_eqb (activeFilter f) All
      || jsstring_eqb (ResourceType_value (type res)) (activeFilter f) in
    let matchesSubject :=
      (length (selectedSubjects f) =? 0)%nat
      || Array_includes (selectedSubjects f) (subject res) in
    let matchesLevel :=
      jsstring_eqb (selectedLevel f) All
      || jsstring_eqb (AcademicLevel_value (level res)) (selectedLevel f) in
    matchesSearch && matchesType && matchesSubject && matchesLevel.

Definition filteredResources (resources : list Resource) (f : FilterState)
  : list Resource :=
  List.filter (matchesFilter f) resources.

End FilterEngine.

Definition isPopular (r : Resource) : bool :=
  Status_eqb (status r) online && (0 <? views r)%Z.

Definition byViewsDesc (a b : Resource) : Z := (views b - views a)%Z.

Definition popularResources (resources : list Resource) : list Resource :=
  firstn 4 (Array_sort byViewsDesc (List.filter isPopular resources)).

Definition isDefaultView (f : FilterState) : bool :=
  negb (nonEmpty (searchTerm f))
  && jsstring_eqb (activeFilter f) All
  && (length (selectedSubjects f) =? 0)%nat
  && jsstring_eqb (selectedLevel f) All.

(** What one render of the dashboard computes from the catalog and the
    filter state before it builds the page (lines 463-486): the three
    constants are bound on every such render. *)
Record DashboardBindings := mkDashboardBindings {
  bound_filteredResources : list Resource;
  bound_popularResources : list Resource;
  bound_isDefaultView : bool
}.

Definition dashboardBindings (toLowerCase : jsstring -> jsstring)
  (resources : list Resource) (f : FilterState) : DashboardBindings :=
  {| bound_filteredResources := filteredResources toLowerCase resources f;
     bound_popularResources := popularResources resources;
     bound_isDefaultView := isDefaultView f |}.

(** The "Most Popular Resources" block of the dashboard: the cards it
    renders, [None] when the block is not rendered. *)
Definition popularSection (resources : list Resource) (f : FilterState)
  : option (list Resource) :=
  if isDefaultView f && (0 <? length (popularResources resources))%nat
  then Some (popularResources resources)
  else None.

(* ===================================================================== *)
(** ** Tag Registry (AdminConsole.tsx)                                    *)
(* ===================================================================== *)

Definition rawTags (resources : list Resource) : list jsstring :=
  fold_left (fun acc r => acc ++ tags r) resources [].

Definition uniqueTags (resources : list Resource) : list jsstring :=
  Array_sort String_compare (Set_from [] (rawTags resources)).

(** What a property of the [tagCounts] object can hold at run time: a
    number, or the text that [+ 1] produces from a non-number. *)
Inductive CountValue := Vnumber (n : N) | Vtext.

(** Properties every object literal inherits from [Object.prototype]. *)
Definition Object_prototype_keys : list jsstring :=
  map str ["constructor"; "__defineGetter__"; "__defineSetter__";
           "hasOwnProperty"; "__lookupGetter__"; "__lookupSetter__";
           "isPrototypeOf"; "propertyIsEnumerable"; "toString"; "valueOf";
           "__proto__"; "toLocaleString"]%string.

(** [acc[tag] = (acc[tag] || 0) + 1] on an object created by [{}]: the read
    falls back to the inherited member, and a write to [__proto__] with a
    primitive does nothing. *)
Definition tagCounts_step (acc : gmap jsstring CountValue) (tag : jsstring)
  : gmap jsstring CountValue :=
  match acc !! tag with
  | Some (Vnumber n) => <[tag := Vnumber (n + 1)]> acc
  | Some Vtext => <[tag := Vtext]> acc
  | None =>
      if jsstring_eqb tag (str "__proto__") then acc
      else if Array_includes Object_prototype_keys tag then <[tag := Vtext]> acc
      else <[tag := Vnumber 1]> acc
  end.

Definition tagCounts (resources : list Resource) : gmap jsstring CountValue :=
  fold_left tagCounts_step (rawTags resources) ∅.

Inductive Notification :=
  | TagRenamed (oldTag newTag : jsstring) (n : nat)
  | TagDeleted (tag : jsstring) (n : nat).

(** The state the tag handlers read and write: the catalog held by [App],
    the console's own state, and the calls made to [onBatchUpdate]. *)
Record Console := mkConsole {
  resources : list Resource;
  editingTag : option (jsstring * jsstring);
  tagDeleteConfirm : option jsstring;
  notification : option Notification;
  batchUpdates : list (list Resource)
}.

(** [handleBatchUpdateResources] of App.tsx. *)
Definition handleBatchUpdateResources (updatedResources prev : list Resource)
  : list Resource :=
  let updateMap := Map_by_id updatedResources in
  map (fun r => match updateMap !! id r with Some u => u | None => r end) prev.

Definition onBatchUpdate (updates : list Resource) (c : Console) : Console :=
  {| resources := handleBatchUpdateResources updates (resources c);
     editingTag := editingTag c;
     tagDeleteConfirm := tagDeleteConfirm c;
     notification := notification c;
     batchUpdates := batchUpdates c ++ [updates] |}.

Definition renameUpdates (oldTagName newTagName : jsstring)
  (rs : list Resource) : list Resource :=
  flat_map (fun resource =>
    if Array_includes (tags resource) oldTagName then
      let updatedTags :=
        map (fun t => if jsstring_eqb t oldTagName then newTagName else t)
            (tags resource) in
      [with_tags resource (Set_from [] updatedTags)]
    else []) rs.

Definition handleRenameTag (c : Console) : Console :=
  match editingTag c with
  | Some (original, current) =>
      if negb (nonEmpty (trim current)) || jsstring_eqb current original then
        {| resources := resources c; editingTag := None;
           tagDeleteConfirm := tagDeleteConfirm c;
           notification := notification c; batchUpdates := batchUpdates c |}
      else
        let newTagName := trim current in
        let oldTagName := original in
        let updates := renameUpdates oldTagName newTagName (resources c) in
        let c1 := if (0 <? length updates)%nat then onBatchUpdate updates c else c in
        {| resources := resources c1; editingTag := None;
           tagDeleteConfirm := tagDeleteConfirm c1;
           notification := Some (TagRenamed oldTagName newTagName (length updates));
           batchUpdates := batchUpdates c1 |}
  | None =>
      {| resources := resources c; editingTag := None;
         tagDeleteConfirm := tagDeleteConfirm c;
         notification := notification c; batchUpdates := batchUpdates c |}
  end.

Definition deleteUpdates (tagToDelete : jsstring) (rs : list Resource)
  : list Resource :=
  flat_map (fun resource =>
    if Array_includes (tags resource) tagToDelete then
      [with_tags resource
         (List.filter (fun t => negb (jsstring_eqb t tagToDelete)) (tags resource))]
    else []) rs.

Definition handleDeleteTag (tagToDelete : jsstring) (c : Console) : Console :=
  let updates := deleteUpdates tagToDelete (resources c) in
  let c1 := if (0 <? length updates)%nat then onBatchUpdate updates c else c in
  {| resources := resources c1; editingTag := editingTag c1;
     tagDeleteConfirm := None;
     notification := Some (TagDeleted tagToDelete (length updates));
     batchUpdates := batchUpdates c1 |}.

(* ===================================================================== *)
(** ** Admin Form Controller (AdminConsole.tsx)                           *)
(* ===================================================================== *)

Record File := mkFile { file_name : jsstring }.

Record Form := mkForm {
  form_type : ResourceType;
  form_url : jsstring;
  selectedFile : option File;
  editingResourceId : option jsstring
}.

Definition requiresUrlOnly (t : ResourceType) : bool := ResourceType_eqb t LINK.

Definition allowsUploadOrLink (t : ResourceType) : bool :=
  ResourceType_eqb t VIDEO || ResourceType_eqb t DOC
  || ResourceType_eqb t PRESENTATION.

Definition canUploadFile (t : ResourceType) : bool :=
  ResourceType_eqb t PDF || allowsUploadOrLink t.

Definition showsPrimaryUrlField (t : ResourceType) : bool :=
  ResourceType_eqb t LINK || allowsUploadOrLink t.

(** The [accept] attribute chosen for each type by [getAcceptString]. *)
Definition getAcceptString (t : ResourceType) : jsstring :=
  match t with
  | PDF => str ".pdf"
  | IMAGE => str "image/*"
  | VIDEO => str "video/*"
  | DOC => str ".doc,.docx,.txt"
  | PRESENTATION => str ".ppt,.pptx,.key,.pdf"
  | SPREADSHEET => str ".xls,.xlsx,.csv"
  | CODE => str ".js,.py,.cpp,.java,.html,.css,.ts,.sql"
  | LINK => str "*/*"
  end.

Definition isSome {A} (o : option A) : bool :=
  match o with Some _ => true | None => false end.

(** The [disabled] attribute of the submit button. *)
Definition submitDisabled (f : Form) : bool :=
  let hasUrl := nonEmpty (trim (form_url f)) in
  if ResourceType_eqb (form_type f) LINK then negb hasUrl
  else if allowsUploadOrLink (form_type f) then
    negb (isSome (selectedFile f)) && negb hasUrl
    && negb (truthy (editingResourceId f))
  else
    negb (isSome (selectedFile f)) && negb (truthy (editingResourceId f)).

(** The type buttons of the form: choosing a type clears the attached file
    and, for a non-LINK type, the primary URL. *)
Definition selectType (t : ResourceType) (f : Form) : Form :=
  {| form_type := t;
     form_url := if ResourceType_eqb t LINK then form_url f else [];
     selectedFile := None;
     editingResourceId := editingResourceId f |}.

(** [handleFileChange], reachable only through the file input that is
    rendered when [canUploadFile] holds. *)
Definition attachFile (file : File) (f : Form) : Form :=
  if canUploadFile (form_type f) then
    {| form_type := form_type f; form_url := form_url f;
       selectedFile := Some file; editingResourceId := editingResourceId f |}
  else f.

(* ===================================================================== *)
(** ** Catalog handlers (App.tsx)                                         *)
(* ===================================================================== *)

(** [{ ...r, views: v }] and [{ ...r, downloads: d }] *)
Definition with_views (r : Resource) (v : Z) : Resource :=
  {| id := id r; title := title r; description := description r;
     type := type r; department := department r; subject := subject r;
     level := level r; dateAdded := dateAdded r; url := url r;
     external_url := external_url r; tags := tags r; status := status r;
     relatedResourceIds := relatedResourceIds r; views := v;
     downloads := downloads r; original_filename := original_filename r |}.

Definition with_downloads (r : Resource) (d : Z) : Resource :=
  {| id := id r; title := title r; description := description r;
     type := type r; department := department r; subject := subject r;
     level := level r; dateAdded := dateAdded r; url := url r;
     external_url := external_url r; tags := tags r; status := status r;
     relatedResourceIds := relatedResourceIds r; views := views r;
     downloads := d; original_filename := original_filename r |}.

(** [handleUpload]: the counters of the new resource are reset and it is
    put in front of the catalog. *)
Definition handleUpload (newResource : Resource) (prev : list Resource)
  : list Resource :=
  with_downloads (with_views newResource 0) 0 :: prev.

Definition handleUpdateResource (updatedResource : Resource)
  (prev : list Resource) : list Resource :=
  map (fun r => if jsstring_eqb (id r) (id updatedResource)
                then updatedResource else r) prev.

(** The counters are Numbers (IEEE 754 doubles) that hold integers, kept
    here as those integers. [roundNumber z] is the Number nearest to the
    integer [z], ties going to the even significand: what [+] returns
    when the exact sum is [z]. Every integer up to 2^53 in magnitude is a
    Number; beyond that only the multiples of the spacing [2^e] are. (A sum
    of a Number and 1 never leaves the finite range.) *)
Definition roundNumber (z : Z) : Z :=
  let a := Z.abs z in
  if (a <=? 2 ^ 53)%Z then z
  else
    let e := (Z.log2 a - 52)%Z in
    let q := Z.shiftr a e in
    let r := (a - Z.shiftl q e)%Z in
    let half := Z.shiftl 1 (e - 1) in
    let q' := if (r <? half)%Z then q
              else if (half <? r)%Z then (q + 1)%Z
              else if Z.even q then q else (q + 1)%Z in
    (Z.sgn z * Z.shiftl q' e)%Z.

(** [(n || 0) + 1] *)
Definition Number_succ (n : Z) : Z := roundNumber (n + 1).

Definition handleIncrementView (i : jsstring) (prev : list Resource)
  : list Resource :=
  map (fun r => if jsstring_eqb (id r) i
                then with_views r (Number_succ (views r)) else r)
      prev.

Definition handleIncrementDownload (i : jsstring) (prev : list Resource)
  : list Resource :=
  map (fun r => if jsstring_eqb (id r) i
                then with_downloads r (Number_succ (downloads r)) else r)
      prev.

(** A [Set<string>] as the list of its members in insertion order. *)
Definition Set_has (s : list jsstring) (x : jsstring) : bool :=
  Array_includes s x.


Definition Set_delete (s : list jsstring) (x : jsstring) : list jsstring :=
  List.filter (fun y => negb (jsstring_eqb y x)) s.

(** The catalog together with the bookmarked ids ([selectedResourceIds]). *)
Record Library := mkLibrary {
  catalog : list Resource;
  bookmarks : list jsstring
}.

(** [handleDeleteResource]. The catalog is changed by a functional update,
    which is applied to the catalog as it is when the handler runs. The
    bookmarks are not: [selectedResourceIds] is the set of the render that
    created the handler, and the new set is built from that one. The
    console calls the handler after it has awaited the backend, so the two
    may differ. *)
Definition handleDeleteResource (selectedResourceIds : list jsstring)
  (i : jsstring) (l : Library) : Library :=
  {| catalog := List.filter (fun r => negb (jsstring_eqb (id r) i)) (catalog l);
     bookmarks := if Set_has selectedResourceIds i
                  then Set_delete selectedResourceIds i else bookmarks l |}.





(** The update of [recentResourceIds] in [handleResourceClick]. *)
Definition pushRecent (i : jsstring) (prev : list jsstring) : list jsstring :=
  firstn 5 (i :: List.filter (fun j => negb (jsstring_eqb j i)) prev).

(** [toggleSubjectFilter] *)
Definition toggleSubjectFilter (s : jsstring) (prev : list jsstring)
  : list jsstring :=
  if Array_includes prev s
  then List.filter (fun x => negb (jsstring_eqb x s)) prev
  else prev ++ [s].

Definition with_subjects (f : FilterState) (ss : list jsstring) : FilterState :=
  {| searchTerm := searchTerm f; activeFilter := activeFilter f;
     selectedSubjects := ss; selectedLevel := selectedLevel f |}.

(** The condition under which the empty-result panel offers "Clear all
    filters", and what the button does. *)
Definition offersClearFilters (f : FilterState) (resources : list Resource)
  : bool :=
  (nonEmpty (searchTerm f)
   || negb (jsstring_eqb (activeFilter f) All)
   || (0 <? length (selectedSubjects f))%nat
   || negb (jsstring_eqb (selectedLevel f) All))
  && (0 <? length resources)%nat.

Definition clearAllFilters (f : FilterState) : FilterState :=
  {| searchTerm := []; activeFilter := All; selectedSubjects := [];
     selectedLevel := All |}.

(** The magnifier: [isMagnifierActive] and [zoomLevel]. *)
Record Magnifier := mkMagnifier {
  isMagnifierActive : bool;
  zoomLevel : Z
}.

Record KeyEvent := mkKeyEvent {
  metaKey : bool;
  ctrlKey : bool;
  key : jsstring
}.

Definition initialMagnifier : Magnifier :=
  {| isMagnifierActive := false; zoomLevel := 100 |}.

Definition handleKeyDown (e : KeyEvent) (m : Magnifier) : Magnifier :=
  if (metaKey e || ctrlKey e) && jsstring_eqb (key e) (str "k") then m
  else if negb (isMagnifierActive m) then m
  else if jsstring_eqb (key e) (str "ArrowUp")
          || jsstring_eqb (key e) (str "ArrowRight") then
    {| isMagnifierActive := true; zoomLevel := Z.min (zoomLevel m + 10) 150 |}
  else if jsstring_eqb (key e) (str "ArrowDown")
          || jsstring_eqb (key e) (str "ArrowLeft") then
    {| isMagnifierActive := true; zoomLevel := Z.max (zoomLevel m - 10) 80 |}
  else if jsstring_eqb (key e) (str "Escape") then
    {| isMagnifierActive := false; zoomLevel := 100 |}
  else m.

(** The magnifier switch of the accessibility panel. *)
Definition toggleMagnifier (m : Magnifier) : Magnifier :=
  {| isMagnifierActive := negb (isMagnifierActive m); zoomLevel := zoomLevel m |}.

Inductive MagnifierInput :=
  | KeyDown (e : KeyEvent)
  | Switch.

Definition magnifier_step (m : Magnifier) (i : MagnifierInput) : Magnifier :=
  match i with
  | KeyDown e => handleKeyDown e m
  | Switch => toggleMagnifier m
  end.

(* ===================================================================== *)
(** ** Admin console: tags field, upload name, submit, statistics         *)
(* ===================================================================== *)

(** [arr.join(sep)] *)
Fixpoint join (sep : jsstring) (arr : list jsstring) : jsstring :=
  match arr with
  | [] => []
  | [x] => x
  | x :: rest => x ++ sep ++ join sep rest
  end.

(** [tags.split(",").map(t => t.trim()).filter(t => t.length > 0)] *)
Definition processedTags (tagsField : jsstring) : list jsstring :=
  List.filter nonEmpty (map trim (split 44 tagsField)).

(** The [tags] of the payload of [handleSubmit]. *)
Definition payloadTags (tagsField : jsstring) : list jsstring :=
  if (0 <? length (processedTags tagsField))%nat
  then processedTags tagsField else [str "uncategorized"].

(** The [tags] field that [handleEditClick] puts in the form. *)
Definition editTagsField (r : Resource) : jsstring := join (str ", ") (tags r).

(** [handleAddTag] on the tags field. *)
Definition handleAddTag (tag tagsField : jsstring) : jsstring :=
  if negb (nonEmpty tag) then tagsField
  else if Array_includes (processedTags tagsField) tag then tagsField
  else if nonEmpty tagsField then tagsField ++ str ", " ++ tag else tag.

(** [handleRelatedToggle] on [relatedIds]. *)
Definition handleRelatedToggle (i : jsstring) (relatedIds : list jsstring)
  : list jsstring :=
  if Array_includes relatedIds i
  then List.filter (fun rid => negb (jsstring_eqb rid i)) relatedIds
  else relatedIds ++ [i].

(** [\w], [.] and [-]: the characters [sanitizeFileName] keeps. *)
Definition isFileNameChar (c : N) : bool :=
  isAsciiAlpha c || ((48 <=? c) && (c <=? 57)) || (c =? 95)
  || (c =? 46) || (c =? 45).

(** [name.replace(/[^\w.\-]+/g, "_")]: [inRun] tells that the run of
    rejected characters being read has already been replaced. *)
Fixpoint sanitize_from (inRun : bool) (name : jsstring) : jsstring :=
  match name with
  | [] => []
  | c :: rest =>
      if isFileNameChar c then c :: sanitize_from false rest
      else if inRun then sanitize_from true rest
      else 95 :: sanitize_from true rest
  end.

Definition sanitizeFileName (name : jsstring) : jsstring :=
  sanitize_from false name.

(** The outcome of a step of [handleSubmit] that may end in the [catch]
    block with a message. *)
Inductive attempt (A : Type) :=
  | Done (a : A)
  | Failed (message : jsstring).
Arguments Done {A} a.
Arguments Failed {A} message.

Definition existingResource (resources : list Resource) (f : Form)
  : option Resource :=
  match editingResourceId f with
  | Some (c :: i) => List.find (fun r => jsstring_eqb (id r) (c :: i)) resources
  | _ => None
  end.

Section Submit.

(** [uploadToSupabasePublic]: the public URL of the stored file, or the
    message of the error it throws. *)
Variable uploadToSupabasePublic : File -> attempt jsstring.

(** Step 1 of [handleSubmit]: the [url] to save. *)
Definition urlToSave (resources : list Resource) (f : Form)
  : attempt (option jsstring) :=
  if ResourceType_eqb (form_type f) LINK then
    Done (if nonEmpty (trim (form_url f)) then Some (trim (form_url f)) else None)
  else
    match selectedFile f with
    | Some file =>
        match uploadToSupabasePublic file with
        | Done u => Done (Some u)
        | Failed m => Failed m
        end
    | None =>
        if nonEmpty (trim (form_url f)) then Done (Some (trim (form_url f)))
        else
          match existingResource resources f with
          | Some r =>
              if truthy (url r) then Done (url r)
              else Failed (str "Please upload a file or provide a link.")
          | None => Failed (str "Please upload a file or provide a link.")
          end
    end.

End Submit.

(** [originalFilename] of [handleSubmit]. *)
Definition originalFilename (resources : list Resource) (f : Form)
  : option jsstring :=
  match selectedFile f with
  | Some file => Some (file_name file)
  | None =>
      if truthy (editingResourceId f) then
        match existingResource resources f with
        | Some r => original_filename r
        | None => None
        end
      else None
  end.

(** [typeDistribution]: the slices of the type chart. *)
Definition typeDistribution (resources : list Resource) : list (jsstring * nat) :=
  List.filter (fun d => (0 <? snd d)%nat)
    (map (fun '(name, t) =>
            (str name,
             length (List.filter (fun r => ResourceType_eqb (type r) t) resources)))
         [("PDF", PDF); ("Video", VIDEO); ("Link", LINK); ("Doc", DOC);
          ("Image", IMAGE); ("Slides", PRESENTATION); ("Code", CODE);
          ("Sheet", SPREADSHEET)]%string).

(** [t.length > 20 ? t.substring(0, 20) + '...' : t] *)
Definition chartName (t : jsstring) : jsstring :=
  if (20 <? length t)%nat then firstn 20 t ++ str "..." else t.

(** [topViewed]: the five leading resources. *)
Definition topViewed (resources : list Resource) : list (jsstring * Z) :=
  map (fun r => (chartName (title r), views r))
      (firstn 5 (Array_sort byViewsDesc resources)).

(* ===================================================================== *)
(** ** Resource viewer: download, related resources, content              *)
(* ===================================================================== *)

Definition isAsciiAlnum (c : N) : bool :=
  isAsciiAlpha c || ((48 <=? c) && (c <=? 57)).

(** [title.replace(/[^a-z0-9]/gi, "_").toLowerCase()]. Without the [u]
    flag no code unit above 127 matches [[a-z0-9]] case-insensitively, so
    the replacement leaves ASCII letters, digits and [_], on which
    [toLowerCase] is the ASCII mapping. *)
Definition safeTitle (t : jsstring) : jsstring :=
  toLowerCase_ascii (map (fun c => if isAsciiAlnum c then c else 95) t).

(** The [download] attribute chosen by [handleDownload]. *)
Definition preferredFilename (r : Resource) : jsstring :=
  match original_filename r with
  | Some n => if (0 <? length (trim n))%nat then trim n else safeTitle (title r)
  | None => safeTitle (title r)
  end.

Inductive DownloadOutcome :=
  | NoFileUrl
  | OpenedLink (u : jsstring)
  | DownloadStarted (u filename : jsstring)
  | OpenedFallback (u : jsstring).

(** [handleDownload]; [fetched] tells whether fetching the file succeeded.
    The first component is the id passed to [onDownload]. *)
Definition handleDownload (fetched : bool) (r : Resource)
  : jsstring * DownloadOutcome :=
  (id r,
   match url r with
   | Some (c :: u) =>
       if ResourceType_eqb (type r) LINK then OpenedLink (c :: u)
       else if fetched then DownloadStarted (c :: u) (preferredFilename r)
       else OpenedFallback (c :: u)
   | _ => NoFileUrl
   end).

(** [allResources.filter(r => resource.relatedResourceIds?.includes(r.id))] *)
Definition relatedResources (allResources : list Resource) (r : Resource)
  : list Resource :=
  List.filter (fun x => match relatedResourceIds r with
                        | Some ids => Array_includes ids (id x)
                        | None => false
                        end) allResources.

(** What [renderContent] puts on screen. *)
Inductive Content :=
  | VideoPlayer (src : jsstring)
  | Frame (src : jsstring)
  | Picture (src : jsstring)
  | NoImageUrl
  | ExternalLink (href : jsstring)
  | CodeSample
  | NoPdfUrl
  | PreviewUnavailable.

Section Render.

Variable URL_new : jsstring -> option URL.

(** [renderContent] before any load error of an image or a PDF frame. *)
Definition renderContent (r : Resource) : completion Content :=
  match type r with
  | VIDEO =>
      let! preview := getBestPreviewUrl URL_new r in
      Returned (match kind preview with
                | Kvideo => VideoPlayer (preview_url preview)
                | Kiframe => Frame (preview_url preview)
                | _ => PreviewUnavailable
                end)
  | IMAGE =>
      let! preview := getBestPreviewUrl URL_new r in
      Returned (match kind preview with
                | Kimage => Picture (preview_url preview)
                | _ => match url r with
                       | Some (c :: u) => Picture (c :: u)
                       | _ => NoImageUrl
                       end
                end)
  | LINK =>
      Returned (ExternalLink (match url r with
                              | Some (c :: u) => c :: u
                              | _ => str "#"
                              end))
  | CODE => Returned CodeSample
  | PRESENTATION | SPREADSHEET | DOC =>
      let! preview := getBestPreviewUrl URL_new r in
      Returned (match kind preview with
                | Kiframe => Frame (preview_url preview)
                | _ => PreviewUnavailable
                end)
  | PDF =>
      Returned (match url r with
                | Some (c :: u) => Frame (c :: u)
                | _ => NoPdfUrl
                end)
  end.

End Render.

(* ===================================================================== *)
(** ** Vocabulary of the properties                                       *)
(* ===================================================================== *)

(** The order a comparator induces: [a] may stand before [b]. *)
Definition cmp_le {A} (cmp : A -> A -> Z) (a b : A) : Prop := (cmp a b <= 0)%Z.

Definition viewsAtLeast (a b : Resource) : Prop := (views b <= views a)%Z.

Definition hasTag (tag : jsstring) (r : Resource) : bool :=
  Array_includes (tags r) tag.

Definition withoutTag (tag : jsstring) (ts : list jsstring) : list jsstring :=
  List.filter (fun t => negb (jsstring_eqb t tag)) ts.

Definition renamed (oldTag newTag : jsstring) (ts : list jsstring)
  : list jsstring :=
  Set_from [] (map (fun t => if jsstring_eqb t oldTag then newTag else t) ts).

(** A tag operation in general: which resources it touches and what it
    makes of their tag lists. *)
Definition tagUpdates (touched : Resource -> bool)
  (newTags : Resource -> list jsstring) (rs : list Resource) : list Resource :=
  flat_map (fun r => if touched r then [with_tags r (newTags r)] else []) rs.

(** Code-unit lexicographic order, strict. *)
Definition codeUnitLt (a b : jsstring) : Prop := (String_compare a b < 0)%Z.

Definition ordinaryTag (t : jsstring) : Prop :=
  Array_includes Object_prototype_keys t = false.

Definition countEntry (n : N) : option CountValue :=
  if n =? 0 then None else Some (Vnumber n).

(** [String.prototype.isWellFormed]: no lone surrogate. *)
Fixpoint isWellFormed (s : jsstring) : bool :=
  match s with
  | [] => true
  | c :: rest =>
      if isLowSurrogate c then false
      else if isHighSurrogate c then
        match rest with
        | d :: rest' => isLowSurrogate d && isWellFormed rest'
        | [] => false
        end
      else isWellFormed rest
  end.

Definition youTubeEmbed (i : jsstring) : jsstring :=
  str "https://www.youtube.com/embed/" ++ i.

(** ** Sample data used by the concrete examples *)

Definition sample (i : string) (t : ResourceType) (u : string)
  (ts : list string) (st : Status) (v : Z) : Resource :=
  {| id := str i; title := str "Title " ++ str i; description := str "About";
     type := t; department := str "CS"; subject := str "Computer Science";
     level := Undergraduate; dateAdded := str "2024-01-01";
     url := Some (str u); external_url := None; tags := map str ts;
     status := st; relatedResourceIds := None; views := v; downloads := 0%Z;
     original_filename := None |}.
Arguments sample i%_string t u%_string ts st v%_Z.

Definition with_url (u : jsstring) : Resource :=
  {| id := str "r"; title := str "T"; description := str "D"; type := DOC;
     department := []; subject := []; level := Undergraduate; dateAdded := [];
     url := Some u; external_url := None; tags := []; status := online;
     relatedResourceIds := None; views := 0%Z; downloads := 0%Z;
     original_filename := None |}.

Definition defaultView : FilterState :=
  {| searchTerm := []; activeFilter := All; selectedSubjects := [];
     selectedLevel := All |}.

(** A view that is not the default one: a search for "ai". *)
Definition searchView : FilterState :=
  {| searchTerm := str "ai"; activeFilter := All; selectedSubjects := [];
     selectedLevel := All |}.

Definition catalog4 : list Resource :=
  [ sample "1" PDF "https://h.edu/a.pdf" ["exam-prep"; "ai"]%string online 5;
    sample "2" DOC "https://h.edu/b.docx" ["exam-prep"; "exam"]%string offline 9;
    sample "3" LINK "https://example.edu" ["exam-prep"]%string online 0;
    sample "4" VIDEO "https://youtu.be/abc123" ["video"]%string online 5 ].

Definition renameScenario : Console :=
  {| resources := catalog4;
     editingTag := Some (str "exam-prep", str "exam");
     tagDeleteConfirm := None; notification := None; batchUpdates := [] |}.

(** The tag "exam-prep" edited to " exam-prep", with a space in front. *)
Definition renamePadded (rs : list Resource) : Console :=
  {| resources := rs;
     editingTag := Some (str "exam-prep", str " exam-prep");
     tagDeleteConfirm := None; notification := None; batchUpdates := [] |}.

(* ===================================================================== *)
(** ** Further models and vocabulary                                      *)
(* ===================================================================== *)




Definition totalViews (rs : list Resource) : Z :=
  fold_right (fun r acc => (views r + acc)%Z) 0%Z rs.

Definition zoomInRange (m : Magnifier) : Prop :=
  (80 <= zoomLevel m <= 150)%Z /\ (zoomLevel m mod 10 = 0)%Z.

Definition startsClean (s : jsstring) : Prop :=
  match s with
  | [] => True
  | c :: _ => isWhiteSpace c = false
  end.

(** A tag as the form stores it: not empty, no comma, no white space at
    either end. *)
Definition cleanTag (t : jsstring) : Prop :=
  t <> [] /\ ~ In 44 t /\ trim t = t.

Definition uploadOrLinkMessage : jsstring :=
  str "Please upload a file or provide a link.".

Definition noUpload (file : File) : attempt jsstring :=
  Failed (str "upload failed").

Definition countOfType (t : ResourceType) (rs : list Resource) : nat :=
  length (List.filter (fun r => ResourceType_eqb (type r) t) rs).

(** What [handleResourceClick] changes: the catalog, the resource handed to
    the viewer and the recently viewed ids. *)
Record Dashboard := mkDashboard {
  shown : list Resource;
  selectedResource : option Resource;
  recentResourceIds : list jsstring
}.

Definition handleResourceClick (r : Resource) (d : Dashboard) : Dashboard :=
  {| shown := handleIncrementView (id r) (shown d);
     selectedResource := Some r;
     recentResourceIds := pushRecent (id r) (recentResourceIds d) |}.

(** The [onDownload] callback that [App] passes to the viewer, run by
    [handleDownload] before anything else. *)
Definition downloadClick (fetched : bool) (r : Resource) (rs : list Resource)
  : list Resource * DownloadOutcome :=
  let '(i, outcome) := handleDownload fetched r in
  (handleIncrementDownload i rs, outcome).

Definition isSafeTitleChar (c : N) : bool :=
  ((97 <=? c) && (c <=? 122)) || ((48 <=? c) && (c <=? 57)) || (c =? 95).

Definition blankName (o : option jsstring) : Prop :=
  match o with
  | Some n => trim n = []
  | None => True
  end.

Definition googleDrivePreview (i : jsstring) : jsstring :=
  str "https://drive.google.com/file/d/" ++ i ++ str "/preview".

Definition googleDocsPreview (app i : jsstring) : jsstring :=
  str "https://docs.google.com/" ++ app ++ str "/d/" ++ i ++ str "/preview".

Definition toUpperCase_ascii (s : jsstring) : jsstring := map canonicalize s.

Definition uriSafe (c : N) : bool := uriUnreserved c || (c =? 37).

Definition isCodeUnit (c : N) : Prop := c < 65536.

(** [handleEditClick] on the part of the form that decides the URL: the
    attached file is not touched. *)
Definition handleEditClick (r : Resource) (f : Form) : Form :=
  {| form_type := type r; form_url := or_empty (url r);
     selectedFile := selectedFile f; editingResourceId := Some (id r) |}.

(* ===================================================================== *)
(** * Properties                                                          *)
(* ===================================================================== *)


(** ** Builtins: sanity checks *)

Example encodeURIComponent_ex1 :
  encodeURIComponent (str "https://a.b/x y.docx")
  = Returned (str "https%3A%2F%2Fa.b%2Fx%20y.docx").
Proof. vm_compute. reflexivity. Qed.

Example encodeURIComponent_ex2 :
  encodeURIComponent [233; 8364; 55357; 56832]
  = Returned (str "%C3%A9%E2%82%AC%F0%9F%98%80").
Proof. vm_compute. reflexivity. Qed.

Example trim_ex : trim (str "  a b ") = str "a b".
Proof. reflexivity. Qed.

Example split_ex :
  split 47 (str "/file/d/XYZ/view") = map str [""; "file"; "d"; "XYZ"; "view"]%string.
Proof. reflexivity. Qed.

Example isYouTubeUrl_ex :
  map isYouTubeUrl
      [str "https://youtu.be/abc123"; str "youtu.be/abc123";
       str "HTTP://WWW.YouTube.com/watch?v=1"; str "https://vimeo.com/1";
       str "https://notyoutube.com/"; str "httpss://youtu.be/a"]
  = [true; true; true; false; false; false].
Proof. vm_compute. reflexivity. Qed.

Example extension_ex :
  (isPdf (str "https://h.edu/notes.PDF?download=1"),
   isPdf (str "https://h.edu/notes.pdfx"),
   isProbablyOfficeDoc (str "a.docx"), isImage (str "a.jpeg"),
   isVideoFile (str "a.mp4"), isVideoFile (str "mp4"))
  = (true, false, true, true, true, false).
Proof. vm_compute. reflexivity. Qed.

Example URL_std_ex :
  match URL_std (str "https://www.YouTube.com/watch?v=abc&t=3#x") with
  | Some u => (hostname u, pathname u, searchParams_get u (str "v"),
               searchParams_get u (str "t"), searchParams_get u (str "q"))
              = (str "www.youtube.com", str "/watch", Some (str "abc"),
                 Some (str "3"), None)
  | None => False
  end.
Proof. vm_compute. reflexivity. Qed.

Example URL_std_no_scheme :
  (isSome (URL_std (str "youtu.be/abc123")), isSome (URL_std (str "notes.pdf")),
   isSome (URL_std [])) = (false, false, false).
Proof. vm_compute. reflexivity. Qed.

Example Array_sort_stable_ex :
  map id (Array_sort byViewsDesc catalog4) = map str ["2"; "1"; "4"; "3"]%string.
Proof. vm_compute. reflexivity. Qed.

Example Set_from_ex :
  Set_from [] (map str ["b"; "a"; "b"; "c"; "a"]%string) = map str ["b"; "a"; "c"]%string.
Proof. vm_compute. reflexivity. Qed.

(** ** Strings *)

Lemma startsWith_nil s : startsWith s [] = true.
Proof. destruct s; reflexivity. Qed.

Lemma includes_nil s : includes s [] = true.
Proof. destruct s; reflexivity. Qed.

Lemma jsstring_eqb_eq a b : jsstring_eqb a b = true <-> a = b.
Proof. unfold jsstring_eqb. apply bool_decide_eq_true. Qed.

Lemma jsstring_eqb_refl a : jsstring_eqb a a = true.
Proof. apply jsstring_eqb_eq. reflexivity. Qed.

Lemma jsstring_eqb_neq a b : jsstring_eqb a b = false <-> a <> b.
Proof. unfold jsstring_eqb. apply bool_decide_eq_false. Qed.

Lemma Array_includes_In arr x : Array_includes arr x = true <-> In x arr.
Proof.
  unfold Array_includes. rewrite existsb_exists. split.
  - intros [y [Hy E]]. apply jsstring_eqb_eq in E. now subst.
  - intros H. exists x. split; [assumption | apply jsstring_eqb_refl].
Qed.

Lemma Array_includes_not_In arr x : Array_includes arr x = false <-> ~ In x arr.
Proof.
  rewrite <- Array_includes_In. destruct (Array_includes arr x); split; intros H;
    try reflexivity; try discriminate; try (now intros E); now exfalso.
Qed.

Lemma trim_nil : trim [] = [].
Proof. reflexivity. Qed.

(* ===================================================================== *)
(** ** Filter Engine                                                      *)
(* ===================================================================== *)

Lemma matchesFilter_default lower (Hlower : lower [] = []) res :
  matchesFilter lower defaultView res = Status_eqb (status res) online.
Proof.
  unfold matchesFilter, defaultView; cbn [searchTerm activeFilter selectedSubjects selectedLevel].
  destruct (Status_eqb (status res) online); cbn [negb]; [ | reflexivity].
  rewrite Hlower, includes_nil, jsstring_eqb_refl. reflexivity.
Qed.

(** C1. With an empty search term, type filter "All", no selected subject
    and level filter "All", the Filter Engine returns exactly the resources
    whose status is online, in catalog order. The case mapping of the
    platform enters only through its value on the empty string. *)
Theorem C1_default_filter_online_subset
  (toLowerCase : jsstring -> jsstring) (Hempty : toLowerCase [] = [])
  (resources : list Resource) :
  filteredResources toLowerCase resources
    {| searchTerm := []; activeFilter := str "All"; selectedSubjects := [];
       selectedLevel := str "All" |}
  = List.filter (fun r => Status_eqb (status r) online) resources.
Proof.
  unfold filteredResources. apply filter_ext. intros r.
  apply (matchesFilter_default toLowerCase Hempty).
Qed.

(** The scenario of the specification: type filter "PDF" on three PDFs, one
    of them offline, and one online DOC. *)
Example filter_pdf_scenario :
  map id
    (filteredResources toLowerCase_ascii
       [ sample "p1" PDF "" [] online 0; sample "p2" PDF "" [] offline 0;
         sample "d1" DOC "" [] online 0; sample "p3" PDF "" [] online 0 ]
       {| searchTerm := []; activeFilter := str "PDF"; selectedSubjects := [];
          selectedLevel := All |})
  = map str ["p1"; "p3"]%string.
Proof. vm_compute. reflexivity. Qed.

Example filter_search_literal :
  map id
    (filteredResources toLowerCase_ascii
       [ sample "C++ (intro)" PDF "" [] online 0; sample "C" PDF "" [] online 0 ]
       {| searchTerm := str "c++ ("; activeFilter := All; selectedSubjects := [];
          selectedLevel := All |})
  = [str "C++ (intro)"].
Proof. vm_compute. reflexivity. Qed.

Lemma C1_default_filter_witness :
  filteredResources toLowerCase_ascii catalog4 defaultView
  = [ sample "1" PDF "https://h.edu/a.pdf" ["exam-prep"; "ai"]%string online 5;
      sample "3" LINK "https://example.edu" ["exam-prep"]%string online 0;
      sample "4" VIDEO "https://youtu.be/abc123" ["video"]%string online 5 ].
Proof.
  exact (C1_default_filter_online_subset toLowerCase_ascii eq_refl catalog4).
Defined.

(* ===================================================================== *)
(** ** Admin Form Controller                                              *)
(* ===================================================================== *)

Lemma nonEmpty_true s : nonEmpty s = true <-> s <> [].
Proof. destruct s; cbn; split; congruence. Qed.

Lemma isSome_true {A} (o : option A) : isSome o = true <-> o <> None.
Proof. destruct o; cbn; split; congruence. Qed.

Lemma trim_nonEmpty_source s : trim s <> [] -> s <> [].
Proof. intros H E. subst. now apply H. Qed.

Ltac bool_to_prop :=
  repeat match goal with
  | H : _ && _ = true |- _ => apply andb_true_iff in H; destruct H
  | H : _ || _ = true |- _ => apply orb_true_iff in H; destruct H
  | H : negb _ = true |- _ => apply negb_true_iff in H
  | H : negb _ = false |- _ => apply negb_false_iff in H
  | H : _ && _ = false |- _ => apply andb_false_iff in H; destruct H
  | H : _ || _ = false |- _ => apply orb_false_iff in H; destruct H
  end.

(** C6. The submit control is enabled exactly when: the type is LINK and
    the URL field holds something other than white space; or the type is
    VIDEO, DOC or PRESENTATION and a file is attached, a URL is given or a
    resource is being edited; or the type is one of the remaining
    (upload-only) types and a file is attached or a resource is being
    edited. An enabled LINK form therefore has a non-empty URL field; a LINK
    form with an empty URL is disabled, and a URL makes it enabled. *)
Theorem C6_submit_blocked_unless (f : Form) :
  (submitDisabled f = false <->
     (form_type f = LINK /\ trim (form_url f) <> [])
     \/ (In (form_type f) [VIDEO; DOC; PRESENTATION]
         /\ (selectedFile f <> None \/ trim (form_url f) <> []
             \/ truthy (editingResourceId f) = true))
     \/ (In (form_type f) [PDF; IMAGE; SPREADSHEET; CODE]
         /\ (selectedFile f <> None \/ truthy (editingResourceId f) = true)))
  /\ (form_type f = LINK /\ submitDisabled f = false -> form_url f <> [])
  /\ submitDisabled
       {| form_type := LINK; form_url := []; selectedFile := selectedFile f;
          editingResourceId := editingResourceId f |} = true
  /\ (trim (form_url f) <> [] ->
      submitDisabled
        {| form_type := LINK; form_url := form_url f;
           selectedFile := selectedFile f;
           editingResourceId := editingResourceId f |} = false).
Proof.
  destruct f as [t u file eid]; cbn [form_type form_url selectedFile editingResourceId].
  repeat split.
  - unfold submitDisabled; cbn [form_type form_url selectedFile editingResourceId].
    rewrite <- !nonEmpty_true, <- !isSome_true.
    set (h := nonEmpty (trim u)); set (a := isSome file); set (e := truthy eid).
    clearbody h a e.
    destruct t, h, a, e; vm_compute; intros H; try discriminate H;
      intuition congruence.
  - unfold submitDisabled; cbn [form_type form_url selectedFile editingResourceId].
    rewrite <- !nonEmpty_true, <- !isSome_true.
    set (h := nonEmpty (trim u)); set (a := isSome file); set (e := truthy eid).
    clearbody h a e.
    destruct t, h, a, e; vm_compute; intuition congruence.
  - intros [-> H]. apply trim_nonEmpty_source.
    change (negb (nonEmpty (trim u)) = false) in H.
    bool_to_prop. now apply nonEmpty_true.
  - intros H. apply nonEmpty_true in H.
    change (negb (nonEmpty (trim u)) = false). now rewrite H.
Qed.

Lemma C6_submit_blocked_witness :
  submitDisabled
    {| form_type := LINK; form_url := str "https://example.edu";
       selectedFile := None; editingResourceId := None |} = false.
Proof.
  refine (proj2 (proj2 (proj2 (C6_submit_blocked_unless
    {| form_type := LINK; form_url := str "https://example.edu";
       selectedFile := None; editingResourceId := None |}))) _).
  vm_compute. discriminate.
Defined.

(** C7. The upload-capability predicate of the form holds for PDF but not
    for IMAGE, SPREADSHEET or CODE, although the form prepares an accept
    filter for each of them and treats them as upload-only: a new resource
    of one of these types can have no file attached and so can never be
    submitted. *)
Theorem C7_canUploadFile_upload_only_types :
  canUploadFile PDF = true
  /\ canUploadFile IMAGE = false
  /\ canUploadFile SPREADSHEET = false
  /\ canUploadFile CODE = false
  /\ getAcceptString IMAGE = str "image/*"
  /\ getAcceptString SPREADSHEET = str ".xls,.xlsx,.csv"
  /\ getAcceptString CODE = str ".js,.py,.cpp,.java,.html,.css,.ts,.sql"
  /\ forall t f file, In t [IMAGE; SPREADSHEET; CODE] ->
       truthy (editingResourceId f) = false ->
       submitDisabled (attachFile file (selectType t f)) = true.
Proof.
  repeat split; try (vm_compute; reflexivity).
  intros t [t0 u file0 eid] file Ht Hedit. cbn in Hedit.
  destruct eid as [[ | c s] | ]; try discriminate Hedit;
    cbn in Ht; destruct Ht as [<- | [<- | [<- | []]]]; vm_compute; reflexivity.
Qed.

(* ===================================================================== *)
(** ** [Array.prototype.sort]: permutation, order, stability              *)
(* ===================================================================== *)

Section SortFacts.

Context {A : Type} (cmp : A -> A -> Z).


Lemma sort_insert_perm x l : Permutation (sort_insert cmp x l) (x :: l).
Proof.
  induction l as [ | y l IH]; cbn; [reflexivity | ].
  destruct (0 <? cmp x y)%Z; [ | reflexivity].
  rewrite IH. apply perm_swap.
Qed.

Lemma Array_sort_perm l : Permutation (Array_sort cmp l) l.
Proof.
  induction l as [ | x l IH]; cbn; [constructor | ].
  rewrite sort_insert_perm. now constructor.
Qed.

Lemma Array_sort_In x l : In x (Array_sort cmp l) <-> In x l.
Proof.
  split; apply Permutation_in;
    [ apply Array_sort_perm | symmetry; apply Array_sort_perm ].
Qed.

(** Stability: elements that the comparator does not separate keep their
    relative order. *)
Lemma sort_insert_filter (P : A -> bool) x l :
  (P x = true -> forall y, In y l -> P y = true -> cmp_le cmp x y) ->
  List.filter P (sort_insert cmp x l) = List.filter P (x :: l).
Proof.
  induction l as [ | y l IH]; intros H; [reflexivity | ].
  cbn [sort_insert]. destruct (0 <? cmp x y)%Z eqn:E; [ | reflexivity].
  cbn [List.filter]. rewrite IH by (intros Hx z Hz; apply H; cbn; auto).
  cbn [List.filter]. destruct (P x) eqn:Px, (P y) eqn:Py; try reflexivity.
  apply Z.ltb_lt in E. specialize (H eq_refl y (or_introl eq_refl) Py).
  unfold cmp_le in H. lia.
Qed.

Lemma Array_sort_filter (P : A -> bool) l :
  (forall x y, P x = true -> P y = true -> cmp_le cmp x y) ->
  List.filter P (Array_sort cmp l) = List.filter P l.
Proof.
  intros H. induction l as [ | x l IH]; [reflexivity | ].
  cbn [Array_sort fold_right]. fold (Array_sort cmp l).
  rewrite sort_insert_filter by (intros Hx y _ Hy; now apply H).
  cbn [List.filter]. now rewrite IH.
Qed.

Hypothesis cmp_trans : forall a b c, cmp_le cmp a b -> cmp_le cmp b c -> cmp_le cmp a c.
Hypothesis cmp_total : forall a b, (0 < cmp a b)%Z -> cmp_le cmp b a.

Lemma sort_insert_sorted x l :
  StronglySorted (cmp_le cmp) l -> StronglySorted (cmp_le cmp) (sort_insert cmp x l).
Proof.
  induction 1 as [ | y l Hs IH Hy]; cbn.
  - constructor; constructor.
  - destruct (0 <? cmp x y)%Z eqn:E.
    + apply Z.ltb_lt in E. constructor; [exact IH | ].
      apply List.Forall_forall. intros z Hz.
      apply (Permutation_in _ (sort_insert_perm x l)) in Hz.
      destruct Hz as [<- | Hz]; [now apply cmp_total | ].
      revert z Hz. now apply List.Forall_forall.
    + apply Z.ltb_ge in E. constructor.
      * now constructor.
      * constructor; [exact E | ].
        eapply List.Forall_impl; [ | exact Hy]. intros z Hz.
        now apply (cmp_trans x y z).
Qed.

Lemma Array_sort_sorted l : StronglySorted (cmp_le cmp) (Array_sort cmp l).
Proof.
  induction l as [ | x l IH]; cbn; [constructor | ].
  now apply sort_insert_sorted.
Qed.

End SortFacts.

(* ===================================================================== *)
(** ** Popular ranking                                                    *)
(* ===================================================================== *)


Lemma popular_sorted l : StronglySorted viewsAtLeast (Array_sort byViewsDesc l).
Proof.
  eapply StronglySorted_ind with (P := StronglySorted viewsAtLeast);
    [ constructor | | apply (Array_sort_sorted byViewsDesc) ].
  - intros a l' _ IH Ha. constructor; [exact IH | ].
    eapply List.Forall_impl; [ | exact Ha]. unfold cmp_le, byViewsDesc, viewsAtLeast.
    intros; lia.
  - unfold cmp_le, byViewsDesc. intros; lia.
  - unfold cmp_le, byViewsDesc. intros; lia.
Qed.

Lemma isDefaultView_true f :
  isDefaultView f = true <->
  searchTerm f = [] /\ activeFilter f = str "All"
  /\ selectedSubjects f = [] /\ selectedLevel f = str "All".
Proof.
  unfold isDefaultView. rewrite !andb_true_iff, !jsstring_eqb_eq.
  rewrite Nat.eqb_eq, length_zero_iff_nil, negb_true_iff.
  destruct (searchTerm f); cbn; intuition congruence.
Qed.

(** C5 (as amended). The popular ranking is the first four entries of a
    list that is a rearrangement of the resources with status online and a
    positive view count, is in descending order of views, and keeps
    resources with equal views in catalog order. Every render of the
    dashboard computes it, whatever the filter state; the dashboard shows
    it only when the search term is empty, the type and level filters are
    "All" and no subject is selected, and then whenever it is not empty. *)
Theorem C5_popular_ranking (resources : list Resource) :
  (exists ranking,
      popularResources resources = firstn 4 ranking
      /\ Permutation ranking
           (List.filter (fun r => Status_eqb (status r) online && (0 <? views r)%Z)
                        resources)
      /\ StronglySorted viewsAtLeast ranking
      /\ forall v,
           List.filter (fun r => (views r =? v)%Z) ranking
           = List.filter (fun r => (views r =? v)%Z)
               (List.filter (fun r => Status_eqb (status r) online && (0 <? views r)%Z)
                            resources))
  /\ (forall f shown,
        popularSection resources f = Some shown ->
        shown = popularResources resources
        /\ searchTerm f = [] /\ activeFilter f = str "All"
        /\ selectedSubjects f = [] /\ selectedLevel f = str "All")
  /\ (forall f,
        isDefaultView f = true -> popularResources resources <> [] ->
        popularSection resources f = Some (popularResources resources))
  /\ (forall toLowerCase f,
        bound_popularResources (dashboardBindings toLowerCase resources f)
        = popularResources resources
        /\ bound_isDefaultView (dashboardBindings toLowerCase resources f)
           = isDefaultView f).
Proof.
  split; [ | split; [ | split; [ | split; reflexivity]]].
  - exists (Array_sort byViewsDesc (List.filter isPopular resources)).
    split; [reflexivity | ]. split; [apply Array_sort_perm | ].
    split; [apply popular_sorted | ].
    intros v. apply Array_sort_filter. intros x y Hx Hy.
    apply Z.eqb_eq in Hx, Hy. unfold cmp_le, byViewsDesc. lia.
  - intros f shown. unfold popularSection.
    destruct (isDefaultView f) eqn:D; cbn [andb]; [ | discriminate].
    destruct (0 <? length (popularResources resources))%nat; [ | discriminate].
    intros [= <-]. split; [reflexivity | now apply isDefaultView_true].
  - intros f D Hne. unfold popularSection. rewrite D. cbn [andb].
    destruct (popularResources resources); [congruence | reflexivity].
Qed.

(** C5 as stated fails outside the default view: with a search term the
    ranking is not shown, but the render has computed it all the same. *)
Lemma C5_ranking_computed_in_every_view :
  isDefaultView searchView = false
  /\ bound_isDefaultView (dashboardBindings toLowerCase_ascii catalog4 searchView)
     = false
  /\ map id (bound_popularResources
               (dashboardBindings toLowerCase_ascii catalog4 searchView))
     = map str ["1"; "4"]%string
  /\ popularSection catalog4 searchView = None.
Proof. vm_compute. repeat split; reflexivity. Qed.

Example popularResources_ex :
  map id (popularResources
            (catalog4 ++ [sample "5" PDF "" [] online 7; sample "6" PDF "" [] online 1;
                          sample "7" PDF "" [] online 5]))
  = map str ["5"; "1"; "4"; "7"]%string.
Proof. vm_compute. reflexivity. Qed.

(* ===================================================================== *)
(** ** [Set] and [Map]                                                    *)
(* ===================================================================== *)

Lemma Set_from_In seen l x :
  In x (Set_from seen l) <-> In x l /\ ~ In x seen.
Proof.
  revert seen. induction l as [ | y l IH]; intros seen; cbn.
  - tauto.
  - destruct (Array_includes seen y) eqn:E.
    + apply Array_includes_In in E. rewrite IH. split.
      * tauto.
      * intros [[<- | H] Hn]; tauto.
    + apply Array_includes_not_In in E. cbn. rewrite IH. cbn. split.
      * intros [<- | [H Hn]]; tauto.
      * intros [[<- | H] Hn]; [tauto | ].
        destruct (jsstring_eq_dec y x) as [-> | Hne]; tauto.
Qed.

Lemma Set_from_NoDup seen l : List.NoDup (Set_from seen l).
Proof.
  revert seen. induction l as [ | y l IH]; intros seen; cbn.
  - constructor.
  - destruct (Array_includes seen y); [apply IH | ].
    constructor; [ | apply IH].
    rewrite Set_from_In. cbn. tauto.
Qed.

Lemma NoDup_count_occ_one (l : list jsstring) x :
  List.NoDup l -> In x l -> count_occ jsstring_eq_dec l x = 1%nat.
Proof.
  intros Hnd Hin.
  pose proof (proj1 (NoDup_count_occ jsstring_eq_dec l) Hnd x) as Hle.
  pose proof (proj1 (count_occ_In jsstring_eq_dec l x) Hin) as Hge.
  lia.
Qed.

Lemma Map_by_id_acc (l : list Resource) (m : gmap jsstring Resource) k u :
  fold_left (fun m r => <[id r := r]> m) l m !! k = Some u ->
  (In u l /\ id u = k) \/ m !! k = Some u.
Proof.
  revert m. induction l as [ | r l IH]; intros m H; cbn in *.
  - now right.
  - apply IH in H. destruct H as [[H1 H2] | H]; [left; tauto | ].
    destruct (decide (id r = k)) as [E | E].
    + rewrite <- E, lookup_insert_eq in H. injection H as <-. left; tauto.
    + rewrite lookup_insert_ne in H by exact E. now right.
Qed.

Lemma Map_by_id_Some l k u :
  Map_by_id l !! k = Some u -> In u l /\ id u = k.
Proof.
  intros H. apply Map_by_id_acc in H. destruct H as [H | H]; [exact H | ].
  rewrite lookup_empty in H. discriminate.
Qed.

Lemma Map_by_id_acc_keep (l : list Resource) (m : gmap jsstring Resource) k :
  is_Some (m !! k) ->
  is_Some (fold_left (fun m r => <[id r := r]> m) l m !! k).
Proof.
  revert m. induction l as [ | r l IH]; intros m H; cbn; [exact H | ].
  apply IH. destruct (decide (id r = k)) as [E | E].
  - rewrite <- E, lookup_insert_eq. eauto.
  - now rewrite lookup_insert_ne.
Qed.

Lemma Map_by_id_is_Some l u : In u l -> is_Some (Map_by_id l !! id u).
Proof.
  unfold Map_by_id. generalize (∅ : gmap jsstring Resource).
  induction l as [ | r l IH]; intros m H; [destruct H | ].
  cbn. destruct H as [-> | H]; [ | now apply IH].
  apply Map_by_id_acc_keep. rewrite lookup_insert_eq. eauto.
Qed.

Lemma Map_by_id_None l k : ~ In k (map id l) -> Map_by_id l !! k = None.
Proof.
  intros H. destruct (Map_by_id l !! k) as [u | ] eqn:E; [ | reflexivity].
  apply Map_by_id_Some in E. destruct E as [E <-].
  exfalso. apply H. now apply in_map.
Qed.

(** With unique ids the map returns each entry under its own id. *)
Lemma Map_by_id_unique l u :
  List.NoDup (map id l) -> In u l -> Map_by_id l !! id u = Some u.
Proof.
  intros Hnd Hin. destruct (Map_by_id_is_Some l u Hin) as [v Hv].
  rewrite Hv. f_equal. apply Map_by_id_Some in Hv. destruct Hv as [Hv E].
  clear -Hnd Hin Hv E. induction l as [ | r l IH]; [destruct Hin | ].
  cbn in Hnd. apply NoDup_cons_iff in Hnd. destruct Hnd as [Hr Hnd].
  destruct Hin as [-> | Hin], Hv as [-> | Hv]; try reflexivity.
  - exfalso. apply Hr. rewrite <- E. now apply in_map.
  - exfalso. apply Hr. rewrite E. now apply in_map.
  - now apply IH.
Qed.

(* ===================================================================== *)
(** ** Batch updates                                                      *)
(* ===================================================================== *)

Lemma with_tags_id r ts : id (with_tags r ts) = id r.
Proof. reflexivity. Qed.

Lemma with_tags_tags r ts : tags (with_tags r ts) = ts.
Proof. reflexivity. Qed.

Section TagUpdates.

Variable touched : Resource -> bool.
Variable newTags : Resource -> list jsstring.

Local Abbreviation updatesOf := (tagUpdates touched newTags).

Lemma tagUpdates_map rs :
  updatesOf rs = map (fun r => with_tags r (newTags r)) (List.filter touched rs).
Proof.
  induction rs as [ | r rs IH]; [reflexivity | ].
  cbn. destruct (touched r); cbn; now rewrite <- IH.
Qed.

Lemma tagUpdates_In u rs :
  In u (updatesOf rs) <->
  exists r, In r rs /\ touched r = true /\ u = with_tags r (newTags r).
Proof.
  rewrite tagUpdates_map, in_map_iff. split.
  - intros [r [<- H]]. apply filter_In in H. exists r. tauto.
  - intros [r [H1 [H2 ->]]]. exists r. split; [reflexivity | ].
    apply filter_In. tauto.
Qed.

Lemma tagUpdates_ids rs :
  List.NoDup (map id rs) -> List.NoDup (map id (updatesOf rs)).
Proof.
  induction rs as [ | r rs IH]; cbn; [constructor | ].
  intros Hnd. apply NoDup_cons_iff in Hnd. destruct Hnd as [Hr Hnd].
  destruct (touched r); cbn; [ | now apply IH].
  constructor; [ | now apply IH].
  intros Hin. apply Hr. apply in_map_iff in Hin.
  destruct Hin as [u [E Hu]]. apply tagUpdates_In in Hu.
  destruct Hu as [r' [Hr' [_ ->]]]. cbn in E. rewrite <- E. now apply in_map.
Qed.

(** Every resource of the updated catalog is an update or an untouched
    resource of the old one. *)
Lemma batch_tagUpdates_In r' rs :
  In r' (handleBatchUpdateResources (updatesOf rs) rs) ->
  In r' (updatesOf rs) \/ (In r' rs /\ touched r' = false).
Proof.
  unfold handleBatchUpdateResources. intros H. apply in_map_iff in H.
  destruct H as [r [E Hr]].
  destruct (Map_by_id (updatesOf rs) !! id r) as [u | ] eqn:L.
  - subst r'. apply Map_by_id_Some in L. tauto.
  - subst r'. right. split; [exact Hr | ].
    destruct (touched r) eqn:T; [ | reflexivity].
    assert (Hin : In (with_tags r (newTags r)) (updatesOf rs))
      by (apply tagUpdates_In; eauto).
    apply Map_by_id_is_Some in Hin. rewrite with_tags_id, L in Hin.
    destruct Hin as [? Hin]. discriminate.
Qed.

(** With unique ids the batch rewrites exactly the touched resources,
    each in its place. *)
Lemma batch_tagUpdates_unique rs :
  List.NoDup (map id rs) ->
  handleBatchUpdateResources (updatesOf rs) rs
  = map (fun r => if touched r then with_tags r (newTags r) else r) rs.
Proof.
  intros Hnd. unfold handleBatchUpdateResources. apply map_ext_in.
  intros r Hr. destruct (touched r) eqn:T.
  - assert (Hin : In (with_tags r (newTags r)) (updatesOf rs))
      by (apply tagUpdates_In; eauto).
    apply (Map_by_id_unique _ _ (tagUpdates_ids rs Hnd)) in Hin.
    rewrite with_tags_id in Hin. now rewrite Hin.
  - rewrite Map_by_id_None; [reflexivity | ].
    intros Hin. apply in_map_iff in Hin. destruct Hin as [u [E Hu]].
    apply tagUpdates_In in Hu. destruct Hu as [r2 [Hr2 [T2 ->]]].
    cbn in E. assert (r2 = r); [ | congruence].
    clear -Hnd Hr Hr2 E. induction rs as [ | a rs IH]; [destruct Hr | ].
    cbn in Hnd. apply NoDup_cons_iff in Hnd. destruct Hnd as [Ha Hnd].
    destruct Hr as [-> | Hr], Hr2 as [-> | Hr2]; try reflexivity.
    + exfalso. apply Ha. rewrite <- E. now apply in_map.
    + exfalso. apply Ha. rewrite E. now apply in_map.
    + now apply IH.
Qed.

End TagUpdates.


(* ===================================================================== *)
(** ** Tag Registry                                                       *)
(* ===================================================================== *)


Lemma rawTags_acc (rs : list Resource) (acc : list jsstring) :
  fold_left (fun acc r => acc ++ tags r) rs acc = acc ++ flat_map tags rs.
Proof.
  revert acc. induction rs as [ | r rs IH]; intros acc; cbn.
  - now rewrite app_nil_r.
  - now rewrite IH, <- app_assoc.
Qed.

Lemma rawTags_flat_map rs : rawTags rs = flat_map tags rs.
Proof. unfold rawTags. now rewrite rawTags_acc. Qed.

Lemma rawTags_In t rs :
  In t (rawTags rs) <-> exists r, In r rs /\ In t (tags r).
Proof. rewrite rawTags_flat_map. apply in_flat_map. Qed.

Lemma uniqueTags_In t rs : In t (uniqueTags rs) <-> In t (rawTags rs).
Proof.
  unfold uniqueTags. rewrite Array_sort_In, Set_from_In. cbn. tauto.
Qed.

Lemma tagCounts_step_other (acc : gmap jsstring CountValue) t k :
  k <> t -> tagCounts_step acc t !! k = acc !! k.
Proof.
  intros Hne. unfold tagCounts_step.
  destruct (acc !! t) as [[n | ] | ];
    [ | | destruct (jsstring_eqb t (str "__proto__")); [reflexivity | ];
          destruct (Array_includes Object_prototype_keys t) ];
    now rewrite lookup_insert_ne.
Qed.

Lemma tagCounts_fold_other (l : list jsstring) (m : gmap jsstring CountValue) k :
  ~ In k l -> fold_left tagCounts_step l m !! k = m !! k.
Proof.
  revert m. induction l as [ | t l IH]; intros m H; cbn; [reflexivity | ].
  rewrite IH by (intros Hin; apply H; now right).
  apply tagCounts_step_other. intros ->. apply H. now left.
Qed.

Lemma tagCounts_absent tag rs :
  ~ In tag (rawTags rs) -> tagCounts rs !! tag = None.
Proof.
  intros H. unfold tagCounts. now rewrite tagCounts_fold_other, lookup_empty.
Qed.

Lemma withoutTag_In tag ts t : In t (withoutTag tag ts) <-> In t ts /\ t <> tag.
Proof.
  unfold withoutTag. rewrite filter_In, negb_true_iff, jsstring_eqb_neq. tauto.
Qed.

Lemma deleteUpdates_tagUpdates tag rs :
  deleteUpdates tag rs
  = tagUpdates (hasTag tag) (fun r => withoutTag tag (tags r)) rs.
Proof. reflexivity. Qed.

Lemma renameUpdates_tagUpdates oldTag newTag rs :
  renameUpdates oldTag newTag rs
  = tagUpdates (hasTag oldTag) (fun r => renamed oldTag newTag (tags r)) rs.
Proof. reflexivity. Qed.

Lemma length_pos_nonnil {A} (l : list A) :
  (0 <? length l)%nat = negb (match l with [] => true | _ => false end).
Proof. destruct l; reflexivity. Qed.

(** C8. Deleting a tag reports the number of resources that carry it and,
    when there is one, issues one batch holding each of them with every
    occurrence of the tag filtered out of its list. Afterwards no resource
    of the catalog carries the tag, the tag is not among [uniqueTags] and
    [tagCounts] has no entry for it. When ids are unique the other
    resources, and the other tags, are left as they were. *)
Theorem C8_delete_tag (tag : jsstring) (c : Console) :
  let c' := handleDeleteTag tag c in
  let affected := List.filter (hasTag tag) (resources c) in
  let updates :=
    map (fun r => with_tags r (withoutTag tag (tags r))) affected in
  notification c' = Some (TagDeleted tag (length affected))
  /\ batchUpdates c'
     = batchUpdates c ++ match affected with [] => [] | _ => [updates] end
  /\ (forall r, In r (resources c') -> ~ In tag (tags r))
  /\ tagCounts (resources c') !! tag = None
  /\ ~ In tag (uniqueTags (resources c'))
  /\ (List.NoDup (map id (resources c)) ->
      resources c'
      = map (fun r => if hasTag tag r
                      then with_tags r (withoutTag tag (tags r)) else r)
            (resources c)).
Proof.
  intros c' affected updates.
  assert (Hup : deleteUpdates tag (resources c) = updates)
    by (rewrite deleteUpdates_tagUpdates; apply tagUpdates_map).
  assert (Hres : forall r, In r (resources c') -> ~ In tag (tags r)).
  { intros r. subst c'. unfold handleDeleteTag. cbn [resources].
    rewrite Hup. destruct affected as [ | a affected'] eqn:Ea.
    - cbn. intros Hr Hin. subst affected.
      assert (In r []) as []. rewrite <- Ea. apply filter_In.
      split; [exact Hr | now apply Array_includes_In].
    - replace (0 <? length updates)%nat with true by reflexivity.
      cbn [onBatchUpdate resources]. rewrite <- Hup, deleteUpdates_tagUpdates.
      intros Hr. apply batch_tagUpdates_In in Hr. destruct Hr as [Hr | [_ Hr]].
      + apply tagUpdates_In in Hr. destruct Hr as [r0 [_ [_ ->]]].
        rewrite with_tags_tags, withoutTag_In. tauto.
      + now apply Array_includes_not_In. }
  assert (Hraw : ~ In tag (rawTags (resources c'))).
  { rewrite rawTags_In. intros [r [Hr Hin]]. now apply (Hres r). }
  split; [ | split; [ | split; [exact Hres | split; [ | split]]]].
  - subst c'. unfold handleDeleteTag. cbn [notification].
    rewrite Hup. subst updates. now rewrite length_map.
  - subst c'. unfold handleDeleteTag. cbn [batchUpdates]. rewrite Hup.
    subst updates. destruct affected; cbn; [now rewrite app_nil_r | reflexivity].
  - now apply tagCounts_absent.
  - now rewrite uniqueTags_In.
  - intros Hnd. subst c'. unfold handleDeleteTag. cbn [resources].
    rewrite Hup. destruct affected as [ | a affected'] eqn:Ea.
    + cbn. symmetry. rewrite <- (map_id (resources c)) at 2.
      apply map_ext_in. intros r Hr. destruct (hasTag tag r) eqn:T; [ | reflexivity].
      assert (In r []) as []. subst affected. rewrite <- Ea. now apply filter_In.
    + replace (0 <? length updates)%nat with true by reflexivity.
      cbn [onBatchUpdate resources]. rewrite <- Hup, deleteUpdates_tagUpdates.
      now apply batch_tagUpdates_unique.
Qed.

Example C8_delete_tag_ex :
  let c := {| resources := catalog4; editingTag := None;
              tagDeleteConfirm := Some (str "exam-prep"); notification := None;
              batchUpdates := [] |} in
  let c' := handleDeleteTag (str "exam-prep") c in
  map tags (resources c')
  = [map str ["ai"]; map str ["exam"]; []; map str ["video"]]%string
  /\ notification c' = Some (TagDeleted (str "exam-prep") 3)
  /\ length (batchUpdates c') = 1%nat
  /\ uniqueTags (resources c') = map str ["ai"; "exam"; "video"]%string
  /\ tagCounts (resources c') !! str "exam-prep" = None.
Proof. vm_compute. repeat split; reflexivity. Qed.

(** *** Rename *)

Lemma renamed_In oldTag newTag ts t :
  In t (renamed oldTag newTag ts) <->
  (t = newTag /\ In oldTag ts) \/ (In t ts /\ t <> oldTag).
Proof.
  unfold renamed. rewrite Set_from_In, in_map_iff. cbn. split.
  - intros [[s [E Hs]] _]. destruct (jsstring_eqb s oldTag) eqn:B.
    + apply jsstring_eqb_eq in B. subst. now left.
    + apply jsstring_eqb_neq in B. subst. now right.
  - intros [[-> H] | [H Hne]]; (split; [ | tauto]).
    + exists oldTag. now rewrite jsstring_eqb_refl.
    + exists t. apply jsstring_eqb_neq in Hne. now rewrite Hne.
Qed.

Lemma renamed_once oldTag newTag ts :
  In oldTag ts -> count_occ jsstring_eq_dec (renamed oldTag newTag ts) newTag = 1%nat.
Proof.
  intros H. apply NoDup_count_occ_one; [apply Set_from_NoDup | ].
  apply renamed_In. now left.
Qed.

(** C3 (as amended). Confirming a rename whose typed name is blank or is,
    as typed, the old name changes neither the catalog nor the batches
    issued. Otherwise, when the typed name without the white space around
    it differs from the old name, the resources carrying the old tag are
    counted and, when there is one, submitted as one batch. Every resource
    of the resulting catalog then either stems from one that carried the
    old tag, and has the old tag replaced by the trimmed new name, no tag
    twice and the new name exactly once whether or not it had it before,
    or is a resource of the old catalog that did not carry the old tag; no
    resource carries the old tag any more. With unique ids the tag lists
    are rewritten in place. *)
Theorem C3_rename_tag (c : Console) (original current : jsstring) :
  editingTag c = Some (original, current) ->
  let c' := handleRenameTag c in
  let newTag := trim current in
  let affected := List.filter (hasTag original) (resources c) in
  let updates :=
    map (fun r => with_tags r (renamed original newTag (tags r))) affected in
  (trim current = [] \/ current = original ->
     resources c' = resources c /\ batchUpdates c' = batchUpdates c
     /\ notification c' = notification c)
  /\ (trim current <> [] -> current <> original -> trim current <> original ->
      notification c' = Some (TagRenamed original newTag (length affected))
      /\ batchUpdates c'
         = batchUpdates c ++ match affected with [] => [] | _ => [updates] end
      /\ (forall r', In r' (resources c') ->
            (exists r, In r (resources c) /\ In original (tags r)
                       /\ id r' = id r
                       /\ (forall t, In t (tags r') <->
                                     t = newTag \/ (In t (tags r) /\ t <> original))
                       /\ List.NoDup (tags r')
                       /\ count_occ jsstring_eq_dec (tags r') newTag = 1%nat)
            \/ (In r' (resources c) /\ ~ In original (tags r')))
      /\ (forall r', In r' (resources c') -> ~ In original (tags r'))
      /\ (List.NoDup (map id (resources c)) ->
          map id (resources c') = map id (resources c)
          /\ map tags (resources c')
             = map (fun r => if hasTag original r
                             then renamed original newTag (tags r)
                             else tags r)
                   (resources c))).
Proof.
  intros He c' newTag affected updates.
  assert (Hup : renameUpdates original newTag (resources c) = updates)
    by (rewrite renameUpdates_tagUpdates; apply tagUpdates_map).
  split.
  - intros Hnoop. subst c'. unfold handleRenameTag. rewrite He.
    assert (G : negb (nonEmpty (trim current)) || jsstring_eqb current original = true).
    { destruct Hnoop as [-> | ->]; [reflexivity | ].
      rewrite jsstring_eqb_refl. apply orb_true_r. }
    rewrite G. cbn. tauto.
  - intros Hne Hdiff Hnew. subst c'. unfold handleRenameTag. rewrite He.
    assert (G : negb (nonEmpty (trim current)) || jsstring_eqb current original = false).
    { apply orb_false_iff. split.
      - apply negb_false_iff. now apply nonEmpty_true.
      - now apply jsstring_eqb_neq. }
    rewrite G. fold newTag. cbv zeta. rewrite Hup.
    assert (Hall : forall r',
              In r' (resources
                       (if (0 <? length updates)%nat then onBatchUpdate updates c
                        else c)) ->
              (exists r, In r (resources c) /\ In original (tags r)
                         /\ id r' = id r
                         /\ (forall t, In t (tags r') <->
                                       t = newTag \/ (In t (tags r) /\ t <> original))
                         /\ List.NoDup (tags r')
                         /\ count_occ jsstring_eq_dec (tags r') newTag = 1%nat)
              \/ (In r' (resources c) /\ ~ In original (tags r'))).
    { intros r' Hr'.
      assert (Hcases :
                In r' (tagUpdates (hasTag original)
                         (fun r => renamed original newTag (tags r)) (resources c))
                \/ (In r' (resources c) /\ hasTag original r' = false)).
      { destruct affected as [ | a affected'] eqn:Ea.
        - right. cbn in Hr'. split; [exact Hr' | ].
          destruct (hasTag original r') eqn:T; [ | reflexivity].
          assert (In r' []) as []. subst affected. rewrite <- Ea.
          now apply filter_In.
        - replace (0 <? length updates)%nat with true in Hr' by reflexivity.
          cbn [onBatchUpdate resources] in Hr'.
          rewrite <- Hup, renameUpdates_tagUpdates in Hr'.
          now apply batch_tagUpdates_In in Hr'. }
      destruct Hcases as [Hu | [Hin Hno]].
      - left. apply tagUpdates_In in Hu. destruct Hu as [r [Hr [T ->]]].
        apply Array_includes_In in T. exists r.
        rewrite with_tags_id, with_tags_tags.
        split; [exact Hr | split; [exact T | split; [reflexivity | ]]].
        split; [ | split].
        + intros t. rewrite renamed_In. tauto.
        + apply Set_from_NoDup.
        + now apply renamed_once.
      - right. split; [exact Hin | now apply Array_includes_not_In]. }
    split; [ | split; [ | split; [exact Hall | split]]].
    + cbn [notification]. subst updates. now rewrite length_map.
    + subst updates. destruct affected; cbn; [now rewrite app_nil_r | reflexivity].
    + intros r' Hr'. cbn [resources] in Hr'.
      destruct (Hall r' Hr') as [[r [_ [_ [_ [Ht _]]]]] | [_ Hno]]; [ | exact Hno].
      intros Hin. apply Ht in Hin. destruct Hin as [E | [_ E]]; [ | now apply E].
      apply Hnew. now symmetry.
    + intros Hnd.
      assert (E : resources
                    (if (0 <? length updates)%nat then onBatchUpdate updates c else c)
                  = map (fun r => if hasTag original r
                                  then with_tags r (renamed original newTag (tags r))
                                  else r)
                        (resources c)).
      { destruct affected as [ | a affected'] eqn:Ea.
        - cbn. symmetry. rewrite <- (map_id (resources c)) at 2.
          apply map_ext_in. intros r Hr.
          destruct (hasTag original r) eqn:T; [ | reflexivity].
          assert (In r []) as []. subst affected. rewrite <- Ea. now apply filter_In.
        - replace (0 <? length updates)%nat with true by reflexivity.
          cbn [onBatchUpdate resources].
          rewrite <- Hup, renameUpdates_tagUpdates.
          now apply batch_tagUpdates_unique. }
      cbn [resources]. rewrite E, !map_map. split; apply map_ext; intros r;
        destruct (hasTag original r); reflexivity.
Qed.

Lemma C3_rename_tag_witness :
  map tags (resources (handleRenameTag renameScenario))
  = [map str ["exam"; "ai"]; map str ["exam"]; map str ["exam"];
     map str ["video"]]%string.
Proof.
  refine (eq_trans
            (proj2 (proj2 (proj2 (proj2 (proj2
               (proj2 (C3_rename_tag renameScenario (str "exam-prep")
                         (str "exam") eq_refl) _ _ _)))) _)) _).
  - vm_compute. discriminate.
  - vm_compute. discriminate.
  - vm_compute. discriminate.
  - repeat constructor; vm_compute; intuition discriminate.
  - vm_compute. reflexivity.
Defined.

(** C3 as stated fails when the old name is retyped with white space
    around it, here "exam-prep" as " exam-prep". The name typed differs
    from the old one, so the handler goes on; the name it writes is the
    trimmed one, which is the old one. Three resources are submitted in a
    batch and reported as renamed, no tag list holds the name as it was
    typed, and a tag list in which another tag stood twice comes back
    changed. *)
Lemma C3_rename_padded_old_name :
  let tag := str "exam-prep" in
  let typed := str " exam-prep" in
  let c' := handleRenameTag (renamePadded catalog4) in
  let twice := [sample "9" PDF "" ["exam-prep"; "ai"; "ai"]%string online 0] in
  editingTag (renamePadded catalog4) = Some (tag, typed)
  /\ typed <> tag /\ trim typed = tag
  /\ batchUpdates c' = [List.filter (hasTag tag) catalog4]
  /\ notification c' = Some (TagRenamed tag tag 3)
  /\ List.filter (hasTag typed) (resources c') = []
  /\ map tags (resources (handleRenameTag (renamePadded twice)))
     = [map str ["exam-prep"; "ai"]%string]
  /\ map tags (resources (handleRenameTag (renamePadded twice)))
     <> map tags twice.
Proof. vm_compute. repeat split; try reflexivity; discriminate. Qed.

(** The scenario of the specification: three resources tagged "exam-prep",
    one of them also tagged "exam". *)
Example rename_scenario :
  map tags (resources (handleRenameTag renameScenario))
  = [map str ["exam"; "ai"]; map str ["exam"]; map str ["exam"];
     map str ["video"]]%string
  /\ notification (handleRenameTag renameScenario)
     = Some (TagRenamed (str "exam-prep") (str "exam") 3)
  /\ length (batchUpdates (handleRenameTag renameScenario)) = 1%nat.
Proof. vm_compute. repeat split; reflexivity. Qed.

Example rename_noop :
  let blank := {| resources := catalog4;
                  editingTag := Some (str "exam-prep", str "   ");
                  tagDeleteConfirm := None; notification := None;
                  batchUpdates := [] |} in
  let same := {| resources := catalog4;
                 editingTag := Some (str "exam-prep", str "exam-prep");
                 tagDeleteConfirm := None; notification := None;
                 batchUpdates := [] |} in
  (resources (handleRenameTag blank), batchUpdates (handleRenameTag blank))
  = (catalog4, [])
  /\ (resources (handleRenameTag same), batchUpdates (handleRenameTag same))
     = (catalog4, []).
Proof. vm_compute. split; reflexivity. Qed.

(** *** Derived views: [uniqueTags] and [tagCounts] *)

Lemma String_compare_refl a : String_compare a a = 0%Z.
Proof.
  induction a as [ | x a IH]; cbn; [reflexivity | ].
  now rewrite N.ltb_irrefl.
Qed.

Lemma String_compare_eq a b : String_compare a b = 0%Z -> a = b.
Proof.
  revert b. induction a as [ | x a IH]; intros [ | y b]; cbn; try discriminate;
    [reflexivity | ].
  destruct (x <? y) eqn:E1; [discriminate | ].
  destruct (y <? x) eqn:E2; [discriminate | ].
  apply N.ltb_ge in E1, E2. intros H. f_equal; [lia | now apply IH].
Qed.

Lemma String_compare_flip a b :
  (0 < String_compare a b)%Z -> (String_compare b a <= 0)%Z.
Proof.
  revert b. induction a as [ | x a IH]; intros [ | y b]; cbn; try lia.
  destruct (x <? y) eqn:E1; [lia | ].
  destruct (y <? x) eqn:E2; [lia | ].
  apply IH.
Qed.

Lemma String_compare_trans a b c :
  (String_compare a b <= 0)%Z -> (String_compare b c <= 0)%Z ->
  (String_compare a c <= 0)%Z.
Proof.
  revert b c. induction a as [ | x a IH]; intros [ | y b] [ | z c]; cbn; try lia.
  destruct (x <? y) eqn:E1, (y <? x) eqn:E2, (y <? z) eqn:E3, (z <? y) eqn:E4,
           (x <? z) eqn:E5, (z <? x) eqn:E6; try lia;
    try apply N.ltb_lt in E1; try apply N.ltb_lt in E2; try apply N.ltb_lt in E3;
    try apply N.ltb_lt in E4; try apply N.ltb_lt in E5; try apply N.ltb_lt in E6;
    try apply N.ltb_ge in E1; try apply N.ltb_ge in E2; try apply N.ltb_ge in E3;
    try apply N.ltb_ge in E4; try apply N.ltb_ge in E5; try apply N.ltb_ge in E6;
    try lia.
  apply IH.
Qed.


Lemma StronglySorted_strict (l : list jsstring) :
  StronglySorted (cmp_le String_compare) l -> List.NoDup l ->
  StronglySorted codeUnitLt l.
Proof.
  induction 1 as [ | x l Hs IH Hx]; intros Hnd; [constructor | ].
  apply NoDup_cons_iff in Hnd. destruct Hnd as [Hx' Hnd].
  constructor; [now apply IH | ].
  apply List.Forall_forall. intros y Hy.
  pose proof (proj1 (List.Forall_forall _ _) Hx y Hy) as Hle.
  unfold cmp_le in Hle. unfold codeUnitLt.
  destruct (Z.eq_dec (String_compare x y) 0%Z) as [E | E]; [ | lia].
  apply String_compare_eq in E. subst. contradiction.
Qed.

(** [uniqueTags] holds exactly the tags that occur in some resource, each
    once, in ascending code-unit order (upper case before lower case). *)
Lemma uniqueTags_sorted_distinct rs :
  StronglySorted codeUnitLt (uniqueTags rs)
  /\ forall t, In t (uniqueTags rs) <-> exists r, In r rs /\ In t (tags r).
Proof.
  split.
  - apply StronglySorted_strict.
    + apply Array_sort_sorted.
      * intros a b c. apply String_compare_trans.
      * intros a b. apply String_compare_flip.
    + apply (Permutation.Permutation_NoDup
               (l := Set_from [] (rawTags rs))).
      * symmetry. apply Array_sort_perm.
      * apply Set_from_NoDup.
  - intros t. now rewrite uniqueTags_In, rawTags_In.
Qed.


Lemma ordinaryTag_not_proto t :
  ordinaryTag t -> jsstring_eqb t (str "__proto__") = false.
Proof.
  intros H. apply jsstring_eqb_neq. intros ->. vm_compute in H. discriminate.
Qed.

Lemma tagCounts_fold_number (l : list jsstring) (m : gmap jsstring CountValue) t n0 :
  ordinaryTag t -> m !! t = countEntry n0 ->
  fold_left tagCounts_step l m !! t
  = countEntry (n0 + N.of_nat (count_occ jsstring_eq_dec l t)).
Proof.
  intros Hord. revert m n0. induction l as [ | x l IH]; intros m n0 Hm.
  - cbn. now rewrite N.add_0_r.
  - cbn [fold_left count_occ]. destruct (jsstring_eq_dec x t) as [-> | Hne].
    + rewrite (IH _ (n0 + 1)).
      * f_equal. lia.
      * unfold tagCounts_step. rewrite Hm. unfold countEntry.
        destruct (n0 =? 0) eqn:E0.
        -- apply N.eqb_eq in E0. subst n0.
           rewrite (ordinaryTag_not_proto t Hord), Hord, lookup_insert_eq.
           reflexivity.
        -- rewrite lookup_insert_eq.
           destruct (n0 + 1 =? 0) eqn:E1; [apply N.eqb_eq in E1; lia | reflexivity].
    + apply IH. rewrite tagCounts_step_other by congruence. exact Hm.
Qed.

(** For a tag that is not a member name of [Object.prototype], the entry of
    [tagCounts] is the number of occurrences of the tag in the concatenated
    tag lists; there is no entry when it occurs nowhere. *)
Lemma tagCounts_occurrences rs t :
  ordinaryTag t ->
  tagCounts rs !! t
  = countEntry (N.of_nat (count_occ jsstring_eq_dec (rawTags rs) t)).
Proof.
  intros Hord. unfold tagCounts.
  now rewrite (tagCounts_fold_number _ _ t 0 Hord (lookup_empty _)).
Qed.

Lemma count_occ_NoDup_tags (ts : list jsstring) t :
  List.NoDup ts ->
  count_occ jsstring_eq_dec ts t = if Array_includes ts t then 1%nat else 0%nat.
Proof.
  intros Hnd. destruct (Array_includes ts t) eqn:E.
  - apply Array_includes_In in E. now apply NoDup_count_occ_one.
  - apply Array_includes_not_In in E. now apply count_occ_not_In.
Qed.

(** When no resource lists a tag twice, the occurrences of a tag are the
    resources that carry it. *)
Lemma occurrences_are_resources rs t :
  Forall (fun r => List.NoDup (tags r)) rs ->
  count_occ jsstring_eq_dec (rawTags rs) t = length (List.filter (hasTag t) rs).
Proof.
  rewrite rawTags_flat_map. induction 1 as [ | r rs Hr _ IH]; [reflexivity | ].
  cbn [flat_map List.filter]. rewrite count_occ_app, IH, (count_occ_NoDup_tags _ _ Hr).
  unfold hasTag. destruct (Array_includes (tags r) t); reflexivity.
Qed.

(** C9. On a catalog holding one resource whose tag list repeats a tag,
    [uniqueTags] lists the tag once but [tagCounts] maps it to 2, the
    number of its occurrences, while one resource carries it. *)
Theorem C9_tagCounts_repeated_tag :
  let rs := [sample "1" PDF "https://h.edu/a.pdf" ["ai"; "ai"]%string online 0] in
  uniqueTags rs = [str "ai"]
  /\ tagCounts rs !! str "ai" = Some (Vnumber 2)
  /\ length (List.filter (hasTag (str "ai")) rs) = 1%nat.
Proof. vm_compute. repeat split; reflexivity. Qed.

Example tagCounts_ex :
  (tagCounts catalog4 !! str "exam-prep", tagCounts catalog4 !! str "exam",
   tagCounts catalog4 !! str "none")
  = (Some (Vnumber 3), Some (Vnumber 1), None)
  /\ uniqueTags catalog4 = map str ["ai"; "exam"; "exam-prep"; "video"]%string.
Proof. vm_compute. split; reflexivity. Qed.

(** A tag named like a member of [Object.prototype] is counted on top of
    the inherited member and never becomes a number. *)
Example tagCounts_constructor :
  tagCounts [sample "1" CODE "https://h.edu/a.java" ["constructor"]%string online 0]
    !! str "constructor" = Some Vtext.
Proof. vm_compute. reflexivity. Qed.

(* ===================================================================== *)
(** ** Preview Resolver                                                   *)
(* ===================================================================== *)


Lemma uriUnreserved_not_surrogate c :
  uriUnreserved c = true -> isLowSurrogate c = false /\ isHighSurrogate c = false.
Proof.
  unfold uriUnreserved, isLowSurrogate, isHighSurrogate. intros H.
  assert (c < 127).
  { bool_to_prop;
      repeat match goal with
             | H : (_ <=? _) = true |- _ => apply N.leb_le in H
             end; try lia.
    cbn in H. bool_to_prop;
      repeat match goal with
             | H : (_ =? _) = true |- _ => apply N.eqb_eq in H
             end; subst; try lia; discriminate. }
  split; apply andb_false_iff; left; apply N.leb_gt; lia.
Qed.

Lemma encodeURIComponent_wellFormed_fuel n s :
  (length s <= n)%nat -> isWellFormed s = true ->
  exists e, encodeURIComponent s = Returned e.
Proof.
  revert s. induction n as [ | n IH]; intros s Hlen Hwf.
  - destruct s; [eexists; reflexivity | cbn in Hlen; lia].
  - destruct s as [ | c rest]; [eexists; reflexivity | ].
    cbn in Hlen. cbn [encodeURIComponent]. cbn [isWellFormed] in Hwf.
    destruct (uriUnreserved c) eqn:U.
    + destruct (uriUnreserved_not_surrogate c U) as [L H]. rewrite L, H in Hwf.
      destruct (IH rest ltac:(lia) Hwf) as [e ->]. eexists; reflexivity.
    + destruct (isLowSurrogate c); [discriminate | ].
      destruct (isHighSurrogate c).
      * destruct rest as [ | d rest']; [discriminate | ].
        apply andb_true_iff in Hwf. destruct Hwf as [Hd Hwf]. rewrite Hd.
        cbn in Hlen. destruct (IH rest' ltac:(lia) Hwf) as [e ->].
        eexists; reflexivity.
      * destruct (IH rest ltac:(lia) Hwf) as [e ->]. eexists; reflexivity.
Qed.

Lemma encodeURIComponent_wellFormed s :
  isWellFormed s = true -> exists e, encodeURIComponent s = Returned e.
Proof. apply (encodeURIComponent_wellFormed_fuel (length s)). lia. Qed.

Lemma previewByExtension_wellFormed c :
  isWellFormed c = true -> exists p, previewByExtension c = Returned p.
Proof.
  intros Hwf. unfold previewByExtension, getOfficeViewerUrl.
  destruct (encodeURIComponent_wellFormed c Hwf) as [e ->]. cbn.
  destruct (isProbablyOfficeDoc c); [eexists; reflexivity | ].
  destruct (isPdf c); [eexists; reflexivity | ].
  destruct (isImage c); [eexists; reflexivity | ].
  destruct (isVideoFile c); eexists; reflexivity.
Qed.

(** The resolver returns for every parser and every resource whose
    candidate has no lone surrogate. *)
Lemma getBestPreviewUrl_wellFormed URL_new r :
  isWellFormed (previewCandidate r) = true ->
  exists p, getBestPreviewUrl URL_new r = Returned p.
Proof.
  intros Hwf. unfold getBestPreviewUrl.
  destruct (negb (nonEmpty (previewCandidate r))); [eexists; reflexivity | ].
  destruct (if isYouTubeUrl _ then _ else _) as [[ | ? ?] | ];
    try (eexists; reflexivity);
    (destruct (if isVimeoUrl _ then _ else _) as [[ | ? ?] | ];
     try (eexists; reflexivity);
     (destruct (getGoogleDrivePreviewUrl _ _) as [[ | ? ?] | ];
      try (eexists; reflexivity); now apply previewByExtension_wellFormed)).
Qed.

(** With no URL at all the result is [none]. *)
Lemma getBestPreviewUrl_none URL_new r :
  trim (or_empty (url r)) = [] -> trim (or_empty (external_url r)) = [] ->
  getBestPreviewUrl URL_new r = Returned {| kind := Knone; preview_url := [] |}.
Proof.
  intros H1 H2. unfold getBestPreviewUrl, previewCandidate. now rewrite H1, H2.
Qed.

(** A candidate that no rule recognises is returned as a link. *)
Lemma getBestPreviewUrl_link URL_new r :
  let c := previewCandidate r in
  c <> [] -> isYouTubeUrl c = false -> isVimeoUrl c = false ->
  getGoogleDrivePreviewUrl URL_new c = None ->
  isProbablyOfficeDoc c = false -> isPdf c = false -> isImage c = false ->
  isVideoFile c = false ->
  getBestPreviewUrl URL_new r = Returned {| kind := Klink; preview_url := c |}.
Proof.
  intros c Hc Hy Hv Hg Ho Hp Hi Hf. unfold getBestPreviewUrl. fold c.
  apply nonEmpty_true in Hc. rewrite Hc, Hy, Hv, Hg. cbn.
  unfold previewByExtension. now rewrite Ho, Hp, Hi, Hf.
Qed.

(** C2. A resource whose URL is a lone high surrogate followed by ".docx"
    passes the office-document test, and the viewer URL is built with
    [encodeURIComponent], which throws [URIError] on it: the resolver does
    not return. *)
Theorem C2_preview_throws_on_lone_surrogate :
  isProbablyOfficeDoc (55296 :: str ".docx") = true
  /\ getBestPreviewUrl URL_std (with_url (55296 :: str ".docx")) = Thrown URIError.
Proof. vm_compute. split; reflexivity. Qed.

Example preview_throws_parseable :
  getBestPreviewUrl URL_std
    (with_url (str "https://cdn.example.edu/report" ++ 55357 :: str ".docx"))
  = Thrown URIError.
Proof. vm_compute. reflexivity. Qed.

Example preview_scenarios :
  getBestPreviewUrl URL_std (with_url (str "https://example.edu"))
  = Returned {| kind := Klink; preview_url := str "https://example.edu" |}
  /\ getBestPreviewUrl URL_std (with_url (str "https://h.edu/notes.pdf"))
     = Returned {| kind := Kpdf; preview_url := str "https://h.edu/notes.pdf" |}
  /\ getBestPreviewUrl URL_std (with_url (str "   "))
     = Returned {| kind := Knone; preview_url := [] |}
  /\ getBestPreviewUrl URL_std (with_url (str "::not a url::"))
     = Returned {| kind := Klink; preview_url := str "::not a url::" |}
  /\ getBestPreviewUrl URL_std
       (with_url (str "https://drive.google.com/file/d/XYZ/view"))
     = Returned {| kind := Kiframe;
                   preview_url := str "https://drive.google.com/file/d/XYZ/preview" |}
  /\ getBestPreviewUrl URL_std (with_url (str "https://vimeo.com/12345"))
     = Returned {| kind := Kiframe;
                   preview_url := str "https://player.vimeo.com/video/12345" |}
  /\ getBestPreviewUrl URL_std (with_url (str "https://h.edu/week1.docx?dl=1"))
     = Returned {| kind := Kiframe;
                   preview_url :=
                     str "https://view.officeapps.live.com/op/embed.aspx?src=https%3A%2F%2Fh.edu%2Fweek1.docx%3Fdl%3D1" |}.
Proof. vm_compute. repeat split; reflexivity. Qed.

(** *** YouTube *)


Lemma getBestPreviewUrl_youTube URL_new r e :
  isYouTubeUrl (previewCandidate r) = true ->
  getYouTubeEmbedUrl URL_new (previewCandidate r) = Some e -> e <> [] ->
  getBestPreviewUrl URL_new r = Returned {| kind := Kiframe; preview_url := e |}.
Proof.
  intros Hy He Hne. unfold getBestPreviewUrl.
  destruct (previewCandidate r) as [ | c0 c] eqn:Ec; [discriminate Hy | ].
  cbn [nonEmpty negb]. rewrite Hy, He. destruct e; [congruence | reflexivity].
Qed.

(** C4 (as amended). For a candidate that matches the YouTube host pattern
    and parses as a URL: a [youtu.be] URL with id [i] in its path, or any
    other one with a non-empty query parameter [v=i], resolves to an iframe
    on [https://www.youtube.com/embed/i]; a URL with neither whose path
    contains [/embed/] resolves to an iframe on the candidate itself,
    unchanged. *)
Theorem C4_youtube_embed
  (URL_new : jsstring -> option URL) (r : Resource) (u : URL) :
  isYouTubeUrl (previewCandidate r) = true ->
  URL_new (previewCandidate r) = Some u ->
  (forall i, includes (hostname u) (str "youtu.be") = true ->
             replace_first 47 (pathname u) = i -> i <> [] ->
             getBestPreviewUrl URL_new r
             = Returned {| kind := Kiframe; preview_url := youTubeEmbed i |})
  /\ (forall i, includes (hostname u) (str "youtu.be") = false ->
                searchParams_get u (str "v") = Some i -> i <> [] ->
                getBestPreviewUrl URL_new r
                = Returned {| kind := Kiframe; preview_url := youTubeEmbed i |})
  /\ (includes (hostname u) (str "youtu.be") = false ->
      truthy (searchParams_get u (str "v")) = false ->
      includes (pathname u) (str "/embed/") = true ->
      getBestPreviewUrl URL_new r
      = Returned {| kind := Kiframe; preview_url := previewCandidate r |}).
Proof.
  intros Hy Hu. split; [ | split].
  - intros i Hh Hi Hne. apply getBestPreviewUrl_youTube; [exact Hy | | ].
    + unfold getYouTubeEmbedUrl. rewrite Hu, Hh, Hi.
      destruct i; [congruence | reflexivity].
    + unfold youTubeEmbed. cbn. discriminate.
  - intros i Hh Hv Hne. apply getBestPreviewUrl_youTube; [exact Hy | | ].
    + unfold getYouTubeEmbedUrl. rewrite Hu, Hh, Hv.
      destruct i; [congruence | reflexivity].
    + unfold youTubeEmbed. cbn. discriminate.
  - intros Hh Hv He. apply getBestPreviewUrl_youTube; [exact Hy | | ].
    + unfold getYouTubeEmbedUrl. rewrite Hu, Hh, He.
      destruct (searchParams_get u (str "v")) as [[ | ? ?] | ];
        [reflexivity | discriminate Hv | reflexivity].
    + intros E. rewrite E in Hy. discriminate Hy.
Qed.

Lemma C4_youtube_embed_witness :
  getBestPreviewUrl URL_std (with_url (str "https://youtu.be/abc123"))
  = Returned {| kind := Kiframe;
                preview_url := str "https://www.youtube.com/embed/abc123" |}.
Proof.
  refine (proj1 (C4_youtube_embed URL_std
                   (with_url (str "https://youtu.be/abc123"))
                   {| hostname := str "youtu.be"; pathname := str "/abc123";
                      searchParams_get := fun _ => None |}
                   eq_refl eq_refl)
                (str "abc123") eq_refl eq_refl _).
  discriminate.
Defined.

(** C4 as stated fails on the [/embed/] pattern, where the URL is returned
    as it was given and not rewritten to the canonical host, and on a
    [youtu.be/<id>] string without a scheme, which does not parse. *)
Lemma C4_not_always_canonical_embed :
  (isYouTubeUrl (str "https://youtube.com/embed/abc123") = true
   /\ getBestPreviewUrl URL_std (with_url (str "https://youtube.com/embed/abc123"))
      = Returned {| kind := Kiframe;
                    preview_url := str "https://youtube.com/embed/abc123" |}
   /\ getBestPreviewUrl URL_std (with_url (str "https://youtube.com/embed/abc123"))
      <> Returned {| kind := Kiframe;
                     preview_url := str "https://www.youtube.com/embed/abc123" |})
  /\ (isYouTubeUrl (str "youtu.be/abc123") = true
      /\ getBestPreviewUrl URL_std (with_url (str "youtu.be/abc123"))
         = Returned {| kind := Klink; preview_url := str "youtu.be/abc123" |}
      /\ getBestPreviewUrl URL_std (with_url (str "youtu.be/abc123"))
         <> Returned {| kind := Kiframe;
                        preview_url := str "https://www.youtube.com/embed/abc123" |}).
Proof. vm_compute. repeat split; try reflexivity; discriminate. Qed.

(** On a [youtu.be] host the query is not looked at: without an id in the
    path no embed URL is derived, whatever [v] holds. *)
Example youtube_short_host_ignores_v :
  isYouTubeUrl (str "https://youtu.be/?v=abc") = true
  /\ getBestPreviewUrl URL_std (with_url (str "https://youtu.be/?v=abc"))
     = Returned {| kind := Klink; preview_url := str "https://youtu.be/?v=abc" |}.
Proof. vm_compute. split; reflexivity. Qed.

Example youtube_watch :
  getBestPreviewUrl URL_std
    (with_url (str "https://www.youtube.com/watch?v=abc123&t=10"))
  = Returned {| kind := Kiframe;
                preview_url := str "https://www.youtube.com/embed/abc123" |}.
Proof. vm_compute. reflexivity. Qed.

(** *** Candidates that do not parse *)

Lemma getBestPreviewUrl_unparseable URL_new r :
  previewCandidate r <> [] -> URL_new (previewCandidate r) = None ->
  getBestPreviewUrl URL_new r = previewByExtension (previewCandidate r).
Proof.
  intros Hc Hu. unfold getBestPreviewUrl. apply nonEmpty_true in Hc.
  rewrite Hc. cbn [negb].
  unfold getYouTubeEmbedUrl, getVimeoEmbedUrl, getGoogleDrivePreviewUrl.
  rewrite Hu. destruct (isYouTubeUrl _), (isVimeoUrl _); reflexivity.
Qed.

(** C10 (as amended). For a candidate that matches the YouTube or Vimeo
    host pattern but does not parse as an absolute URL, no embed URL is
    derived and the extension rules decide, in their order: an office
    extension gives an iframe on the office viewer URL of the candidate,
    provided the candidate has no lone surrogate; a pdf, image or video
    extension gives that kind with the candidate itself; and a candidate
    with none of these extensions is returned as a link. *)
Theorem C10_unparseable_video_host
  (URL_new : jsstring -> option URL) (r : Resource) :
  isYouTubeUrl (previewCandidate r) || isVimeoUrl (previewCandidate r) = true ->
  URL_new (previewCandidate r) = None ->
  let c := previewCandidate r in
  getYouTubeEmbedUrl URL_new c = None /\ getVimeoEmbedUrl URL_new c = None
  /\ (isProbablyOfficeDoc c = true -> isWellFormed c = true ->
      exists e, encodeURIComponent c = Returned e
                /\ getBestPreviewUrl URL_new r
                   = Returned {| kind := Kiframe;
                                 preview_url :=
                                   str "https://view.officeapps.live.com/op/embed.aspx?src="
                                   ++ e |})
  /\ (isProbablyOfficeDoc c = false -> isPdf c = true ->
      getBestPreviewUrl URL_new r = Returned {| kind := Kpdf; preview_url := c |})
  /\ (isProbablyOfficeDoc c = false -> isPdf c = false -> isImage c = true ->
      getBestPreviewUrl URL_new r = Returned {| kind := Kimage; preview_url := c |})
  /\ (isProbablyOfficeDoc c = false -> isPdf c = false -> isImage c = false ->
      isVideoFile c = true ->
      getBestPreviewUrl URL_new r = Returned {| kind := Kvideo; preview_url := c |})
  /\ (isProbablyOfficeDoc c = false -> isPdf c = false -> isImage c = false ->
      isVideoFile c = false ->
      getBestPreviewUrl URL_new r = Returned {| kind := Klink; preview_url := c |}).
Proof.
  intros Hm Hu c.
  assert (Hc : previewCandidate r <> []).
  { intros E. rewrite E in Hm. discriminate Hm. }
  pose proof (getBestPreviewUrl_unparseable URL_new r Hc Hu) as E. fold c in E.
  rewrite E. unfold getYouTubeEmbedUrl, getVimeoEmbedUrl, previewByExtension.
  subst c. rewrite Hu.
  split; [reflexivity | split; [reflexivity | ]].
  split; [ | split; [ | split; [ | split]]].
  - intros Ho Hwf. rewrite Ho. unfold getOfficeViewerUrl.
    destruct (encodeURIComponent_wellFormed _ Hwf) as [e He]. exists e.
    split; [exact He | ]. now rewrite He.
  - intros Ho Hp. now rewrite Ho, Hp.
  - intros Ho Hp Hi. now rewrite Ho, Hp, Hi.
  - intros Ho Hp Hi Hf. now rewrite Ho, Hp, Hi, Hf.
  - intros Ho Hp Hi Hf. now rewrite Ho, Hp, Hi, Hf.
Qed.

Lemma C10_unparseable_video_host_witness :
  getBestPreviewUrl URL_std (with_url (str "youtu.be/abc123"))
  = Returned {| kind := Klink; preview_url := str "youtu.be/abc123" |}.
Proof.
  exact (proj2 (proj2 (proj2 (proj2 (proj2 (proj2
           (C10_unparseable_video_host URL_std
              (with_url (str "youtu.be/abc123")) eq_refl eq_refl))))))
           eq_refl eq_refl eq_refl eq_refl).
Defined.

(** With an office extension and a lone surrogate the candidate is the one
    on which the viewer URL cannot be built. *)
Example unparseable_video_host_lone_surrogate :
  isYouTubeUrl (str "youtu.be/" ++ 55296 :: str ".docx") = true
  /\ URL_std (str "youtu.be/" ++ 55296 :: str ".docx") = None
  /\ getBestPreviewUrl URL_std (with_url (str "youtu.be/" ++ 55296 :: str ".docx"))
     = Thrown URIError.
Proof. vm_compute. repeat split; reflexivity. Qed.

(** C10 as stated fails when the unparseable candidate ends in a recognised
    extension: it is previewed by that rule, for an office document even in
    an iframe. *)
Lemma C10_unparseable_with_extension :
  (isYouTubeUrl (str "youtu.be/notes.pdf") = true
   /\ URL_std (str "youtu.be/notes.pdf") = None
   /\ getBestPreviewUrl URL_std (with_url (str "youtu.be/notes.pdf"))
      = Returned {| kind := Kpdf; preview_url := str "youtu.be/notes.pdf" |}
   /\ getBestPreviewUrl URL_std (with_url (str "youtu.be/notes.pdf"))
      <> Returned {| kind := Klink; preview_url := str "youtu.be/notes.pdf" |})
  /\ (isVimeoUrl (str "vimeo.com/a.pptx") = true
      /\ URL_std (str "vimeo.com/a.pptx") = None
      /\ getBestPreviewUrl URL_std (with_url (str "vimeo.com/a.pptx"))
         = Returned {| kind := Kiframe;
                       preview_url :=
                         str "https://view.officeapps.live.com/op/embed.aspx?src=vimeo.com%2Fa.pptx" |}
      /\ getBestPreviewUrl URL_std (with_url (str "vimeo.com/a.pptx"))
         <> Returned {| kind := Klink; preview_url := str "vimeo.com/a.pptx" |}).
Proof. vm_compute. repeat split; try reflexivity; discriminate. Qed.


(* ===================================================================== *)
(** * Further properties of the handlers                                  *)
(* ===================================================================== *)

(** ** Lists *)

Lemma NoDup_firstn_js (n : nat) (l : list jsstring) :
  List.NoDup l -> List.NoDup (firstn n l).
Proof.
  revert n. induction l as [ | x l IH]; intros [ | n] H; cbn; try constructor.
  - apply NoDup_cons_iff in H. destruct H as [Hx H].
    intros Hin. apply Hx. revert Hin. generalize n. clear.
    induction l as [ | y l IH]; intros [ | n]; cbn; try tauto.
    intros [-> | H]; [now left | right; eauto].
  - apply IH. now apply NoDup_cons_iff in H.
Qed.

Lemma In_firstn {A} (n : nat) (l : list A) x : In x (firstn n l) -> In x l.
Proof.
  revert n. induction l as [ | y l IH]; intros [ | n]; cbn; try tauto.
  intros [-> | H]; [now left | right; eauto].
Qed.

Lemma NoDup_remove_js (i : jsstring) (l : list jsstring) :
  List.NoDup l ->
  List.NoDup (List.filter (fun j => negb (jsstring_eqb j i)) l).
Proof.
  induction 1 as [ | x l Hx Hnd IH]; cbn; [constructor | ].
  destruct (negb (jsstring_eqb x i)); [ | exact IH].
  constructor; [ | exact IH]. rewrite filter_In. tauto.
Qed.

Lemma remove_js_In (i x : jsstring) (l : list jsstring) :
  In x (List.filter (fun j => negb (jsstring_eqb j i)) l) <-> In x l /\ x <> i.
Proof. rewrite filter_In, negb_true_iff, jsstring_eqb_neq. tauto. Qed.

(** ** Recently viewed *)

Lemma pushRecent_step i prev :
  List.NoDup prev ->
  List.NoDup (pushRecent i prev) /\ (length (pushRecent i prev) <= 5)%nat
  /\ List.head (pushRecent i prev) = Some i.
Proof.
  intros Hnd. unfold pushRecent. split; [ | split].
  - apply NoDup_firstn_js. constructor; [ | now apply NoDup_remove_js].
    rewrite remove_js_In. tauto.
  - apply firstn_le_length.
  - reflexivity.
Qed.

(** X1. Whatever resources are opened, in whatever order, the "recently
    viewed" list never holds an id twice, never holds more than five ids,
    holds only ids that were opened, and starts with the resource opened
    last. *)
Theorem recent_list_invariant (clicks : list jsstring) :
  let recent := fold_left (fun prev i => pushRecent i prev) clicks [] in
  List.NoDup recent
  /\ (length recent <= 5)%nat
  /\ (forall i, In i recent -> In i clicks)
  /\ List.head recent = List.head (rev clicks).
Proof.
  cbv zeta. induction clicks as [ | i l IH] using rev_ind.
  - repeat split; [constructor | cbn; lia | tauto].
  - rewrite fold_left_app, rev_app_distr. cbn [fold_left rev app].
    destruct IH as [Hnd [Hlen [Hin Hhd]]].
    destruct (pushRecent_step i _ Hnd) as [H1 [H2 H3]].
    repeat split; try assumption.
    intros j Hj. unfold pushRecent in Hj. apply In_firstn in Hj.
    apply in_or_app. destruct Hj as [<- | Hj]; [right; now left | ].
    apply remove_js_In in Hj. left. apply Hin. tauto.
Qed.

(** ** Catalog updates *)


Lemma handleBatchUpdateResources_ids us rs :
  map id (handleBatchUpdateResources us rs) = map id rs.
Proof.
  unfold handleBatchUpdateResources. rewrite map_map. apply map_ext. intros r.
  destruct (Map_by_id us !! id r) as [u | ] eqn:E; [ | reflexivity].
  now apply Map_by_id_Some in E.
Qed.

Lemma Map_by_id_snoc us u :
  Map_by_id (us ++ [u]) = <[id u := u]> (Map_by_id us).
Proof. unfold Map_by_id. now rewrite fold_left_app. Qed.

Lemma handleBatchUpdateResources_snoc us u rs :
  handleBatchUpdateResources (us ++ [u]) rs
  = handleUpdateResource u (handleBatchUpdateResources us rs).
Proof.
  unfold handleBatchUpdateResources, handleUpdateResource.
  rewrite map_map. apply map_ext. intros r. rewrite Map_by_id_snoc.
  destruct (jsstring_eqb
              (id match Map_by_id us !! id r with Some u0 => u0 | None => r end)
              (id u)) eqn:E.
  - apply jsstring_eqb_eq in E.
    assert (Hid : id u = id r).
    { rewrite <- E. destruct (Map_by_id us !! id r) as [w | ] eqn:L;
        [now apply Map_by_id_Some in L | reflexivity]. }
    now rewrite Hid, lookup_insert_eq.
  - apply jsstring_eqb_neq in E.
    assert (Hid : id u <> id r).
    { intros Hid. apply E. rewrite Hid.
      destruct (Map_by_id us !! id r) as [w | ] eqn:L;
        [now apply Map_by_id_Some in L | reflexivity]. }
    now rewrite lookup_insert_ne.
Qed.

(** X2. A batch update is the same as applying the single-resource update
    for each entry of the batch in order, so of several entries with one id
    the last one counts; it never adds, removes or reorders resources, and
    an entry whose id is not in the catalog changes nothing. *)
Theorem batch_update_is_sequence_of_updates (us rs : list Resource) :
  handleBatchUpdateResources us rs
  = fold_left (fun acc u => handleUpdateResource u acc) us rs
  /\ map id (handleBatchUpdateResources us rs) = map id rs
  /\ (forall u, ~ In (id u) (map id rs) -> handleUpdateResource u rs = rs).
Proof.
  split; [ | split].
  - induction us as [ | u us IH] using rev_ind.
    + unfold handleBatchUpdateResources. cbn. rewrite <- (map_id rs) at 2.
      apply map_ext. intros r. unfold Map_by_id. cbn. now rewrite lookup_empty.
    + now rewrite handleBatchUpdateResources_snoc, fold_left_app, <- IH.
  - apply handleBatchUpdateResources_ids.
  - intros u Hu. unfold handleUpdateResource. rewrite <- (map_id rs) at 2.
    apply map_ext_in. intros r Hr.
    destruct (jsstring_eqb (id r) (id u)) eqn:E; [ | reflexivity].
    apply jsstring_eqb_eq in E. exfalso. apply Hu. rewrite <- E. now apply in_map.
Qed.

(** ** Bookmarks *)


Lemma Set_delete_In s x y : In y (Set_delete s x) <-> In y s /\ y <> x.
Proof. apply remove_js_In. Qed.


Lemma handleIncrementView_ids i rs : map id (handleIncrementView i rs) = map id rs.
Proof.
  unfold handleIncrementView. rewrite map_map. apply map_ext. intros r.
  now destruct (jsstring_eqb (id r) i).
Qed.

Lemma handleIncrementDownload_ids i rs :
  map id (handleIncrementDownload i rs) = map id rs.
Proof.
  unfold handleIncrementDownload. rewrite map_map. apply map_ext. intros r.
  now destruct (jsstring_eqb (id r) i).
Qed.



(** ** Deleting, viewing, uploading *)

Lemma filter_filter_comm {A} (p q : A -> bool) (l : list A) :
  List.filter p (List.filter q l) = List.filter q (List.filter p l).
Proof.
  induction l as [ | x l IH]; [reflexivity | ].
  cbn. destruct (p x) eqn:P, (q x) eqn:Q; cbn; rewrite ?P, ?Q, IH; reflexivity.
Qed.

(** X4. After a resource is deleted no resource of the catalog has its
    id, and every filter result and every list of related resources is the
    former one without the resources of that id, in the same order. The
    bookmarks are written from the set that the handler's render saw: when
    that set held the id, the new bookmarks are that set without the id,
    which is the current set without the id when the bookmarks have not
    changed since; when it did not, the bookmarks are left as they are. *)
Theorem delete_resource_everywhere
  (toLowerCase : jsstring -> jsstring) (seen : list jsstring) (i : jsstring)
  (l : Library) :
  let l' := handleDeleteResource seen i l in
  ~ In i (map id (catalog l'))
  /\ (forall r, In r (catalog l') <-> In r (catalog l) /\ id r <> i)
  /\ (forall f,
        filteredResources toLowerCase (catalog l') f
        = List.filter (fun r => negb (jsstring_eqb (id r) i))
                      (filteredResources toLowerCase (catalog l) f))
  /\ (forall r,
        relatedResources (catalog l') r
        = List.filter (fun x => negb (jsstring_eqb (id x) i))
                      (relatedResources (catalog l) r))
  /\ (In i seen -> forall b, In b (bookmarks l') <-> In b seen /\ b <> i)
  /\ (~ In i seen -> bookmarks l' = bookmarks l)
  /\ (seen = bookmarks l ->
      forall b, In b (bookmarks l') <-> In b (bookmarks l) /\ b <> i).
Proof.
  cbv zeta. unfold handleDeleteResource. cbn [catalog bookmarks].
  split; [ | split; [ | split; [ | split; [ | split; [ | split]]]]].
  - rewrite in_map_iff. intros [r [E Hr]]. apply filter_In in Hr.
    destruct Hr as [_ Hr]. apply negb_true_iff, jsstring_eqb_neq in Hr. congruence.
  - intros r. now rewrite filter_In, negb_true_iff, jsstring_eqb_neq.
  - intros f. unfold filteredResources. apply filter_filter_comm.
  - intros r. unfold relatedResources. apply filter_filter_comm.
  - intros Hi b. apply Array_includes_In in Hi. unfold Set_has. rewrite Hi.
    apply Set_delete_In.
  - intros Hi. apply Array_includes_not_In in Hi. unfold Set_has. now rewrite Hi.
  - intros -> b. unfold Set_has. destruct (Array_includes (bookmarks l) i) eqn:E.
    + apply Set_delete_In.
    + apply Array_includes_not_In in E. split; [ | tauto].
      intros Hb. split; [exact Hb | ]. intros ->. contradiction.
Qed.

Lemma matchesFilter_with_views lower f r v :
  matchesFilter lower f (with_views r v) = matchesFilter lower f r.
Proof. reflexivity. Qed.

Lemma filter_map_comm {A} (p : A -> bool) (g : A -> A) (l : list A) :
  (forall x, p (g x) = p x) ->
  List.filter p (map g l) = map g (List.filter p l).
Proof.
  intros H. induction l as [ | x l IH]; [reflexivity | ].
  cbn. rewrite H. destruct (p x); cbn; now rewrite IH.
Qed.

Lemma roundNumber_exact z : (Z.abs z <= 2 ^ 53)%Z -> roundNumber z = z.
Proof.
  intros H. unfold roundNumber. apply Z.leb_le in H. now rewrite H.
Qed.

Lemma Number_succ_exact n :
  (- 2 ^ 53 <= n < 2 ^ 53)%Z -> Number_succ n = (n + 1)%Z.
Proof. intros H. apply roundNumber_exact. lia. Qed.

Example roundNumber_ex :
  map roundNumber [2 ^ 53 + 1; 2 ^ 53 + 2; 2 ^ 53 + 3; 2 ^ 54 + 2; 2 ^ 54 + 3;
                   - (2 ^ 53) - 1; 2 ^ 60 + 1]%Z
  = [2 ^ 53; 2 ^ 53 + 2; 2 ^ 53 + 4; 2 ^ 54; 2 ^ 54 + 4; - (2 ^ 53); 2 ^ 60]%Z.
Proof. vm_compute. reflexivity. Qed.

(** X5. Counting a view changes only the view counter of the resources
    with the given id: ids, order and every other field stay, so each
    filter result holds the same resources as before. The counter grows by
    one as long as it is below 2^53; at 2^53 the sum is rounded back and
    the counter stays. While the counters concerned are below 2^53, the
    views of the whole catalog grow by the number of resources with that
    id. *)
Theorem increment_view_only_counts
  (toLowerCase : jsstring -> jsstring) (i : jsstring) (rs : list Resource) :
  map id (handleIncrementView i rs) = map id rs
  /\ (forall f,
        filteredResources toLowerCase (handleIncrementView i rs) f
        = handleIncrementView i (filteredResources toLowerCase rs f))
  /\ map (fun r => with_views r 0) (handleIncrementView i rs)
     = map (fun r => with_views r 0) rs
  /\ map views (handleIncrementView i rs)
     = map (fun r => if jsstring_eqb (id r) i
                     then roundNumber (views r + 1) else views r) rs
  /\ (forall n, (- 2 ^ 53 <= n < 2 ^ 53)%Z -> roundNumber (n + 1) = (n + 1)%Z)
  /\ roundNumber (2 ^ 53 + 1) = (2 ^ 53)%Z
  /\ ((forall r, In r rs -> id r = i -> (0 <= views r < 2 ^ 53)%Z) ->
      totalViews (handleIncrementView i rs)
      = (totalViews rs
         + Z.of_nat (length (List.filter (fun r => jsstring_eqb (id r) i) rs)))%Z).
Proof.
  split; [apply handleIncrementView_ids | ].
  split; [ | split; [ | split; [ | split; [ | split]]]].
  - intros f. unfold filteredResources, handleIncrementView.
    apply filter_map_comm. intros r.
    destruct (jsstring_eqb (id r) i); reflexivity.
  - unfold handleIncrementView. rewrite map_map. apply map_ext. intros r.
    destruct (jsstring_eqb (id r) i); reflexivity.
  - unfold handleIncrementView. rewrite map_map. apply map_ext. intros r.
    destruct (jsstring_eqb (id r) i); reflexivity.
  - exact Number_succ_exact.
  - vm_compute. reflexivity.
  - induction rs as [ | r rs IH]; intros Hsafe; [reflexivity | ].
    cbn [handleIncrementView map totalViews fold_right List.filter].
    fold (handleIncrementView i rs). fold (totalViews (handleIncrementView i rs)).
    fold (totalViews rs). rewrite IH by (intros x Hx; apply Hsafe; now right).
    destruct (jsstring_eqb (id r) i) eqn:E; [ | lia].
    apply jsstring_eqb_eq in E. cbn [views with_views length].
    rewrite Number_succ_exact; [lia | ].
    specialize (Hsafe r (or_introl eq_refl) E). lia.
Qed.

(** X6. An uploaded resource enters the catalog in front with both
    counters at zero, whatever counters it arrived with; it is therefore
    never in the popular ranking, which is the same before and after the
    upload. *)
Theorem upload_keeps_popular_ranking (r : Resource) (rs : list Resource) :
  popularResources (handleUpload r rs) = popularResources rs
  /\ (exists r', handleUpload r rs = r' :: rs
                 /\ views r' = 0%Z /\ downloads r' = 0%Z
                 /\ with_downloads (with_views r 0) 0 = r')
  /\ forall f, popularSection (handleUpload r rs) f = popularSection rs f.
Proof.
  assert (H : popularResources (handleUpload r rs) = popularResources rs).
  { unfold popularResources, handleUpload. cbn [List.filter].
    replace (isPopular (with_downloads (with_views r 0) 0)) with false;
      [reflexivity | ].
    unfold isPopular. cbn. now rewrite andb_false_r. }
  split; [exact H | split].
  - eexists. repeat split.
  - intros f. unfold popularSection. now rewrite H.
Qed.

(** ** Selections and filters *)

Lemma toggleSubjectFilter_In s prev x :
  In x (toggleSubjectFilter s prev) <->
  (In x prev /\ x <> s) \/ (x = s /\ ~ In s prev).
Proof.
  unfold toggleSubjectFilter. destruct (Array_includes prev s) eqn:E.
  - apply Array_includes_In in E. rewrite remove_js_In. tauto.
  - apply Array_includes_not_In in E. rewrite in_app_iff. cbn. split.
    + intros [H | [<- | []]]; [left | right]; split; auto. intros ->. contradiction.
    + intros [[H _] | [-> _]]; auto.
Qed.

Lemma toggleSubjectFilter_twice s prev x :
  In x (toggleSubjectFilter s (toggleSubjectFilter s prev)) <-> In x prev.
Proof.
  rewrite (toggleSubjectFilter_In s (toggleSubjectFilter s prev) x).
  rewrite (toggleSubjectFilter_In s prev x), (toggleSubjectFilter_In s prev s).
  destruct (jsstring_eq_dec x s) as [-> | Hne];
    destruct (in_dec jsstring_eq_dec s prev); tauto.
Qed.

Lemma same_members_nil (a b : list jsstring) :
  (forall x, In x a <-> In x b) ->
  (length a =? 0)%nat = (length b =? 0)%nat.
Proof.
  intros H. destruct a as [ | x a], b as [ | y b]; try reflexivity; exfalso.
  - apply (proj2 (H y)). now left.
  - apply (proj1 (H x)). now left.
Qed.

Lemma same_members_includes (a b : list jsstring) x :
  (forall x, In x a <-> In x b) -> Array_includes a x = Array_includes b x.
Proof.
  intros H. destruct (Array_includes b x) eqn:E.
  - apply Array_includes_In. apply H. now apply Array_includes_In.
  - apply Array_includes_not_In. rewrite H. now apply Array_includes_not_In.
Qed.

Lemma matchesFilter_same_subjects lower f ss ss' r :
  (forall x, In x ss <-> In x ss') ->
  matchesFilter lower (with_subjects f ss) r
  = matchesFilter lower (with_subjects f ss') r.
Proof.
  intros H. unfold matchesFilter, with_subjects.
  cbn [searchTerm activeFilter selectedSubjects selectedLevel].
  now rewrite (same_members_nil _ _ H), (same_members_includes _ _ (subject r) H).
Qed.

(** X7. Toggling a subject in the sidebar (and likewise a related resource
    in the admin form) selects it when it was not selected and otherwise
    removes it, leaving the other selected entries alone and never creating
    a duplicate; toggling the same subject twice gives back the same
    selection as a set, and with it the same filter result. *)
Theorem toggle_subject_twice_same_filter
  (toLowerCase : jsstring -> jsstring) (s : jsstring) (ss : list jsstring) :
  (forall x, In x (toggleSubjectFilter s ss) <->
             (In x ss /\ x <> s) \/ (x = s /\ ~ In s ss))
  /\ (forall x, In x (handleRelatedToggle s ss) <->
                (In x ss /\ x <> s) \/ (x = s /\ ~ In s ss))
  /\ (List.NoDup ss -> List.NoDup (toggleSubjectFilter s ss))
  /\ (forall x, In x (toggleSubjectFilter s (toggleSubjectFilter s ss)) <-> In x ss)
  /\ (forall rs f,
        filteredResources toLowerCase rs
          (with_subjects f (toggleSubjectFilter s (toggleSubjectFilter s ss)))
        = filteredResources toLowerCase rs (with_subjects f ss)).
Proof.
  split; [ | split; [ | split; [ | split]]].
  - intros x. apply toggleSubjectFilter_In.
  - intros x. apply toggleSubjectFilter_In.
  - intros Hnd. unfold toggleSubjectFilter.
    destruct (Array_includes ss s) eqn:E; [now apply NoDup_remove_js | ].
    apply Array_includes_not_In in E.
    apply (Permutation.Permutation_NoDup (l := s :: ss)).
    + apply Permutation_cons_append.
    + now constructor.
  - intros x. apply toggleSubjectFilter_twice.
  - intros rs f. unfold filteredResources. apply filter_ext. intros r.
    apply matchesFilter_same_subjects. intros x. apply toggleSubjectFilter_twice.
Qed.

(** X8. In the empty-result panel of a catalog that is not empty, "Clear
    all filters" is offered exactly when the view is not the default view;
    the button leads to the default view, where it is no longer offered and
    the grid shows every online resource again. *)
Theorem clear_filters_restores_default (f : FilterState) (rs : list Resource) :
  offersClearFilters f rs = negb (isDefaultView f) && (0 <? length rs)%nat
  /\ isDefaultView (clearAllFilters f) = true
  /\ offersClearFilters (clearAllFilters f) rs = false
  /\ forall toLowerCase,
       toLowerCase [] = [] ->
       filteredResources toLowerCase rs (clearAllFilters f)
       = List.filter (fun r => Status_eqb (status r) online) rs.
Proof.
  split; [ | split; [ | split]]; try reflexivity.
  - unfold offersClearFilters, isDefaultView. f_equal.
    destruct (nonEmpty (searchTerm f)), (jsstring_eqb (activeFilter f) All),
      (selectedSubjects f), (jsstring_eqb (selectedLevel f) All); reflexivity.
  - intros lower Hl. unfold filteredResources. apply filter_ext. intros r.
    apply (matchesFilter_default lower Hl).
Qed.

(** ** Magnifier *)

Lemma magnifier_step_range m i : zoomInRange m -> zoomInRange (magnifier_step m i).
Proof.
  unfold zoomInRange. intros [Hr Hm]. destruct i as [e | ]; cbn [magnifier_step].
  - unfold handleKeyDown.
    destruct ((metaKey e || ctrlKey e) && jsstring_eqb (key e) (str "k"));
      [tauto | ].
    destruct (negb (isMagnifierActive m)); [tauto | ].
    destruct (jsstring_eqb (key e) (str "ArrowUp")
              || jsstring_eqb (key e) (str "ArrowRight")).
    { cbn [zoomLevel].
      destruct (Z.min_spec (zoomLevel m + 10) 150) as [[Hlt ->] | [Hge ->]];
        (split; [lia | ]); [ | reflexivity].
      revert Hm. Z.div_mod_to_equations. lia. }
    destruct (jsstring_eqb (key e) (str "ArrowDown")
              || jsstring_eqb (key e) (str "ArrowLeft")).
    { cbn [zoomLevel].
      destruct (Z.max_spec (zoomLevel m - 10) 80) as [[Hlt ->] | [Hge ->]];
        (split; [lia | ]); [reflexivity | ].
      revert Hm. Z.div_mod_to_equations. lia. }
    destruct (jsstring_eqb (key e) (str "Escape")); [ | tauto].
    cbn [zoomLevel]. split; [lia | reflexivity].
  - cbn. tauto.
Qed.

(** X9. From the initial state, no sequence of key presses and uses of the
    magnifier switch takes the zoom level out of the range 80 to 150 or off
    the multiples of ten; and while the magnifier is off, arrow keys and
    Escape change nothing. *)
Theorem zoom_level_bounded (inputs : list MagnifierInput) :
  let m := fold_left magnifier_step inputs initialMagnifier in
  (80 <= zoomLevel m <= 150)%Z
  /\ (zoomLevel m mod 10 = 0)%Z
  /\ forall e, isMagnifierActive m = false -> handleKeyDown e m = m.
Proof.
  cbv zeta.
  assert (H : zoomInRange (fold_left magnifier_step inputs initialMagnifier)).
  { assert (H0 : zoomInRange initialMagnifier) by (split; [cbn; lia | reflexivity]).
    revert H0. generalize initialMagnifier.
    induction inputs as [ | i inputs IH]; intros m Hm; [exact Hm | ].
    cbn [fold_left]. apply IH. now apply magnifier_step_range. }
  destruct H as [H1 H2]. repeat split; try assumption; try lia.
  intros e Hoff. unfold handleKeyDown. rewrite Hoff. cbn [negb].
  now destruct ((metaKey e || ctrlKey e) && jsstring_eqb (key e) (str "k")).
Qed.

Example zoom_ex :
  let up := KeyDown {| metaKey := false; ctrlKey := false; key := str "ArrowUp" |} in
  let down := KeyDown {| metaKey := false; ctrlKey := false; key := str "ArrowLeft" |} in
  map (fun ins => zoomLevel (fold_left magnifier_step ins initialMagnifier))
      [ [up]; [Switch; up; up; up; up; up; up]; [Switch; down; down; down];
        [Switch; up; Switch; up] ]
  = [100; 150; 80; 110]%Z.
Proof. vm_compute. reflexivity. Qed.

(** ** Rankings *)

Lemma sorted_firstn_skipn {A} (R : A -> A -> Prop) (l : list A) n x y :
  StronglySorted R l -> In x (firstn n l) -> In y (skipn n l) -> R x y.
Proof.
  intros Hs. revert n. induction Hs as [ | a l Hs IH Ha]; intros [ | n]; cbn;
    try tauto.
  intros [<- | Hx] Hy.
  - apply (proj1 (List.Forall_forall _ _) Ha).
    rewrite <- (firstn_skipn n l). apply in_or_app. now right.
  - now apply (IH n).
Qed.

Lemma In_firstn_or_skipn {A} (l : list A) n y :
  In y l -> In y (firstn n l) \/ In y (skipn n l).
Proof. intros H. rewrite <- (firstn_skipn n l) in H. now apply in_app_or. Qed.

(** X10. Every resource of the popular ranking is an online resource of
    the catalog with a positive view counter; an online, viewed resource
    that is left out has no more views than any resource of the ranking;
    and, if the empty string is its own lower case, every resource of the
    ranking is also in the grid of the default view. *)
Theorem popular_ranking_is_top (rs : list Resource) (r : Resource) :
  In r (popularResources rs) ->
  In r rs /\ status r = online /\ (0 < views r)%Z
  /\ (forall r', In r' rs -> status r' = online -> (0 < views r')%Z ->
                 In r' (popularResources rs) \/ (views r' <= views r)%Z)
  /\ (forall toLowerCase, toLowerCase [] = [] ->
        In r (filteredResources toLowerCase rs defaultView)).
Proof.
  intros Hr. unfold popularResources in *.
  assert (Hin : In r (List.filter isPopular rs)).
  { apply In_firstn in Hr. now apply Array_sort_In in Hr. }
  apply filter_In in Hin. destruct Hin as [Hin Hp].
  unfold isPopular in Hp. apply andb_true_iff in Hp. destruct Hp as [Hs Hv].
  apply Z.ltb_lt in Hv.
  assert (Hon : status r = online) by (destruct (status r); [reflexivity | discriminate]).
  split; [exact Hin | split; [exact Hon | split; [exact Hv | split]]].
  - intros r' Hin' Hs' Hv'.
    assert (H' : In r' (Array_sort byViewsDesc (List.filter isPopular rs))).
    { apply Array_sort_In, filter_In. split; [exact Hin' | ].
      unfold isPopular. rewrite Hs'. cbn. now apply Z.ltb_lt. }
    destruct (In_firstn_or_skipn _ 4 _ H') as [H | H]; [now left | right].
    exact (sorted_firstn_skipn viewsAtLeast _ 4 r r' (popular_sorted _) Hr H).
  - intros lower Hl. unfold filteredResources. apply filter_In.
    split; [exact Hin | ]. rewrite (matchesFilter_default lower Hl). now rewrite Hon.
Qed.

Lemma popular_ranking_is_top_witness :
  In (sample "1" PDF "https://h.edu/a.pdf" ["exam-prep"; "ai"]%string online 5) catalog4
  /\ In (sample "1" PDF "https://h.edu/a.pdf" ["exam-prep"; "ai"]%string online 5)
        (filteredResources toLowerCase_ascii catalog4 defaultView).
Proof.
  pose proof (popular_ranking_is_top catalog4
    (sample "1" PDF "https://h.edu/a.pdf" ["exam-prep"; "ai"]%string online 5)
    (or_introl eq_refl)) as H.
  split; [exact (proj1 H) | ].
  exact (proj2 (proj2 (proj2 (proj2 H))) toLowerCase_ascii eq_refl).
Defined.

Lemma chartName_length t : (length (chartName t) <= 23)%nat.
Proof.
  unfold chartName. destruct (20 <? length t)%nat eqn:E.
  - apply Nat.ltb_lt in E. rewrite length_app, length_firstn.
    change (length (str "...")) with 3%nat. lia.
  - apply Nat.ltb_ge in E. lia.
Qed.

Lemma byViewsDesc_sorted l :
  StronglySorted viewsAtLeast (Array_sort byViewsDesc l).
Proof. apply popular_sorted. Qed.

(** X11. The "top viewed" chart lists at most five resources, exactly five
    when the catalog has that many, in descending order of views; every
    label is at most 23 code units long; and a resource of the catalog
    either has its own bar or has no more views than any resource shown. *)
Theorem top_viewed_chart (rs : list Resource) :
  length (topViewed rs) = Nat.min 5 (length rs)
  /\ Forall (fun e => (length (fst e) <= 23)%nat) (topViewed rs)
  /\ StronglySorted (fun a b => (snd b <= snd a)%Z) (topViewed rs)
  /\ (forall r e, In r rs -> In e (topViewed rs) ->
        In (chartName (title r), views r) (topViewed rs) \/ (views r <= snd e)%Z).
Proof.
  unfold topViewed. split; [ | split; [ | split]].
  - rewrite length_map, length_firstn.
    now rewrite (Permutation_length (Array_sort_perm byViewsDesc rs)).
  - apply List.Forall_forall. intros e He. apply in_map_iff in He.
    destruct He as [r [<- _]]. apply chartName_length.
  - assert (H : forall l, StronglySorted viewsAtLeast l ->
                StronglySorted (fun a b : jsstring * Z => (snd b <= snd a)%Z)
                  (map (fun r => (chartName (title r), views r)) l)).
    { induction 1 as [ | a l Hs IH Ha]; cbn; constructor; [exact IH | ].
      apply List.Forall_forall. intros e He. apply in_map_iff in He.
      destruct He as [r [<- Hr]]. cbn.
      exact (proj1 (List.Forall_forall _ _) Ha r Hr). }
    apply H. generalize (byViewsDesc_sorted rs). generalize (Array_sort byViewsDesc rs).
    intros l Hs. revert l Hs. generalize 5%nat.
    induction n as [ | n IH]; intros l Hs; [constructor | ].
    destruct Hs as [ | a l Hs Ha]; cbn; constructor.
    + now apply IH.
    + apply List.Forall_forall. intros x Hx. apply In_firstn in Hx.
      exact (proj1 (List.Forall_forall _ _) Ha x Hx).
  - intros r e Hr He. apply in_map_iff in He. destruct He as [r0 [<- Hr0]]. cbn.
    assert (H : In r (Array_sort byViewsDesc rs)) by now apply Array_sort_In.
    destruct (In_firstn_or_skipn _ 5 _ H) as [H1 | H1].
    + left. apply in_map_iff. now exists r.
    + right.
      exact (sorted_firstn_skipn viewsAtLeast _ 5 r0 r (byViewsDesc_sorted rs) Hr0 H1).
Qed.

(** ** The tags field of the admin form *)

Lemma trimStart_clean s : startsClean (trimStart s).
Proof.
  induction s as [ | c s IH]; cbn; [exact I | ].
  destruct (isWhiteSpace c) eqn:E; [exact IH | exact E].
Qed.

Lemma trimStart_of_clean s : startsClean s -> trimStart s = s.
Proof. destruct s as [ | c s]; cbn; [reflexivity | ]. now intros ->. Qed.

Lemma trimStart_suffix s : exists w, s = w ++ trimStart s.
Proof.
  induction s as [ | c s [w IH]]; cbn; [now exists [] | ].
  destruct (isWhiteSpace c).
  - exists (c :: w). cbn. now f_equal.
  - now exists [].
Qed.

Lemma startsClean_app_l a b : a <> [] -> startsClean (a ++ b) -> startsClean a.
Proof. destruct a; [congruence | cbn; auto]. Qed.

Lemma trim_clean_ends s :
  startsClean (trim s) /\ startsClean (rev (trim s)).
Proof.
  unfold trim, trimEnd. set (a := trimStart s). set (b := trimStart (rev a)).
  rewrite rev_involutive. split; [ | apply trimStart_clean].
  destruct (trimStart_suffix (rev a)) as [w Hw]. fold b in Hw.
  assert (Ha : a = rev b ++ rev w).
  { rewrite <- (rev_involutive a), Hw. apply rev_app_distr. }
  destruct b as [ | c b'] eqn:Eb; [exact I | ].
  apply (startsClean_app_l _ (rev w)).
  - cbn. intros E. apply app_eq_nil in E. destruct E; discriminate.
  - rewrite <- Ha. apply trimStart_clean.
Qed.

Lemma trim_of_clean_ends s :
  startsClean s -> startsClean (rev s) -> trim s = s.
Proof.
  intros H1 H2. unfold trim, trimEnd.
  now rewrite (trimStart_of_clean s H1), (trimStart_of_clean _ H2), rev_involutive.
Qed.

Lemma trim_idempotent s : trim (trim s) = trim s.
Proof. destruct (trim_clean_ends s). now apply trim_of_clean_ends. Qed.

Lemma In_trimStart c s : In c (trimStart s) -> In c s.
Proof.
  destruct (trimStart_suffix s) as [w Hw]. intros H. rewrite Hw.
  apply in_or_app. now right.
Qed.

Lemma In_trim c s : In c (trim s) -> In c s.
Proof.
  unfold trim, trimEnd. intros H. apply in_rev, In_trimStart in H.
  apply in_rev in H. now apply In_trimStart.
Qed.

Lemma trim_space t : trim (32 :: t) = trim t.
Proof. reflexivity. Qed.

Lemma split_nonnil sep s : split sep s <> [].
Proof.
  destruct s as [ | c s]; cbn; [discriminate | ].
  destruct (c =? sep); [discriminate | ]. destruct (split sep s); discriminate.
Qed.

Lemma split_app_sep sep a b :
  split sep (a ++ sep :: b) = split sep a ++ split sep b.
Proof.
  induction a as [ | c a IH]; cbn.
  - now rewrite N.eqb_refl.
  - destruct (c =? sep); [now rewrite IH | ].
    rewrite IH. pose proof (split_nonnil sep a) as Hn.
    destruct (split sep a); [congruence | reflexivity].
Qed.

Lemma split_no_sep sep a : ~ In sep a -> split sep a = [a].
Proof.
  induction a as [ | c a IH]; cbn; [reflexivity | ]. intros H.
  destruct (c =? sep) eqn:E; [apply N.eqb_eq in E; tauto | ].
  rewrite IH by tauto. reflexivity.
Qed.

Lemma split_parts_no_sep sep s p : In p (split sep s) -> ~ In sep p.
Proof.
  revert p. induction s as [ | c s IH]; cbn; intros p.
  - intros [<- | []]. tauto.
  - destruct (c =? sep) eqn:E.
    + intros [<- | H]; [tauto | now apply IH].
    + apply N.eqb_neq in E. pose proof (split_nonnil sep s) as Hn.
      destruct (split sep s) as [ | seg segs]; [congruence | ].
      intros [<- | H].
      * cbn. intros [H | H]; [congruence | ]. apply (IH seg); [now left | exact H].
      * apply IH. now right.
Qed.

Lemma processedTags_app_sep a b :
  processedTags (a ++ 44 :: b) = processedTags a ++ processedTags b.
Proof.
  unfold processedTags. now rewrite split_app_sep, map_app, List.filter_app.
Qed.

Lemma processedTags_clean t : cleanTag t -> processedTags t = [t].
Proof.
  intros [Hne [Hc Ht]]. unfold processedTags. rewrite (split_no_sep _ _ Hc).
  cbn. rewrite Ht. destruct t; [congruence | reflexivity].
Qed.

Lemma processedTags_space_clean t : cleanTag t -> processedTags (32 :: t) = [t].
Proof.
  intros [Hne [Hc Ht]]. unfold processedTags. rewrite split_no_sep.
  - cbn [map List.filter]. rewrite trim_space, Ht.
    destruct t; [congruence | reflexivity].
  - cbn. intros [H | H]; [discriminate | tauto].
Qed.

Lemma processedTags_nil : processedTags [] = [].
Proof. reflexivity. Qed.

Lemma join_cons_cons sep x y l :
  join sep (x :: y :: l) = x ++ sep ++ join sep (y :: l).
Proof. reflexivity. Qed.

Lemma processedTags_join ts :
  Forall cleanTag ts ->
  processedTags (join (str ", ") ts) = ts
  /\ (ts <> [] -> processedTags (32 :: join (str ", ") ts) = ts).
Proof.
  induction 1 as [ | t ts Ht Hts [IH1 IH2]]; [split; [reflexivity | congruence] | ].
  destruct ts as [ | t2 ts].
  - cbn [join]. split; [now apply processedTags_clean | ].
    intros _. now apply processedTags_space_clean.
  - rewrite join_cons_cons. change (str ", ") with [44; 32] at 1 3.
    cbn [app]. split; [ | intros _; rewrite app_comm_cons];
      rewrite processedTags_app_sep, IH2 by discriminate;
      [rewrite (processedTags_clean t Ht) | rewrite (processedTags_space_clean t Ht)];
      reflexivity.
Qed.

(** X12. Opening a resource for editing and saving it again gives back its
    tag list: for tags that are non-empty, free of commas and of white
    space at their ends, splitting the joined tags field yields the same
    tags in the same order. A resource without tags comes back with the
    single tag "uncategorized". *)
Theorem edit_tags_round_trip (r : Resource) :
  Forall cleanTag (tags r) ->
  processedTags (editTagsField r) = tags r
  /\ payloadTags (editTagsField r)
     = match tags r with [] => [str "uncategorized"] | _ => tags r end.
Proof.
  intros H. unfold editTagsField.
  pose proof (proj1 (processedTags_join (tags r) H)) as E.
  split; [exact E | ]. unfold payloadTags. rewrite E.
  destruct (tags r); reflexivity.
Qed.

Lemma edit_tags_round_trip_witness :
  processedTags (editTagsField
                   (sample "1" PDF "https://h.edu/a.pdf" ["exam-prep"; "ai"]%string online 5))
  = [str "exam-prep"; str "ai"].
Proof.
  refine (proj1 (edit_tags_round_trip
    (sample "1" PDF "https://h.edu/a.pdf" ["exam-prep"; "ai"]%string online 5) _)).
  repeat constructor; try discriminate; vm_compute; intuition discriminate.
Defined.

Lemma processedTags_cleanTag field t : In t (processedTags field) -> cleanTag t.
Proof.
  unfold processedTags. intros H. apply filter_In in H. destruct H as [H Hne].
  apply in_map_iff in H. destruct H as [p [<- Hp]].
  split; [now apply nonEmpty_true | split].
  - intros Hc. apply In_trim in Hc. now apply (split_parts_no_sep 44 field p).
  - apply trim_idempotent.
Qed.

(** X13. Whatever is typed in the tags field, the tag list of the saved
    payload is never empty, and each of its tags is non-empty, contains no
    comma and has no white space at either end; a field with nothing but
    commas and white space gives the single tag "uncategorized". *)
Theorem payload_tags_clean (tagsField : jsstring) :
  payloadTags tagsField <> []
  /\ Forall cleanTag (payloadTags tagsField)
  /\ (processedTags tagsField = [] -> payloadTags tagsField = [str "uncategorized"]).
Proof.
  unfold payloadTags. destruct (processedTags tagsField) as [ | t ts] eqn:E.
  - cbn. repeat split; try discriminate. repeat constructor; try discriminate.
    vm_compute. intuition discriminate.
  - cbn [length Nat.ltb Nat.leb]. repeat split; try discriminate.
    rewrite <- E. apply List.Forall_forall. intros x. apply processedTags_cleanTag.
Qed.

Example payloadTags_ex :
  payloadTags (str " ai ,, exam prep ,") = [str "ai"; str "exam prep"]
  /\ payloadTags (str " , ,") = [str "uncategorized"].
Proof. vm_compute. split; reflexivity. Qed.

(** X14. Picking an existing tag for the form appends it to the tags field
    unless the field already lists it: for a tag that is non-empty, free of
    commas and of white space at its ends, the tags read from the field
    afterwards are the former ones followed by the new tag, or the former
    ones when the tag was among them, so picking the same tag twice is the
    same as picking it once. *)
Theorem add_tag_once (tag tagsField : jsstring) :
  cleanTag tag ->
  processedTags (handleAddTag tag tagsField)
  = (if Array_includes (processedTags tagsField) tag
     then processedTags tagsField
     else processedTags tagsField ++ [tag])
  /\ handleAddTag tag (handleAddTag tag tagsField) = handleAddTag tag tagsField.
Proof.
  intros Hc.
  assert (Hne : nonEmpty tag = true) by (apply nonEmpty_true; apply Hc).
  assert (E : processedTags (handleAddTag tag tagsField)
              = (if Array_includes (processedTags tagsField) tag
                 then processedTags tagsField
                 else processedTags tagsField ++ [tag])).
  { unfold handleAddTag. rewrite Hne. cbn [negb].
    destruct (Array_includes (processedTags tagsField) tag); [reflexivity | ].
    destruct tagsField as [ | c field].
    - cbn [nonEmpty]. now rewrite (processedTags_clean tag Hc).
    - cbn [nonEmpty]. change (str ", ") with [44; 32]. cbn [app].
      rewrite app_comm_cons, processedTags_app_sep.
      now rewrite (processedTags_space_clean tag Hc). }
  split; [exact E | ].
  unfold handleAddTag at 1. rewrite Hne, E. cbn [negb].
  destruct (Array_includes (processedTags tagsField) tag) eqn:I.
  - now rewrite I.
  - replace (Array_includes (processedTags tagsField ++ [tag]) tag) with true;
      [reflexivity | ].
    symmetry. apply Array_includes_In, in_or_app. right. now left.
Qed.

Lemma add_tag_once_witness :
  processedTags (handleAddTag (str "ai") (str "exam, video"))
  = [str "exam"; str "video"; str "ai"].
Proof.
  refine (proj1 (add_tag_once (str "ai") (str "exam, video") _)).
  repeat split; try discriminate. vm_compute. intuition discriminate.
Defined.

(** ** Upload names *)

Lemma sanitize_from_chars b name : Forall (fun c => isFileNameChar c = true)
                                          (sanitize_from b name).
Proof.
  revert b. induction name as [ | c name IH]; intros b; cbn; [constructor | ].
  destruct (isFileNameChar c) eqn:E; [constructor; [exact E | apply IH] | ].
  destruct b; [apply IH | constructor; [reflexivity | apply IH]].
Qed.

Lemma sanitize_from_safe b name :
  Forall (fun c => isFileNameChar c = true) name -> sanitize_from b name = name.
Proof.
  intros H. revert b. induction H as [ | c name Hc _ IH]; intros b; cbn;
    [reflexivity | ].
  now rewrite Hc, IH.
Qed.

Lemma sanitize_from_length b name :
  (length (sanitize_from b name) <= length name)%nat.
Proof.
  revert b. induction name as [ | c name IH]; intros b; cbn; [lia | ].
  destruct (isFileNameChar c); cbn; [specialize (IH false); lia | ].
  destruct b; cbn; [specialize (IH true) | specialize (IH true)]; lia.
Qed.

(** X15. The name under which an upload is stored holds only ASCII
    letters, digits, [_], [.] and [-], each run of other characters of the
    file name having become one [_]; it is never longer than the file name;
    a name that is already safe is kept as it is, so sanitising twice
    changes nothing more. *)
Theorem sanitizeFileName_safe (name : jsstring) :
  Forall (fun c => isFileNameChar c = true) (sanitizeFileName name)
  /\ (length (sanitizeFileName name) <= length name)%nat
  /\ (Forall (fun c => isFileNameChar c = true) name ->
      sanitizeFileName name = name)
  /\ sanitizeFileName (sanitizeFileName name) = sanitizeFileName name.
Proof.
  unfold sanitizeFileName. split; [apply sanitize_from_chars | ].
  split; [apply sanitize_from_length | ].
  split; [apply sanitize_from_safe | ].
  apply sanitize_from_safe, sanitize_from_chars.
Qed.

Example sanitizeFileName_ex :
  sanitizeFileName (str "My notes (v2) - final!.pdf") = str "My_notes_v2_-_final_.pdf"
  /\ sanitizeFileName (str "../../etc/passwd") = str ".._.._etc_passwd".
Proof. vm_compute. split; reflexivity. Qed.

(** ** Submitting the form *)

Lemma ResourceType_eqb_eq a b : ResourceType_eqb a b = true <-> a = b.
Proof. destruct a, b; vm_compute; split; congruence. Qed.

Ltac eval_type_eqb :=
  repeat match goal with
  | |- context [ResourceType_eqb ?a ?b] =>
      let v := eval vm_compute in (ResourceType_eqb a b) in
      change (ResourceType_eqb a b) with v
  | H : context [ResourceType_eqb ?a ?b] |- _ =>
      let v := eval vm_compute in (ResourceType_eqb a b) in
      change (ResourceType_eqb a b) with v in H
  end.

(** X16. For a form whose submit button is enabled, the URL that is saved
    is: for LINK the trimmed URL field, which is not empty; otherwise the
    URL of the uploaded file when a file is attached, even if a URL is
    typed as well; otherwise the trimmed URL field when it is not blank;
    otherwise the form is editing a resource, and the stored URL of that
    resource is kept - or, when the resource has no URL or is no longer in
    the catalog, the submission ends with "Please upload a file or provide
    a link." although the button was enabled. *)
Theorem submit_url_resolution
  (upload : File -> attempt jsstring) (resources : list Resource) (f : Form) :
  submitDisabled f = false ->
  (form_type f = LINK ->
     urlToSave upload resources f = Done (Some (trim (form_url f)))
     /\ trim (form_url f) <> [])
  /\ (form_type f <> LINK -> forall file, selectedFile f = Some file ->
        urlToSave upload resources f
        = match upload file with
          | Done u => Done (Some u)
          | Failed m => Failed m
          end)
  /\ (form_type f <> LINK -> selectedFile f = None -> trim (form_url f) <> [] ->
        urlToSave upload resources f = Done (Some (trim (form_url f))))
  /\ (form_type f <> LINK -> selectedFile f = None -> trim (form_url f) = [] ->
        truthy (editingResourceId f) = true
        /\ urlToSave upload resources f
           = match existingResource resources f with
             | Some r => if truthy (url r) then Done (url r)
                         else Failed uploadOrLinkMessage
             | None => Failed uploadOrLinkMessage
             end).
Proof.
  intros Hen. destruct f as [t u file eid].
  cbn [form_type form_url selectedFile editingResourceId] in *.
  split; [ | split; [ | split]].
  - intros ->. unfold submitDisabled in Hen. cbn in Hen.
    change (negb (nonEmpty (trim u)) = false) in Hen.
    apply negb_false_iff in Hen. unfold urlToSave.
    cbn [form_type form_url]. eval_type_eqb. rewrite Hen.
    split; [reflexivity | now apply nonEmpty_true].
  - intros Ht fl ->. unfold urlToSave. cbn [form_type selectedFile].
    destruct (ResourceType_eqb t LINK) eqn:E;
      [apply ResourceType_eqb_eq in E; contradiction | reflexivity].
  - intros Ht -> Hu. unfold urlToSave. cbn [form_type selectedFile form_url].
    destruct (ResourceType_eqb t LINK) eqn:E;
      [apply ResourceType_eqb_eq in E; contradiction | ].
    apply nonEmpty_true in Hu. now rewrite Hu.
  - intros Ht -> Hu. split.
    + unfold submitDisabled in Hen.
      cbn [form_type selectedFile form_url editingResourceId] in Hen.
      rewrite Hu in Hen. cbn [nonEmpty isSome negb andb] in Hen.
      destruct (ResourceType_eqb t LINK) eqn:E;
        [apply ResourceType_eqb_eq in E; contradiction | ].
      destruct (allowsUploadOrLink t); now apply negb_false_iff in Hen.
    + unfold urlToSave. cbn [form_type selectedFile form_url].
      destruct (ResourceType_eqb t LINK) eqn:E;
        [apply ResourceType_eqb_eq in E; contradiction | ].
      rewrite Hu. reflexivity.
Qed.

Lemma submit_url_resolution_witness :
  urlToSave noUpload catalog4
    {| form_type := PDF; form_url := []; selectedFile := None;
       editingResourceId := Some (str "gone") |}
  = Failed uploadOrLinkMessage.
Proof.
  refine (proj2 (proj2 (proj2 (proj2 (submit_url_resolution noUpload catalog4
    {| form_type := PDF; form_url := []; selectedFile := None;
       editingResourceId := Some (str "gone") |} eq_refl))) _ eq_refl eq_refl)).
  discriminate.
Defined.

(** ** Statistics *)

Lemma countOfType_total rs :
  (countOfType PDF rs + countOfType VIDEO rs + countOfType LINK rs
   + countOfType DOC rs + countOfType IMAGE rs + countOfType PRESENTATION rs
   + countOfType CODE rs + countOfType SPREADSHEET rs)%nat = length rs.
Proof.
  unfold countOfType. induction rs as [ | r rs IH]; [reflexivity | ].
  cbn [List.filter]. destruct (type r); eval_type_eqb; cbn [length]; lia.
Qed.

Lemma list_sum_positive_entries (l : list (jsstring * nat)) :
  list_sum (map snd (List.filter (fun d => (0 <? snd d)%nat) l))
  = list_sum (map snd l).
Proof.
  induction l as [ | [n v] l IH]; [reflexivity | ].
  cbn [List.filter snd]. destruct v as [ | v].
  - change (0 <? 0)%nat with false. cbn [map snd list_sum fold_right]. exact IH.
  - change (0 <? S v)%nat with true. cbn [map snd list_sum fold_right].
    unfold list_sum in IH. now rewrite IH.
Qed.

(** X17. The slices of the type chart account for every resource exactly
    once: their values add up to the size of the catalog, no slice is
    empty, and each slice is the number of resources of its type. *)
Theorem type_chart_covers_catalog (rs : list Resource) :
  list_sum (map snd (typeDistribution rs)) = length rs
  /\ Forall (fun d => (0 < snd d)%nat) (typeDistribution rs)
  /\ (forall name n, In (name, n) (typeDistribution rs) ->
        exists t, In (name, t)
                    [(str "PDF", PDF); (str "Video", VIDEO); (str "Link", LINK);
                     (str "Doc", DOC); (str "Image", IMAGE);
                     (str "Slides", PRESENTATION); (str "Code", CODE);
                     (str "Sheet", SPREADSHEET)]
                  /\ n = countOfType t rs).
Proof.
  unfold typeDistribution. split; [ | split].
  - rewrite list_sum_positive_entries. cbn [map snd list_sum].
    fold (countOfType PDF rs) (countOfType VIDEO rs) (countOfType LINK rs)
         (countOfType DOC rs) (countOfType IMAGE rs)
         (countOfType PRESENTATION rs) (countOfType CODE rs)
         (countOfType SPREADSHEET rs).
    rewrite <- (countOfType_total rs). cbn [list_sum fold_right]. lia.
  - apply List.Forall_forall. intros d Hd. apply filter_In in Hd.
    destruct Hd as [_ Hd]. now apply Nat.ltb_lt.
  - intros name n H. apply filter_In in H. destruct H as [H _].
    cbn [map] in H.
    repeat (destruct H as [H | H];
            [injection H as <- <-; eexists; split;
               [cbn; eauto 10 | reflexivity] | ]).
    destruct H.
Qed.

(** ** Opening and downloading a resource *)

Lemma find_by_id_unique (rs : list Resource) r :
  List.NoDup (map id rs) -> In r rs ->
  List.find (fun x => jsstring_eqb (id x) (id r)) rs = Some r.
Proof.
  induction rs as [ | a rs IH]; intros Hnd Hin; [destruct Hin | ].
  cbn in Hnd. apply NoDup_cons_iff in Hnd. destruct Hnd as [Ha Hnd]. cbn.
  destruct Hin as [-> | Hin]; [now rewrite jsstring_eqb_refl | ].
  destruct (jsstring_eqb (id a) (id r)) eqn:E; [ | now apply IH].
  apply jsstring_eqb_eq in E. exfalso. apply Ha. rewrite E. now apply in_map.
Qed.

Lemma find_map_bump (rs : list Resource) i (g : Resource -> Resource) :
  (forall r, id (g r) = id r) ->
  List.find (fun x => jsstring_eqb (id x) i)
            (map (fun r => if jsstring_eqb (id r) i then g r else r) rs)
  = option_map g (List.find (fun x => jsstring_eqb (id x) i) rs).
Proof.
  intros Hg. induction rs as [ | a rs IH]; [reflexivity | ]. cbn.
  destruct (jsstring_eqb (id a) i) eqn:E.
  - now rewrite Hg, E.
  - now rewrite E, IH.
Qed.

(** X18. Opening a resource of a catalog with unique ids hands the viewer
    the resource as it was before the click, while the catalog entry gets
    the counted view: as long as the counter is below 2^53 the catalog
    entry counts one view more than the viewer shows. The id of the
    resource heads the recently viewed list. *)
Theorem viewer_counter_lags_by_one (r : Resource) (d : Dashboard) :
  List.NoDup (map id (shown d)) -> In r (shown d) ->
  let d' := handleResourceClick r d in
  selectedResource d' = Some r
  /\ List.find (fun x => jsstring_eqb (id x) (id r)) (shown d')
     = Some (with_views r (roundNumber (views r + 1)))
  /\ ((0 <= views r < 2 ^ 53)%Z ->
      List.find (fun x => jsstring_eqb (id x) (id r)) (shown d')
      = Some (with_views r (views r + 1)))
  /\ List.head (recentResourceIds d') = Some (id r).
Proof.
  intros Hnd Hin. cbv zeta. unfold handleResourceClick.
  cbn [shown selectedResource recentResourceIds].
  assert (E : List.find (fun x => jsstring_eqb (id x) (id r))
                (handleIncrementView (id r) (shown d))
              = Some (with_views r (roundNumber (views r + 1)))).
  { unfold handleIncrementView.
    rewrite (find_map_bump _ _ (fun x => with_views x (Number_succ (views x))))
      by reflexivity.
    now rewrite (find_by_id_unique _ _ Hnd Hin). }
  split; [reflexivity | split; [exact E | split; [ | reflexivity]]].
  intros Hsafe. rewrite E. fold (Number_succ (views r)).
  rewrite Number_succ_exact; [reflexivity | lia].
Qed.

Lemma viewer_counter_lags_by_one_witness :
  List.find (fun x => jsstring_eqb (id x) (str "4"))
    (shown (handleResourceClick
              (sample "4" VIDEO "https://youtu.be/abc123" ["video"]%string online 5)
              {| shown := catalog4; selectedResource := None;
                 recentResourceIds := [] |}))
  = Some (sample "4" VIDEO "https://youtu.be/abc123" ["video"]%string online 6).
Proof.
  refine (proj1 (proj2 (proj2 (viewer_counter_lags_by_one
    (sample "4" VIDEO "https://youtu.be/abc123" ["video"]%string online 5)
    {| shown := catalog4; selectedResource := None; recentResourceIds := [] |}
    _ _))) _).
  - repeat constructor; vm_compute; intuition discriminate.
  - cbn. tauto.
  - cbn. lia.
Defined.

(** At 2^53 the view is counted without effect. *)
Example viewer_counter_at_limit :
  map views
    (shown (handleResourceClick
              (sample "1" PDF "" [] online (2 ^ 53))
              {| shown := [sample "1" PDF "" [] online (2 ^ 53)];
                 selectedResource := None; recentResourceIds := [] |}))
  = [2 ^ 53]%Z.
Proof. vm_compute. reflexivity. Qed.

Ltac case_leb :=
  repeat match goal with
  | |- context [(?a <=? ?b)] => destruct (N.leb_spec a b)
  | |- context [(?a =? ?b)] => destruct (N.eqb_spec a b)
  end.

Lemma safeTitle_char c :
  isSafeTitleChar
    ((fun c => if (65 <=? c) && (c <=? 90) then c + 32 else c)
       (if isAsciiAlnum c then c else 95)) = true.
Proof.
  unfold isAsciiAlnum, isAsciiAlpha. cbv beta.
  destruct (((65 <=? c) && (c <=? 90) || (97 <=? c) && (c <=? 122))
            || (48 <=? c) && (c <=? 57)) eqn:K; [ | reflexivity].
  revert K. unfold isSafeTitleChar. case_leb; cbn [andb orb]; intros K;
    try discriminate K; try reflexivity; case_leb; cbn [andb orb] in *;
    try reflexivity; lia.
Qed.

Lemma downloadClick_catalog fetched r rs :
  fst (downloadClick fetched r rs) = handleIncrementDownload (id r) rs.
Proof. reflexivity. Qed.

(** X19. A click on Download is counted for the resource whether or not a
    file is fetched, also for a resource without URL, where nothing else
    happens, and for a LINK, which is opened instead: in a catalog with
    unique ids the entry with the id of the resource has one download more
    (as long as its counter is below 2^53) and every other entry is as it
    was. The
    suggested file name is the trimmed original file name when there is one
    that is not blank; otherwise it is the title in which, place by place,
    an upper-case ASCII letter is replaced by the lower-case one, a
    lower-case ASCII letter or a digit is kept, and any other code unit is
    replaced by [_]. *)
Theorem download_click_counts (fetched : bool) (r : Resource) (rs : list Resource) :
  (List.NoDup (map id rs) ->
     map id (fst (downloadClick fetched r rs)) = map id rs
     /\ (forall e, In e rs -> id e = id r ->
           List.find (fun x => jsstring_eqb (id x) (id r))
                     (fst (downloadClick fetched r rs))
           = Some (with_downloads e (roundNumber (downloads e + 1)))
           /\ ((0 <= downloads e < 2 ^ 53)%Z ->
               List.find (fun x => jsstring_eqb (id x) (id r))
                         (fst (downloadClick fetched r rs))
               = Some (with_downloads e (downloads e + 1))))
     /\ (forall x, In x rs -> id x <> id r ->
           In x (fst (downloadClick fetched r rs))))
  /\ (truthy (url r) = false -> snd (downloadClick fetched r rs) = NoFileUrl)
  /\ (forall u, url r = Some u -> u <> [] -> type r = LINK ->
        snd (downloadClick fetched r rs) = OpenedLink u)
  /\ (forall u, url r = Some u -> u <> [] -> type r <> LINK ->
        snd (downloadClick fetched r rs)
        = if fetched then DownloadStarted u (preferredFilename r)
          else OpenedFallback u)
  /\ (forall n, original_filename r = Some n -> trim n <> [] ->
        preferredFilename r = trim n)
  /\ (blankName (original_filename r) ->
        preferredFilename r = safeTitle (title r))
  /\ length (safeTitle (title r)) = length (title r)
  /\ (forall k c, nth_error (title r) k = Some c ->
        nth_error (safeTitle (title r)) k
        = Some (if (65 <=? c) && (c <=? 90) then c + 32
                else if ((97 <=? c) && (c <=? 122)) || ((48 <=? c) && (c <=? 57))
                     then c
                     else 95))
  /\ Forall (fun c => isSafeTitleChar c = true) (safeTitle (title r)).
Proof.
  split; [ | split; [ | split; [ | split; [ | split; [ | split; [ | split;
    [ | split]]]]]]].
  - intros Hnd. rewrite downloadClick_catalog.
    split; [apply handleIncrementDownload_ids | split].
    + intros e Hin He.
      assert (E : List.find (fun x => jsstring_eqb (id x) (id r))
                    (handleIncrementDownload (id r) rs)
                  = Some (with_downloads e (roundNumber (downloads e + 1)))).
      { unfold handleIncrementDownload.
        rewrite (find_map_bump _ _
                   (fun x => with_downloads x (Number_succ (downloads x))))
          by reflexivity.
        rewrite <- He. now rewrite (find_by_id_unique _ _ Hnd Hin). }
      split; [exact E | ].
      intros Hsafe. rewrite E. fold (Number_succ (downloads e)).
      rewrite Number_succ_exact; [reflexivity | lia].
    + intros x Hx Hne. unfold handleIncrementDownload. apply in_map_iff.
      exists x. split; [ | exact Hx]. apply jsstring_eqb_neq in Hne.
      now rewrite Hne.
  - unfold downloadClick, handleDownload. cbn [fst snd].
    destruct (url r) as [[ | ? ?] | ]; cbn; congruence.
  - unfold downloadClick, handleDownload. cbn [fst snd].
    intros u -> Hu ->. destruct u; [congruence | reflexivity].
  - unfold downloadClick, handleDownload. cbn [fst snd].
    intros u -> Hu Ht. destruct u; [congruence | ].
    destruct (type r); try reflexivity. congruence.
  - intros n Hn Ht. unfold preferredFilename. rewrite Hn.
    destruct (trim n); [congruence | reflexivity].
  - unfold preferredFilename, blankName.
    destruct (original_filename r) as [n | ]; [ | reflexivity]. now intros ->.
  - unfold safeTitle, toLowerCase_ascii. now rewrite !length_map.
  - intros k c Hk. unfold safeTitle, toLowerCase_ascii. rewrite map_map.
    rewrite nth_error_map, Hk. cbn [option_map]. f_equal.
    unfold isAsciiAlnum, isAsciiAlpha.
    destruct (65 <=? c) eqn:E1, (c <=? 90) eqn:E2, (97 <=? c) eqn:E3,
      (c <=? 122) eqn:E4, (48 <=? c) eqn:E5, (c <=? 57) eqn:E6;
      cbn; rewrite ?E1, ?E2; cbn; try reflexivity;
      rewrite ?N.leb_le, ?N.leb_gt in *; lia.
  - unfold safeTitle, toLowerCase_ascii. rewrite map_map.
    apply List.Forall_forall. intros c Hc. apply in_map_iff in Hc.
    destruct Hc as [x [<- _]]. apply safeTitle_char.
Qed.

Example safeTitle_ex :
  safeTitle (str "CS 146: Data Structures (Fall)") = str "cs_146__data_structures__fall_"
  /\ safeTitle (237 :: str "ndice") = str "_ndice".
Proof. vm_compute. split; reflexivity. Qed.

(** ** What the viewer renders *)

Lemma previewByExtension_shape c p :
  c <> [] -> previewByExtension c = Returned p ->
  kind p <> Knone /\ (kind p = Kiframe \/ preview_url p = c)
  /\ preview_url p <> [].
Proof.
  intros Hc. unfold previewByExtension, getOfficeViewerUrl.
  destruct (isProbablyOfficeDoc c).
  - destruct (encodeURIComponent c); cbn; [ | discriminate].
    intros [= <-]. cbn. repeat split; try discriminate. now left.
  - destruct (isPdf c); [intros [= <-]; cbn; repeat split; try discriminate; auto | ].
    destruct (isImage c); [intros [= <-]; cbn; repeat split; try discriminate; auto | ].
    destruct (isVideoFile c); intros [= <-]; cbn; repeat split; try discriminate; auto.
Qed.

Lemma getBestPreviewUrl_cases URL_new r :
  previewCandidate r <> [] ->
  (exists c e, getBestPreviewUrl URL_new r
               = Returned {| kind := Kiframe; preview_url := c :: e |})
  \/ getBestPreviewUrl URL_new r = previewByExtension (previewCandidate r).
Proof.
  intros Hc. unfold getBestPreviewUrl. apply nonEmpty_true in Hc. rewrite Hc.
  cbn [negb].
  destruct (if isYouTubeUrl _ then _ else _) as [[ | ? ?] | ];
    try (left; eexists; eexists; reflexivity);
    (destruct (if isVimeoUrl _ then _ else _) as [[ | ? ?] | ];
     try (left; eexists; eexists; reflexivity);
     (destruct (getGoogleDrivePreviewUrl _ _) as [[ | ? ?] | ];
      try (left; eexists; eexists; reflexivity); now right)).
Qed.

(** X20. When the resolver returns, the kind is [none] exactly when the
    resource has neither a URL nor an external URL apart from white space;
    the candidate is the trimmed URL, and the trimmed external URL only
    when the URL is blank; every kind other than [iframe] and [none] comes
    with the candidate itself as its URL, and only [none] comes with an
    empty URL. *)
Theorem preview_kind_none_iff_no_url
  (URL_new : jsstring -> option URL) (r : Resource) (p : Preview) :
  getBestPreviewUrl URL_new r = Returned p ->
  (kind p = Knone <-> trim (or_empty (url r)) = []
                      /\ trim (or_empty (external_url r)) = [])
  /\ previewCandidate r
     = (if nonEmpty (trim (or_empty (url r))) then trim (or_empty (url r))
        else trim (or_empty (external_url r)))
  /\ (kind p <> Kiframe -> preview_url p = previewCandidate r)
  /\ (preview_url p = [] <-> kind p = Knone).
Proof.
  intros H.
  assert (Hc : previewCandidate r = [] <->
               trim (or_empty (url r)) = [] /\ trim (or_empty (external_url r)) = []).
  { unfold previewCandidate. destruct (trim (or_empty (url r))); cbn;
      [tauto | split; [discriminate | intros [? _]; discriminate]]. }
  assert (Hdef : previewCandidate r
                 = (if nonEmpty (trim (or_empty (url r)))
                    then trim (or_empty (url r))
                    else trim (or_empty (external_url r)))) by reflexivity.
  destruct (previewCandidate r) as [ | c0 c] eqn:Ec.
  - unfold getBestPreviewUrl in H. rewrite Ec in H. cbn in H. injection H as <-.
    cbn. rewrite <- Hc. repeat split; auto.
  - assert (Hne : previewCandidate r <> []) by (rewrite Ec; discriminate).
    assert (G : kind p <> Knone /\ (kind p = Kiframe \/ preview_url p = c0 :: c)
                /\ preview_url p <> []).
    { destruct (getBestPreviewUrl_cases URL_new r Hne) as [[x [e E]] | E].
      - rewrite E in H. injection H as <-. cbn. repeat split; try discriminate.
        now left.
      - rewrite E, Ec in H. apply previewByExtension_shape in H; [exact H | discriminate]. }
    destruct G as [G1 [G2 G3]]. rewrite <- Hc.
    split; [split; [contradiction | discriminate] | ].
    split; [exact Hdef | ]. split; [tauto | ]. split; [contradiction | contradiction].
Qed.

Lemma preview_kind_none_iff_no_url_witness :
  preview_url {| kind := Kpdf; preview_url := str "https://h.edu/notes.pdf" |}
  = previewCandidate (with_url (str " https://h.edu/notes.pdf ")).
Proof.
  refine (proj1 (proj2 (proj2
    (preview_kind_none_iff_no_url URL_std
       (with_url (str " https://h.edu/notes.pdf "))
       {| kind := Kpdf; preview_url := str "https://h.edu/notes.pdf" |}
       eq_refl))) _).
  discriminate.
Defined.

(** X21. Rendering the content never throws for a LINK, a CODE or a PDF
    resource, whose branches do not consult the resolver, nor for any
    resource whose candidate URL has no lone surrogate; when it does throw,
    the resource is of one of the other five types and the exception is the
    one of the resolver. A LINK without URL links to "#". *)
Theorem renderContent_throws_only_with_resolver
  (URL_new : jsstring -> option URL) (r : Resource) :
  (In (type r) [LINK; CODE; PDF] -> exists c, renderContent URL_new r = Returned c)
  /\ (isWellFormed (previewCandidate r) = true ->
      exists c, renderContent URL_new r = Returned c)
  /\ (forall e, renderContent URL_new r = Thrown e ->
        getBestPreviewUrl URL_new r = Thrown e
        /\ In (type r) [VIDEO; IMAGE; PRESENTATION; SPREADSHEET; DOC])
  /\ (type r = LINK -> truthy (url r) = false ->
      renderContent URL_new r = Returned (ExternalLink (str "#"))).
Proof.
  unfold renderContent. split; [ | split; [ | split]].
  - cbn [In]. intros [<- | [<- | [<- | []]]]; eexists; reflexivity.
  - intros Hwf. destruct (getBestPreviewUrl_wellFormed URL_new r Hwf) as [p ->].
    destruct (type r); eexists; reflexivity.
  - intros e. destruct (type r); try discriminate;
      (destruct (getBestPreviewUrl URL_new r); cbn; [discriminate | ];
       intros [= ->]; split; [reflexivity | cbn; tauto]).
  - intros -> Hu. destruct (url r) as [[ | ? ?] | ]; [reflexivity | discriminate | reflexivity].
Qed.

Example renderContent_ex :
  renderContent URL_std (sample "a" DOC "https://h.edu/notes.pdf" [] online 0)
  = Returned PreviewUnavailable
  /\ renderContent URL_std (sample "b" PDF "https://h.edu/notes.pdf" [] online 0)
     = Returned (Frame (str "https://h.edu/notes.pdf"))
  /\ renderContent URL_std (sample "c" IMAGE "https://h.edu/pic" [] online 0)
     = Returned (Picture (str "https://h.edu/pic"))
  /\ renderContent URL_std (sample "d" VIDEO "https://youtu.be/abc123" [] online 0)
     = Returned (Frame (str "https://www.youtube.com/embed/abc123")).
Proof. vm_compute. repeat split; reflexivity. Qed.

(** ** Vimeo and Google previews *)

Lemma split_segment sep (i t : jsstring) :
  ~ In sep i -> split sep (i ++ sep :: t) = i :: split sep t.
Proof.
  induction i as [ | c i IH]; intros H; cbn [app split].
  - now rewrite N.eqb_refl.
  - destruct (N.eqb_spec c sep) as [-> | _]; [exfalso; apply H; now left | ].
    rewrite IH by (intros Hi; apply H; now right). reflexivity.
Qed.

Lemma split_last sep (i : jsstring) : ~ In sep i -> split sep i = [i].
Proof.
  induction i as [ | c i IH]; intros H; cbn [split]; [reflexivity | ].
  destruct (N.eqb_spec c sep) as [-> | _]; [exfalso; apply H; now left | ].
  rewrite IH by (intros Hi; apply H; now right). reflexivity.
Qed.

Lemma includes_prefix (p rest : jsstring) : includes (p ++ rest) p = true.
Proof.
  assert (H : startsWith (p ++ rest) p = true).
  { induction p as [ | x p IH]; [apply startsWith_nil | ].
    cbn. now rewrite N.eqb_refl. }
  destruct (p ++ rest); cbn [includes]; now rewrite H.
Qed.

(** In a path that begins with [/file/d/<id>], the segment behind the first
    segment [d] is [<id>]. *)
Lemma part_after_d_file (i tail : jsstring) :
  ~ In 47 i -> tail = [] \/ List.head tail = Some 47 ->
  part_after_d (split 47 (str "/file/d/" ++ i ++ tail)) = Some i.
Proof.
  intros Hi Ht.
  change (str "/file/d/" ++ i ++ tail)
    with ([] ++ 47 :: str "file" ++ 47 :: str "d" ++ 47 :: i ++ tail).
  rewrite split_segment by (cbn; tauto).
  rewrite split_segment by (vm_compute; intuition discriminate).
  rewrite split_segment by (vm_compute; intuition discriminate).
  destruct Ht as [-> | Ht].
  - rewrite app_nil_r, split_last by exact Hi. reflexivity.
  - destruct tail as [ | c tail]; [discriminate Ht | ].
    injection Ht as ->. rewrite split_segment by exact Hi. reflexivity.
Qed.

(** X22. For a non-empty candidate that parses as a URL and does not match the
    YouTube pattern: if it matches the Vimeo pattern, the first non-empty
    segment of its path is taken as the id and the preview is an iframe on
    [https://player.vimeo.com/video/<id>]. If it matches neither pattern,
    the id is the path segment that follows the first segment [d]: a
    [drive.google.com] URL with [/file/d/] in its path is previewed on
    [https://drive.google.com/file/d/<id>/preview], and a
    [docs.google.com] URL with [/document/d/] in its path, unless it is also
    such a Drive URL, on [https://docs.google.com/document/d/<id>/preview].
    For a Drive path that begins with [/file/d/<id>] this is the id of the
    file; in a path with an earlier segment [d] it is not. *)
Theorem vimeo_and_google_previews
  (URL_new : jsstring -> option URL) (r : Resource) (u : URL) :
  previewCandidate r <> [] ->
  URL_new (previewCandidate r) = Some u ->
  isYouTubeUrl (previewCandidate r) = false ->
  (isVimeoUrl (previewCandidate r) = true ->
   forall i rest,
     List.filter nonEmpty (split 47 (pathname u)) = i :: rest ->
     getBestPreviewUrl URL_new r
     = Returned {| kind := Kiframe;
                   preview_url := str "https://player.vimeo.com/video/" ++ i |})
  /\ (isVimeoUrl (previewCandidate r) = false ->
      includes (hostname u) (str "drive.google.com") = true ->
      includes (pathname u) (str "/file/d/") = true ->
      forall i, part_after_d (split 47 (pathname u)) = Some i -> i <> [] ->
        getBestPreviewUrl URL_new r
        = Returned {| kind := Kiframe; preview_url := googleDrivePreview i |})
  /\ (isVimeoUrl (previewCandidate r) = false ->
      includes (hostname u) (str "drive.google.com")
      && includes (pathname u) (str "/file/d/") = false ->
      includes (hostname u) (str "docs.google.com") = true ->
      includes (pathname u) (str "/document/d/") = true ->
      forall i, part_after_d (split 47 (pathname u)) = Some i -> i <> [] ->
        getBestPreviewUrl URL_new r
        = Returned {| kind := Kiframe;
                      preview_url := googleDocsPreview (str "document") i |})
  /\ (isVimeoUrl (previewCandidate r) = false ->
      includes (hostname u) (str "drive.google.com") = true ->
      forall i tail,
        pathname u = str "/file/d/" ++ i ++ tail ->
        i <> [] -> ~ In 47 i -> tail = [] \/ List.head tail = Some 47 ->
        getBestPreviewUrl URL_new r
        = Returned {| kind := Kiframe; preview_url := googleDrivePreview i |}).
Proof.
  intros Hc Hu Hy. apply nonEmpty_true in Hc.
  assert (Hdrive : isVimeoUrl (previewCandidate r) = false ->
      includes (hostname u) (str "drive.google.com") = true ->
      includes (pathname u) (str "/file/d/") = true ->
      forall i, part_after_d (split 47 (pathname u)) = Some i -> i <> [] ->
        getBestPreviewUrl URL_new r
        = Returned {| kind := Kiframe; preview_url := googleDrivePreview i |}).
  { intros Hv Hh Hp i Hi Hne. unfold getBestPreviewUrl. rewrite Hc, Hy, Hv.
    cbn [negb]. unfold getGoogleDrivePreviewUrl. rewrite Hu, Hh, Hp, Hi.
    cbn [andb]. destruct i; [congruence | reflexivity]. }
  split; [ | split; [exact Hdrive | split]].
  - intros Hv i rest Hp. unfold getBestPreviewUrl. rewrite Hc, Hy, Hv. cbn [negb].
    unfold getVimeoEmbedUrl. rewrite Hu, Hp. reflexivity.
  - intros Hv Hh Hd Hp i Hi Hne. unfold getBestPreviewUrl. rewrite Hc, Hy, Hv.
    cbn [negb]. unfold getGoogleDrivePreviewUrl. rewrite Hu. cbv zeta.
    rewrite Hh, Hd, Hp, Hi.
    cbn [andb orb]. destruct i; [congruence | reflexivity].
  - intros Hv Hh i tail Hp Hne Hi Ht. apply Hdrive; try assumption.
    + rewrite Hp. apply includes_prefix.
    + rewrite Hp. now apply part_after_d_file.
Qed.

Lemma vimeo_and_google_previews_witness :
  getBestPreviewUrl URL_std
    (with_url (str "https://docs.google.com/document/d/1AbC/edit"))
  = Returned {| kind := Kiframe;
                preview_url := str "https://docs.google.com/document/d/1AbC/preview" |}.
Proof.
  refine (proj1 (proj2 (proj2 (vimeo_and_google_previews URL_std
    (with_url (str "https://docs.google.com/document/d/1AbC/edit"))
    {| hostname := str "docs.google.com"; pathname := str "/document/d/1AbC/edit";
       searchParams_get := fun _ => None |} _ eq_refl eq_refl)))
    eq_refl eq_refl eq_refl eq_refl (str "1AbC") eq_refl _); discriminate.
Defined.

(** A Drive URL whose path has a segment [d] before [/file/d/]: the
    preview is that of the segment behind the first [d]. *)
Example drive_earlier_d_segment :
  getBestPreviewUrl URL_std
    (with_url (str "https://drive.google.com/d/x/file/d/ID/view"))
  = Returned {| kind := Kiframe;
                preview_url := str "https://drive.google.com/file/d/x/preview" |}.
Proof. vm_compute. reflexivity. Qed.

Example vimeo_first_segment :
  getBestPreviewUrl URL_std (with_url (str "https://vimeo.com/channels/staffpicks/12345"))
  = Returned {| kind := Kiframe;
                preview_url := str "https://player.vimeo.com/video/channels" |}
  /\ getBestPreviewUrl URL_std
       (with_url (str "https://docs.google.com/document/u/0/d/1AbC/edit"))
     = Returned {| kind := Klink;
                   preview_url := str "https://docs.google.com/document/u/0/d/1AbC/edit" |}.
Proof. vm_compute. split; reflexivity. Qed.

(** ** Letter case and query strings *)

Lemma canonicalize_idem c : canonicalize (canonicalize c) = canonicalize c.
Proof.
  unfold canonicalize. destruct ((97 <=? c) && (c <=? 122)) eqn:E.
  - apply andb_true_iff in E. destruct E as [E1 E2].
    apply N.leb_le in E1, E2.
    replace (97 <=? c - 32) with false by (symmetry; apply N.leb_gt; lia).
    reflexivity.
  - now rewrite E.
Qed.

Lemma ci_prefix_upper p s : ci_prefix p (toUpperCase_ascii s) = ci_prefix p s.
Proof.
  revert s. induction p as [ | x p IH]; intros [ | y s]; cbn; try reflexivity.
  unfold ci_eqb. now rewrite canonicalize_idem, IH.
Qed.

Lemma rmatch_upper r : forall s k k',
  (forall t, k' (toUpperCase_ascii t) = k t) ->
  rmatch r (toUpperCase_ascii s) k' = rmatch r s k.
Proof.
  induction r as [p | a IHa b IHb | a IHa b IHb | a IHa | ]; intros s k k' Hk;
    cbn [rmatch].
  - rewrite ci_prefix_upper. f_equal. unfold toUpperCase_ascii.
    rewrite List.skipn_map. apply Hk.
  - apply IHa. intros t. now apply IHb.
  - now rewrite (IHa s k k' Hk), (IHb s k k' Hk).
  - now rewrite (IHa s k k' Hk), Hk.
  - destruct s; cbn; [apply (Hk []) | reflexivity].
Qed.

Lemma test_anchored_upper r s :
  test_anchored r (toUpperCase_ascii s) = test_anchored r s.
Proof. unfold test_anchored. now apply rmatch_upper. Qed.

Lemma test_upper r s : test r (toUpperCase_ascii s) = test r s.
Proof.
  induction s as [ | c s IH]; [reflexivity | ].
  change (toUpperCase_ascii (c :: s))
    with (canonicalize c :: toUpperCase_ascii s).
  cbn [test]. rewrite IH. f_equal.
  now apply (rmatch_upper r (c :: s)).
Qed.

Lemma split_head_upper s :
  split_head 63 (toUpperCase_ascii s) = toUpperCase_ascii (split_head 63 s).
Proof.
  induction s as [ | c s IH]; [reflexivity | ]. cbn.
  fold (toUpperCase_ascii s).
  assert (E : (canonicalize c =? 63) = (c =? 63)).
  { unfold canonicalize. destruct ((97 <=? c) && (c <=? 122)) eqn:K; [ | reflexivity].
    apply andb_true_iff in K. destruct K as [K1 K2]. apply N.leb_le in K1, K2.
    destruct (N.eqb_spec (c - 32) 63), (N.eqb_spec c 63); try reflexivity; lia. }
  rewrite E. destruct (c =? 63); [reflexivity | ]. cbn. now rewrite IH.
Qed.

Lemma split_head_query s q : split_head 63 (s ++ 63 :: q) = split_head 63 s.
Proof.
  induction s as [ | c s IH]; cbn; [reflexivity | ].
  destruct (c =? 63); [reflexivity | now rewrite IH].
Qed.

(** X23. The tests that classify a URL do not depend on letter case:
    writing the ASCII letters of a URL in upper case changes neither the
    YouTube and Vimeo host tests nor the four extension tests. The
    extension tests look only at what stands before the first [?]: a query
    string appended to a URL changes none of them. *)
Theorem classification_ignores_case_and_query (s q : jsstring) :
  (isYouTubeUrl (toUpperCase_ascii s) = isYouTubeUrl s
   /\ isVimeoUrl (toUpperCase_ascii s) = isVimeoUrl s
   /\ isProbablyOfficeDoc (toUpperCase_ascii s) = isProbablyOfficeDoc s
   /\ isPdf (toUpperCase_ascii s) = isPdf s
   /\ isImage (toUpperCase_ascii s) = isImage s
   /\ isVideoFile (toUpperCase_ascii s) = isVideoFile s)
  /\ (isProbablyOfficeDoc (s ++ 63 :: q) = isProbablyOfficeDoc s
      /\ isPdf (s ++ 63 :: q) = isPdf s
      /\ isImage (s ++ 63 :: q) = isImage s
      /\ isVideoFile (s ++ 63 :: q) = isVideoFile s).
Proof.
  split.
  - unfold isYouTubeUrl, isVimeoUrl, isProbablyOfficeDoc, isPdf, isImage, isVideoFile.
    rewrite !test_anchored_upper, !split_head_upper, !test_upper. repeat split.
  - unfold isProbablyOfficeDoc, isPdf, isImage, isVideoFile.
    rewrite !split_head_query. repeat split.
Qed.

Example extension_fragment_not_stripped :
  (isPdf (str "https://h.edu/notes.pdf?page=2"), isPdf (str "https://h.edu/notes.pdf#page=2"),
   isPdf (str "https://h.edu/NOTES.PDF"), isPdf (str "https://h.edu/get?file=notes.pdf"))
  = (true, false, true, false).
Proof. vm_compute. reflexivity. Qed.

(** ** The office viewer URL *)

Lemma hexDigit_safe n : n < 16 -> uriSafe (hexDigit n) = true.
Proof.
  intros H. destruct n as [ | p]; [reflexivity | ].
  do 4 (destruct p as [p | p | ]; try reflexivity); lia.
Qed.

Lemma percentByte_safe b :
  b < 256 -> Forall (fun c => uriSafe c = true) (percentByte b).
Proof.
  intros H. unfold percentByte. repeat constructor.
  - apply hexDigit_safe. apply N.Div0.div_lt_upper_bound; lia.
  - apply hexDigit_safe. apply N.mod_upper_bound. lia.
Qed.

Lemma utf8_bytes cp : cp < 1114112 -> Forall (fun b => b < 256) (utf8 cp).
Proof.
  intros H. unfold utf8.
  assert (M : forall x, 128 + x mod 64 < 256).
  { intros x. pose proof (N.mod_upper_bound x 64). lia. }
  destruct (N.ltb_spec cp 128); [repeat constructor; lia | ].
  destruct (N.ltb_spec cp 2048).
  { repeat constructor; [ | apply M].
    assert (cp / 64 < 32) by (apply N.Div0.div_lt_upper_bound; lia). lia. }
  destruct (N.ltb_spec cp 65536).
  { repeat constructor; try apply M.
    assert (cp / 4096 < 16) by (apply N.Div0.div_lt_upper_bound; lia). lia. }
  repeat constructor; try apply M.
  assert (cp / 262144 < 5) by (apply N.Div0.div_lt_upper_bound; lia). lia.
Qed.

Lemma percentEncode_safe cp :
  cp < 1114112 -> Forall (fun c => uriSafe c = true) (percentEncode cp).
Proof.
  intros H. unfold percentEncode. apply utf8_bytes in H.
  induction H as [ | b l Hb _ IH]; cbn [flat_map]; [constructor | ].
  apply Forall_app. split; [exact (percentByte_safe b Hb) | exact IH].
Qed.

Lemma encodeURIComponent_safe_fuel n : forall s e,
  (length s <= n)%nat -> Forall isCodeUnit s ->
  encodeURIComponent s = Returned e -> Forall (fun c => uriSafe c = true) e.
Proof.
  induction n as [ | n IH]; intros s e Hlen Hs.
  - destruct s; [ | cbn in Hlen; lia]. intros [= <-]. constructor.
  - destruct s as [ | c rest]; [intros [= <-]; constructor | ].
    cbn in Hlen. inversion Hs as [ | ? ? Hc Hrest]; subst.
    cbn [encodeURIComponent]. destruct (uriUnreserved c) eqn:U.
    + destruct (encodeURIComponent rest) as [e' | ] eqn:E; cbn; [ | discriminate].
      intros [= <-]. constructor.
      * unfold uriSafe. now rewrite U.
      * apply (IH rest e'); [lia | exact Hrest | exact E].
    + destruct (isLowSurrogate c); [discriminate | ].
      destruct (isHighSurrogate c) eqn:Hh.
      * destruct rest as [ | d rest']; [discriminate | ].
        destruct (isLowSurrogate d) eqn:Hl; [ | discriminate].
        destruct (encodeURIComponent rest') as [e' | ] eqn:E; cbn; [ | discriminate].
        intros [= <-]. apply Forall_app. split.
        -- apply percentEncode_safe.
           unfold isHighSurrogate in Hh. unfold isLowSurrogate in Hl.
           apply andb_true_iff in Hh, Hl. destruct Hh as [h1 h2], Hl as [l1 l2].
           apply N.leb_le in h1, h2, l1, l2. nia.
        -- inversion Hrest; subst. cbn in Hlen.
           apply (IH rest' e'); [lia | assumption | exact E].
      * destruct (encodeURIComponent rest) as [e' | ] eqn:E; cbn; [ | discriminate].
        intros [= <-]. apply Forall_app. split.
        -- apply percentEncode_safe. unfold isCodeUnit in Hc. lia.
        -- apply (IH rest e'); [lia | exact Hrest | exact E].
Qed.

(** X24. When the office viewer URL is built, it is the viewer prefix
    followed by the encoded file URL, and the encoded part consists only of
    ASCII letters, digits, the marks [-_.!~*'()] and [%]: none of the
    characters [&], [=], [#], [?], [/] or a space of the file URL reaches
    the viewer URL unescaped. *)
Theorem office_viewer_url_escaped (fileUrl v : jsstring) :
  Forall isCodeUnit fileUrl ->
  getOfficeViewerUrl fileUrl = Returned v ->
  exists e,
    v = str "https://view.officeapps.live.com/op/embed.aspx?src=" ++ e
    /\ encodeURIComponent fileUrl = Returned e
    /\ Forall (fun c => uriSafe c = true) e
    /\ (forall c, In c (str "&=#?/ ") -> ~ In c e).
Proof.
  intros Hs. unfold getOfficeViewerUrl.
  destruct (encodeURIComponent fileUrl) as [e | ] eqn:E; cbn; [ | discriminate].
  intros [= <-]. exists e. split; [reflexivity | split; [reflexivity | ]].
  assert (Hsafe : Forall (fun c => uriSafe c = true) e)
    by (apply (encodeURIComponent_safe_fuel (length fileUrl) fileUrl e); auto).
  split; [exact Hsafe | ]. intros c Hc Hin.
  pose proof (proj1 (List.Forall_forall _ _) Hsafe c Hin) as K.
  cbn in Hc. repeat (destruct Hc as [<- | Hc]; [discriminate K | ]). destruct Hc.
Qed.

Lemma office_viewer_url_escaped_witness :
  exists e,
    str "https://view.officeapps.live.com/op/embed.aspx?src=https%3A%2F%2Fh.edu%2Fa%26b.docx"
    = str "https://view.officeapps.live.com/op/embed.aspx?src=" ++ e
    /\ encodeURIComponent (str "https://h.edu/a&b.docx") = Returned e
    /\ Forall (fun c => uriSafe c = true) e
    /\ (forall c, In c (str "&=#?/ ") -> ~ In c e).
Proof.
  refine (office_viewer_url_escaped (str "https://h.edu/a&b.docx") _ _ eq_refl).
  repeat constructor.
Defined.

(** ** Editing a resource *)

Lemma existingResource_edit rs r f :
  List.NoDup (map id rs) -> In r rs -> id r <> [] ->
  existingResource rs (handleEditClick r f) = Some r.
Proof.
  intros Hnd Hin Hid. unfold existingResource, handleEditClick.
  cbn [editingResourceId]. destruct (id r) as [ | c i] eqn:E; [congruence | ].
  rewrite <- E. now apply find_by_id_unique.
Qed.

(** X25. Opening a resource of a catalog with unique ids for editing and
    submitting: if no file is attached, a resource whose URL is not blank
    keeps it, trimmed, and keeps its original file name; a file that was
    attached before the resource was opened for editing is still attached,
    and for a type other than LINK it is uploaded and replaces both the URL
    and the original file name. The submit button is enabled for every
    such resource that is not a LINK. *)
Theorem edit_and_submit
  (upload : File -> attempt jsstring) (rs : list Resource) (r : Resource) (f : Form) :
  List.NoDup (map id rs) -> In r rs -> id r <> [] ->
  let f' := handleEditClick r f in
  (type r <> LINK -> submitDisabled f' = false)
  /\ (selectedFile f = None -> trim (or_empty (url r)) <> [] ->
      urlToSave upload rs f' = Done (Some (trim (or_empty (url r))))
      /\ originalFilename rs f' = original_filename r)
  /\ (forall file, selectedFile f = Some file -> type r <> LINK ->
        urlToSave upload rs f'
        = match upload file with Done u => Done (Some u) | Failed m => Failed m end
        /\ originalFilename rs f' = Some (file_name file)).
Proof.
  intros Hnd Hin Hid. cbv zeta.
  pose proof (existingResource_edit rs r f Hnd Hin Hid) as Hex.
  assert (Htr : truthy (Some (id r)) = true) by (destruct (id r); [congruence | reflexivity]).
  split; [ | split].
  - intros Ht. unfold submitDisabled, handleEditClick.
    cbn [form_type form_url selectedFile editingResourceId]. rewrite Htr.
    destruct (ResourceType_eqb (type r) LINK) eqn:E;
      [apply ResourceType_eqb_eq in E; contradiction | ].
    destruct (allowsUploadOrLink (type r)); cbn; now rewrite !andb_false_r.
  - intros Hf Hu. split.
    + unfold urlToSave. cbn [handleEditClick form_type form_url selectedFile].
      rewrite Hf. apply nonEmpty_true in Hu. rewrite Hu.
      now destruct (ResourceType_eqb (type r) LINK).
    + unfold originalFilename. rewrite Hex.
      cbn [handleEditClick selectedFile editingResourceId]. now rewrite Hf, Htr.
  - intros file Hf Ht. split.
    + unfold urlToSave. cbn [handleEditClick form_type selectedFile]. rewrite Hf.
      destruct (ResourceType_eqb (type r) LINK) eqn:E;
        [apply ResourceType_eqb_eq in E; contradiction | reflexivity].
    + unfold originalFilename. cbn [handleEditClick selectedFile]. now rewrite Hf.
Qed.

Lemma edit_and_submit_witness :
  urlToSave noUpload catalog4
    (handleEditClick (sample "1" PDF "https://h.edu/a.pdf" ["exam-prep"; "ai"]%string online 5)
       {| form_type := LINK; form_url := str "x"; selectedFile := None;
          editingResourceId := None |})
  = Done (Some (str "https://h.edu/a.pdf")).
Proof.
  refine (proj1 (proj1 (proj2 (edit_and_submit noUpload catalog4
    (sample "1" PDF "https://h.edu/a.pdf" ["exam-prep"; "ai"]%string online 5)
    {| form_type := LINK; form_url := str "x"; selectedFile := None;
       editingResourceId := None |} _ _ _)) eq_refl _)).
  - repeat constructor; vm_compute; intuition discriminate.
  - cbn. tauto.
  - discriminate.
  - discriminate.
Defined.

(** ** The tag registry after a rename or a deletion *)

Lemma tagCounts_step_is_Some (acc : gmap jsstring CountValue) t k :
  is_Some (acc !! k) -> is_Some (tagCounts_step acc t !! k).
Proof.
  intros H. destruct (decide (k = t)) as [-> | Hne].
  - unfold tagCounts_step. destruct H as [v Hv]. rewrite Hv.
    destruct v; rewrite lookup_insert_eq; eauto.
  - now rewrite tagCounts_step_other.
Qed.

Lemma tagCounts_fold_is_Some (l : list jsstring) (m : gmap jsstring CountValue) k :
  is_Some (m !! k) -> is_Some (fold_left tagCounts_step l m !! k).
Proof.
  revert m. induction l as [ | t l IH]; intros m H; [exact H | ].
  cbn. apply IH. now apply tagCounts_step_is_Some.
Qed.

Lemma tagCounts_fold_In (l : list jsstring) (m : gmap jsstring CountValue) k :
  In k l -> k <> str "__proto__" -> is_Some (fold_left tagCounts_step l m !! k).
Proof.
  revert m. induction l as [ | t l IH]; intros m Hin Hk; [destruct Hin | ].
  cbn. destruct (jsstring_eq_dec t k) as [-> | Hne].
  - apply tagCounts_fold_is_Some. unfold tagCounts_step.
    destruct (m !! k) as [[n | ] | ]; try (rewrite lookup_insert_eq; eauto).
    apply jsstring_eqb_neq in Hk. rewrite Hk.
    destruct (Array_includes Object_prototype_keys k); rewrite lookup_insert_eq; eauto.
  - destruct Hin as [E | Hin]; [congruence | ]. now apply IH.
Qed.

Lemma tagCounts_proto rs : tagCounts rs !! str "__proto__" = None.
Proof.
  unfold tagCounts. generalize (rawTags rs).
  assert (H : forall (l : list jsstring) (m : gmap jsstring CountValue),
            m !! str "__proto__" = None ->
            fold_left tagCounts_step l m !! str "__proto__" = None).
  { induction l as [ | t l IH]; intros m Hm; [exact Hm | ].
    cbn. apply IH. destruct (jsstring_eq_dec t (str "__proto__")) as [-> | Hne].
    - unfold tagCounts_step. rewrite Hm. now rewrite jsstring_eqb_refl.
    - rewrite tagCounts_step_other by congruence. exact Hm. }
  intros l. apply H. apply lookup_empty.
Qed.

(** X26. The tag manager has a count for exactly the tags it lists, with
    one exception: [tagCounts] has an entry for a tag if and only if the
    tag is in [uniqueTags] and is not named [__proto__], for which no entry
    is ever created. *)
Theorem tagCounts_entries_are_uniqueTags (rs : list Resource) (t : jsstring) :
  is_Some (tagCounts rs !! t) <-> In t (uniqueTags rs) /\ t <> str "__proto__".
Proof.
  rewrite uniqueTags_In. split.
  - intros H. split.
    + destruct (in_dec jsstring_eq_dec t (rawTags rs)) as [Hin | Hn]; [exact Hin | ].
      rewrite (tagCounts_absent t rs Hn) in H. destruct H; discriminate.
    + intros ->. rewrite tagCounts_proto in H. destruct H; discriminate.
  - intros [Hin Hne]. now apply tagCounts_fold_In.
Qed.

Lemma tagCounts_step_key (m m' : gmap jsstring CountValue) t k :
  m !! k = m' !! k -> tagCounts_step m t !! k = tagCounts_step m' t !! k.
Proof.
  intros H. destruct (decide (k = t)) as [-> | Hne].
  - unfold tagCounts_step. rewrite <- H.
    destruct (m !! t) as [[n | ] | ] eqn:E; rewrite ?lookup_insert_eq; try reflexivity.
    destruct (jsstring_eqb t (str "__proto__")); [now rewrite <- H | ].
    destruct (Array_includes Object_prototype_keys t); now rewrite !lookup_insert_eq.
  - now rewrite !tagCounts_step_other.
Qed.

Lemma tagCounts_fold_key (l : list jsstring) (m m' : gmap jsstring CountValue) k :
  m !! k = m' !! k ->
  fold_left tagCounts_step l m !! k = fold_left tagCounts_step l m' !! k.
Proof.
  revert m m'. induction l as [ | t l IH]; intros m m' H; [exact H | ].
  cbn. apply IH. now apply tagCounts_step_key.
Qed.

Lemma tagCounts_fold_only_key (l : list jsstring) (m : gmap jsstring CountValue) k :
  fold_left tagCounts_step l m !! k
  = fold_left tagCounts_step (List.filter (jsstring_eqb k) l) m !! k.
Proof.
  revert m. induction l as [ | t l IH]; intros m; [reflexivity | ].
  cbn [fold_left List.filter]. destruct (jsstring_eqb k t) eqn:E.
  - cbn [fold_left]. apply IH.
  - apply jsstring_eqb_neq in E. rewrite IH. apply tagCounts_fold_key.
    now apply tagCounts_step_other.
Qed.

Lemma tagOp_resources (touched : Resource -> bool) (newTags : Resource -> list jsstring)
  (rs : list Resource) :
  let updates := tagUpdates touched newTags rs in
  let rs' := if (0 <? length updates)%nat
             then handleBatchUpdateResources updates rs else rs in
  (forall r', In r' rs' ->
     (exists r, In r rs /\ touched r = true /\ r' = with_tags r (newTags r))
     \/ (In r' rs /\ touched r' = false))
  /\ (forall r, In r rs -> touched r = true ->
        exists r0, In r0 rs /\ touched r0 = true
                   /\ In (with_tags r0 (newTags r0)) rs')
  /\ (List.NoDup (map id rs) ->
      rs' = map (fun r => if touched r then with_tags r (newTags r) else r) rs).
Proof.
  cbv zeta. destruct (tagUpdates touched newTags rs) as [ | u us] eqn:E.
  - cbn [length Nat.ltb Nat.leb].
    assert (Hno : forall r, In r rs -> touched r = false).
    { intros r Hr. destruct (touched r) eqn:T; [ | reflexivity].
      assert (In (with_tags r (newTags r)) (tagUpdates touched newTags rs))
        by (apply tagUpdates_In; eauto).
      rewrite E in H. destruct H. }
    split; [ | split].
    + intros r' Hr'. right. split; [exact Hr' | now apply Hno].
    + intros r Hr T. rewrite (Hno r Hr) in T. discriminate.
    + intros _. rewrite <- (map_id rs) at 1. apply map_ext_in. intros r Hr.
      now rewrite (Hno r Hr).
  - change (0 <? length (u :: us))%nat with true. cbv iota. rewrite <- E.
    split; [ | split].
    + intros r' Hr'. apply batch_tagUpdates_In in Hr'.
      destruct Hr' as [Hr' | Hr']; [left; now apply tagUpdates_In | now right].
    + intros r Hr T.
      assert (Hin : In (with_tags r (newTags r)) (tagUpdates touched newTags rs))
        by (apply tagUpdates_In; eauto).
      apply Map_by_id_is_Some in Hin. rewrite with_tags_id in Hin.
      destruct Hin as [w Hw]. pose proof (Map_by_id_Some _ _ _ Hw) as [Hw1 _].
      apply tagUpdates_In in Hw1. destruct Hw1 as [r0 [H0 [T0 ->]]].
      exists r0. split; [exact H0 | split; [exact T0 | ]].
      unfold handleBatchUpdateResources. apply in_map_iff. exists r.
      split; [now rewrite Hw | exact Hr].
    + apply batch_tagUpdates_unique.
Qed.

Lemma filter_key_withoutTag k tag ts :
  k <> tag ->
  List.filter (jsstring_eqb k) (withoutTag tag ts) = List.filter (jsstring_eqb k) ts.
Proof.
  intros Hne. unfold withoutTag. induction ts as [ | t ts IH]; [reflexivity | ].
  cbn [List.filter]. destruct (jsstring_eqb t tag) eqn:E; cbn [negb List.filter].
  - apply jsstring_eqb_eq in E. subst t.
    apply jsstring_eqb_neq in Hne. now rewrite Hne.
  - now rewrite IH.
Qed.

(** X27. After a tag is deleted from a catalog with unique ids, the counts
    of all other tags are what they were, and the tag list shows the same
    tags as before apart from the deleted one. After a rename to a
    different name, the old name is no longer listed and has no count, and
    the new name is listed as soon as one resource carried the old one. *)
Theorem tag_operations_update_registry (c : Console) :
  (forall tag, List.NoDup (map id (resources c)) ->
     (forall t, t <> tag ->
        tagCounts (resources (handleDeleteTag tag c)) !! t
        = tagCounts (resources c) !! t)
     /\ (forall t, In t (uniqueTags (resources (handleDeleteTag tag c)))
                   <-> In t (uniqueTags (resources c)) /\ t <> tag))
  /\ (forall oldTag current,
        editingTag c = Some (oldTag, current) ->
        trim current <> [] -> current <> oldTag -> trim current <> oldTag ->
        ~ In oldTag (uniqueTags (resources (handleRenameTag c)))
        /\ tagCounts (resources (handleRenameTag c)) !! oldTag = None
        /\ (In oldTag (uniqueTags (resources c)) ->
            In (trim current) (uniqueTags (resources (handleRenameTag c))))).
Proof.
  split.
  - intros tag Hnd.
    assert (Hres : resources (handleDeleteTag tag c)
                   = map (fun r => if hasTag tag r
                                   then with_tags r (withoutTag tag (tags r)) else r)
                         (resources c)).
    { unfold handleDeleteTag. rewrite deleteUpdates_tagUpdates.
      destruct (tagOp_resources (hasTag tag) (fun r => withoutTag tag (tags r))
                  (resources c)) as [_ [_ H]].
      specialize (H Hnd). cbv zeta in H. rewrite <- H. cbn [resources].
      destruct (0 <? length _)%nat; reflexivity. }
    assert (Hraw : forall k, k <> tag ->
              List.filter (jsstring_eqb k) (rawTags (resources (handleDeleteTag tag c)))
              = List.filter (jsstring_eqb k) (rawTags (resources c))).
    { intros k Hk. rewrite Hres, !rawTags_flat_map. clear Hres Hnd.
      induction (resources c) as [ | r rs IH]; [reflexivity | ].
      cbn [map flat_map]. rewrite !List.filter_app, IH. f_equal.
      destruct (hasTag tag r); [ | reflexivity].
      rewrite with_tags_tags. now apply filter_key_withoutTag. }
    split.
    + intros t Ht. unfold tagCounts.
      rewrite (tagCounts_fold_only_key (rawTags (resources (handleDeleteTag tag c)))).
      rewrite (tagCounts_fold_only_key (rawTags (resources c))).
      now rewrite (Hraw t Ht).
    + intros t. rewrite !uniqueTags_In. split.
      * intros H. assert (Hne : t <> tag).
        { intros ->. rewrite Hres, rawTags_In in H. destruct H as [r' [Hr' Hin]].
          apply in_map_iff in Hr'. destruct Hr' as [r [<- Hr]].
          destruct (hasTag tag r) eqn:T.
          - rewrite with_tags_tags in Hin. apply withoutTag_In in Hin. tauto.
          - apply Array_includes_not_In in T. contradiction. }
        split; [ | exact Hne].
        assert (K : In t (List.filter (jsstring_eqb t)
                            (rawTags (resources (handleDeleteTag tag c)))))
          by (apply filter_In; split; [exact H | apply jsstring_eqb_refl]).
        rewrite (Hraw t Hne) in K. now apply filter_In in K.
      * intros [H Hne].
        assert (K : In t (List.filter (jsstring_eqb t) (rawTags (resources c))))
          by (apply filter_In; split; [exact H | apply jsstring_eqb_refl]).
        rewrite <- (Hraw t Hne) in K. now apply filter_In in K.
  - intros oldTag current He Hne Hcur Hdiff.
    assert (G : negb (nonEmpty (trim current)) || jsstring_eqb current oldTag = false).
    { apply orb_false_iff. split.
      - apply negb_false_iff. now apply nonEmpty_true.
      - now apply jsstring_eqb_neq. }
    destruct (tagOp_resources (hasTag oldTag)
                (fun r => renamed oldTag (trim current) (tags r)) (resources c))
      as [H1 [H2 _]]. cbv zeta in H1, H2.
    assert (Hres : resources (handleRenameTag c)
                   = (if (0 <? length (tagUpdates (hasTag oldTag)
                                         (fun r => renamed oldTag (trim current) (tags r))
                                         (resources c)))%nat
                      then handleBatchUpdateResources
                             (tagUpdates (hasTag oldTag)
                                (fun r => renamed oldTag (trim current) (tags r))
                                (resources c)) (resources c)
                      else resources c)).
    { unfold handleRenameTag. rewrite He, G. cbv zeta.
      rewrite renameUpdates_tagUpdates. cbn [resources].
      destruct (0 <? length _)%nat; reflexivity. }
    rewrite Hres.
    assert (Hold : ~ In oldTag (rawTags
              (if (0 <? length (tagUpdates (hasTag oldTag)
                                  (fun r => renamed oldTag (trim current) (tags r))
                                  (resources c)))%nat
               then handleBatchUpdateResources
                      (tagUpdates (hasTag oldTag)
                         (fun r => renamed oldTag (trim current) (tags r))
                         (resources c)) (resources c)
               else resources c))).
    { rewrite rawTags_In. intros [r' [Hr' Hin]].
      destruct (H1 r' Hr') as [[r [Hr [T ->]]] | [Hr T]].
      - rewrite with_tags_tags in Hin. apply renamed_In in Hin.
        destruct Hin as [[E _] | [_ E]]; congruence.
      - apply Array_includes_not_In in T. contradiction. }
    split; [now rewrite uniqueTags_In | split; [now apply tagCounts_absent | ]].
    rewrite !uniqueTags_In, !rawTags_In. intros [r [Hr Hin]].
    assert (T : hasTag oldTag r = true) by now apply Array_includes_In.
    destruct (H2 r Hr T) as [r0 [Hr0 [T0 Hin0]]].
    eexists. split; [exact Hin0 | ]. rewrite with_tags_tags.
    apply renamed_In. left. split; [reflexivity | now apply Array_includes_In].
Qed.
